(** * Band-constrained Lp-norm minimisation (vamtoolbox/backup/BCLP_20221026.py)
      and the plots of vamtoolbox/display.py

    A shallow embedding of [LogPerf], [BCLPNorm] and [minimizeBCLP], and of
    the index and colour logic of the plots ([CursorFormatter],
    [IndexTracker], [BodiesIndexTracker], [VolumeSlicer], [ErrorPlot]).

    - numpy's float64 is a scalar interface [Scalar]; two instances are
      given: [float_Scalar] (IEEE binary64, with NaN and the two zeros) on
      which the program is run, and [Z_Scalar] (the integers). The laws
      used by the numerical statements, [OrderLaws] and [SignLaws], are
      proved of both.
    - a sinogram is an [ndarray] (shape and C-ordered data); arrays of the
      reconstruction volume are lists of voxel values, all of the target's
      shape.
    - methods are computations of a state-and-exception monad over the
      Python object, the clock and the trace of observable events.
    - the projector constructor, the sinogram filter and the clock are
      outside the file and enter as the class [Collaborators]; the response
      model and the projector are records of functions; the calls to the
      live plot are events of the trace.
    - a division of two scalars never raises (the scalars of the options are
      numpy floats), and an elementwise operation is between arrays of one
      shape: where the shapes differ numpy raises or broadcasts, which is
      left out.
    - of a plot, the attributes that the handlers read and write are kept:
      the image of a tracker is the slice it holds, the drawing itself is
      left to matplotlib. *)

From Stdlib Require Import ZArith List Bool Lia.
From Stdlib Require Import Floats.PrimFloat Numbers.Cyclic.Int63.Uint63.
From Stdlib Require Floats.FloatOps Floats.FloatAxioms Floats.SpecFloat.
From Stdlib Require Strings.String.
From stdpp Require Import base list.

Local Open Scope Z_scope.

(** ** Scalars *)

Class Scalar (F : Type) := {
  fzero : F;
  fone : F;
  fadd : F -> F -> F;
  fsub : F -> F -> F;
  fmul : F -> F -> F;
  fdiv : F -> F -> F;
  fabs : F -> F;
  fsign : F -> F;
  fpow : F -> F -> F;
  fltb : F -> F -> bool;
  fleb : F -> F -> bool;
  of_nat : nat -> F
}.

(** [np.nan] and the test for it. *)
Class NaNScalar (F : Type) `{Scalar F} := {
  fnan : F;
  is_nan : F -> bool
}.

(** [0 * nan] is NaN and [0] is not: what [np.zeros(n) * np.nan] relies on. *)
Class NaNLaws (F : Type) `{NaNScalar F} : Prop := {
  is_nan_zero_mul_nan : is_nan (fmul fzero fnan) = true;
  is_nan_zero : is_nan fzero = false;
  is_nan_nan : is_nan fnan = true
}.

(** The comparisons [<] and [<=], with or without NaN: a value compares
    with itself unless it is NaN, a NaN compares with nothing, and the
    values that are not NaN are totally ordered. *)
Class OrderLaws (F : Type) `{Scalar F} : Prop := {
  fltb_true_fleb : forall x y, fltb x y = true -> fleb x y = true;
  fleb_self : forall x y, fleb x y = true -> fleb x x = true /\ fleb y y = true;
  fleb_trans : forall x y z, fleb x y = true -> fleb y z = true -> fleb x z = true;
  fleb_total : forall x y,
    fleb x x = true -> fleb y y = true -> fleb y x = false -> fleb x y = true
}.

(** Signs, with or without NaN and a negative zero. A value is not negative
    when [x < 0] is false: it is [>= 0], the negative zero or NaN. Sums,
    products and powers of such values are not negative, nor is the
    quotient of two values above 0, nor a product with [0 * x]. *)
Class SignLaws (F : Type) `{Scalar F} : Prop := {
  fzero_not_neg : fltb fzero fzero = false;
  fone_not_neg : fltb fone fzero = false;
  fleb_not_neg : forall x, fleb fzero x = true -> fltb x fzero = false;
  fltb_not_neg : forall x, fltb fzero x = true -> fltb x fzero = false;
  fadd_not_neg : forall x y,
    fltb x fzero = false -> fltb y fzero = false -> fltb (fadd x y) fzero = false;
  fmul_not_neg : forall x y,
    fltb x fzero = false -> fltb y fzero = false -> fltb (fmul x y) fzero = false;
  fmul_zero_not_neg : forall x y, fltb (fmul (fmul fzero x) y) fzero = false;
  fdiv_not_neg : forall x y,
    fltb fzero x = true -> fltb fzero y = true -> fltb (fdiv x y) fzero = false;
  fpow_not_neg : forall x y,
    fltb x fzero = false -> fltb y fzero = false -> fltb (fpow x y) fzero = false
}.

(** *** IEEE binary64 *)

Definition float_is_nan (x : float) : bool := negb (PrimFloat.eqb x x).

(** [np.sign]: -1, 0 or 1, and NaN on NaN. *)
Definition float_sign (x : float) : float :=
  if PrimFloat.ltb x 0%float then (-1)%float
  else if PrimFloat.ltb 0%float x then 1%float
  else if PrimFloat.eqb x 0%float then 0%float
  else nan.

(** [x ** y] on the exponents 0, 1, 2 and 0.5, for which numpy's [**] on an
    array is [ones_like], a copy, [np.square] and [np.sqrt]; a scalar base
    is given the same values. An exponent outside this table goes to the C
    library's [pow], which is not part of this development: the model
    gives NaN there, and no run below uses such an exponent. *)
Definition float_power (x y : float) : float :=
  if PrimFloat.eqb y 0%float then 1%float
  else if PrimFloat.eqb y 1%float then x
  else if PrimFloat.eqb y 2%float then PrimFloat.mul x x
  else if PrimFloat.eqb y 0.5%float then PrimFloat.sqrt x
  else nan.

Definition float_of_nat (n : nat) : float :=
  PrimFloat.of_uint63 (Uint63.of_Z (Z.of_nat n)).

#[export] Instance float_Scalar : Scalar float := {|
  fzero := 0%float;
  fone := 1%float;
  fadd := PrimFloat.add;
  fsub := PrimFloat.sub;
  fmul := PrimFloat.mul;
  fdiv := PrimFloat.div;
  fabs := PrimFloat.abs;
  fsign := float_sign;
  fpow := float_power;
  fltb := PrimFloat.ltb;
  fleb := PrimFloat.leb;
  of_nat := float_of_nat
|}.

#[export] Instance float_NaNScalar : NaNScalar float := {|
  fnan := nan;
  is_nan := float_is_nan
|}.

(** binary64 with the power left open: [pow] stands for the function behind
    [**], whatever it does outside the table of [float_power]. *)
Definition float_Scalar_with (pow : float -> float -> float) : Scalar float := {|
  fzero := 0%float;
  fone := 1%float;
  fadd := PrimFloat.add;
  fsub := PrimFloat.sub;
  fmul := PrimFloat.mul;
  fdiv := PrimFloat.div;
  fabs := PrimFloat.abs;
  fsign := float_sign;
  fpow := pow;
  fltb := PrimFloat.ltb;
  fleb := PrimFloat.leb;
  of_nat := float_of_nat
|}.

(** *** Integers

    [Z] with floor division; a power with a negative exponent is 0. *)

#[export] Instance Z_Scalar : Scalar Z := {|
  fzero := 0;
  fone := 1;
  fadd := Z.add;
  fsub := Z.sub;
  fmul := Z.mul;
  fdiv := Z.div;
  fabs := Z.abs;
  fsign := Z.sgn;
  fpow := Z.pow;
  fltb := Z.ltb;
  fleb := Z.leb;
  of_nat := Z.of_nat
|}.
(** ** Collaborators and passive containers *)

(** Arrays over the reconstruction volume: voxel values in C order. *)
Definition vol (F : Type) := list F.

(** A numpy array: its shape and its elements in C order. *)
Record ndarray (F : Type) := mk_ndarray {
  shape : list nat;
  data : list F
}.
Arguments mk_ndarray {F}.
Arguments shape {F}.
Arguments data {F}.

Module ResponseModel.
Record t (F : Type) := mk {
  map : vol F -> vol F;
  map_inv : vol F -> vol F;
  dmapdf : vol F -> vol F;
  checkResponseTarget : vol F -> bool
}.
Arguments mk {F}.
Arguments map {F}.
Arguments map_inv {F}.
Arguments dmapdf {F}.
Arguments checkResponseTarget {F}.
End ResponseModel.

Module Projector.
Record t (F : Type) := mk {
  forward : vol F -> ndarray F;
  backward : ndarray F -> vol F
}.
Arguments mk {F}.
Arguments forward {F}.
Arguments backward {F}.
End Projector.

Module TargetGeometry.
Record t (F : Type) := mk { array : vol F }.
Arguments mk {F}.
Arguments array {F}.
End TargetGeometry.

Module ProjectionGeometry.
Record t := mk { n_angles : nat }.
End ProjectionGeometry.

(** [options.verbose]: 'off', 'time' or 'plot'. *)
Inductive verbose_t := Off | Time | Plot.

Definition verbose_eqb (a b : verbose_t) : bool :=
  match a, b with
  | Off, Off | Time, Time | Plot, Plot => true
  | _, _ => false
  end.

(** [options.weight]: a scalar, or one weight per voxel. *)
Inductive weight_t (F : Type) :=
| WScalar (w : F)
| WArray (w : vol F).
Arguments WScalar {F}.
Arguments WArray {F}.

(** Names of the optimiser and of the sinogram filter. *)
Inductive optim_alg_t := GradientDescent | OtherAlg (n : nat).
Inductive filter_t := NoFilter | NamedFilter (n : nat).

Module Options.
Record t (F : Type) := mk {
  n_iter : nat;
  response_model : ResponseModel.t F;
  eps : F;
  weight : weight_t F;
  p : F;
  q : F;
  learning_rate : F;
  optim_alg : optim_alg_t;
  blb : F;
  bub : F;
  bit_depth : option nat;
  filter : filter_t;
  verbose : verbose_t
}.
Arguments mk {F}.
Arguments n_iter {F}.
Arguments response_model {F}.
Arguments eps {F}.
Arguments weight {F}.
Arguments p {F}.
Arguments q {F}.
Arguments learning_rate {F}.
Arguments optim_alg {F}.
Arguments blb {F}.
Arguments bub {F}.
Arguments bit_depth {F}.
Arguments filter {F}.
Arguments verbose {F}.
End Options.

(** The exceptions the program can raise. *)
Inductive exn :=
| AttributeError
| TypeError
| ValueError
| IndexError
| ZeroDivisionError.

Inductive result (A : Type) :=
| Success (a : A)
| Failure (e : exn).
Arguments Success {A}.
Arguments Failure {A}.

(** What the run does to the outside, in order; the accesses to
    [logs.loss] (index and value stored or read) are recorded along with
    them. *)
Inductive event (F : Type) :=
| EvWarn
| EvPlotCreate (n : nat)
| EvPrint (i : Z) (t : F)
| EvPlotUpdate (loss : list F) (dose mapped_dose : option (vol F))
| EvPlotIoff
| EvLossWrite (i : Z) (x : F)
| EvLossRead (i : Z) (x : F).
Arguments EvWarn {F}.
Arguments EvPlotCreate {F}.
Arguments EvPrint {F}.
Arguments EvPlotUpdate {F}.
Arguments EvPlotIoff {F}.
Arguments EvLossWrite {F}.
Arguments EvLossRead {F}.

(** The clock (number of readings so far) and the events, newest first. *)
Record World (F : Type) := mk_World {
  ticks : nat;
  trace : list (event F)
}.
Arguments mk_World {F}.
Arguments ticks {F}.
Arguments trace {F}.

(** ** numpy *)

Section Numpy.
Context {F : Type} `{Scalar F}.

(** [np.zeros(n)]. *)
Definition np_zeros (n : nat) : list F := repeat fzero n.

(** [np.product] of a shape: the number of elements. *)
Definition np_product (sh : list nat) : nat := fold_right Nat.mul 1%nat sh.

(** The unrolled loop of numpy's [pairwise_sum]: eight running sums, each
    taking every eighth element while eight elements are left; then the
    eight are added as a balanced tree and the elements left over are added
    to the result one by one. *)
Fixpoint pairwise_block (r0 r1 r2 r3 r4 r5 r6 r7 : F) (xs : list F) : F :=
  match xs with
  | x0 :: x1 :: x2 :: x3 :: x4 :: x5 :: x6 :: x7 :: xs' =>
      pairwise_block (fadd r0 x0) (fadd r1 x1) (fadd r2 x2) (fadd r3 x3)
                     (fadd r4 x4) (fadd r5 x5) (fadd r6 x6) (fadd r7 x7) xs'
  | _ =>
      fold_left fadd xs
        (fadd (fadd (fadd r0 r1) (fadd r2 r3)) (fadd (fadd r4 r5) (fadd r6 r7)))
  end.

(** numpy's [pairwise_sum] on [n] contiguous elements: fewer than 8 are
    added to 0 one by one; up to 128 go through the unrolled loop; more are
    split at [n2 = n / 2 - (n / 2) % 8] and the sums of the two parts are
    added. [depth] bounds the number of splits: this many are never needed
    for an array of [128 + depth] elements ([pairwise_sum_depth]). *)
Fixpoint pairwise_sum (depth : nat) (xs : list F) : F :=
  match xs with
  | x0 :: x1 :: x2 :: x3 :: x4 :: x5 :: x6 :: x7 :: xs' =>
      match depth with
      | S depth' =>
          if (length xs <=? 128)%nat
          then pairwise_block x0 x1 x2 x3 x4 x5 x6 x7 xs'
          else
            let n2 := (length xs / 2 - (length xs / 2) mod 8)%nat in
            fadd (pairwise_sum depth' (take n2 xs))
                 (pairwise_sum depth' (drop n2 xs))
      | O => pairwise_block x0 x1 x2 x3 x4 x5 x6 x7 xs'
      end
  | _ => fold_left fadd xs fzero
  end.

(** [np.sum] of a contiguous array: the reduction starts from 0, the
    identity of the addition, and adds the pairwise sum of the elements. *)
Definition np_sum (xs : list F) : F :=
  fadd fzero (pairwise_sum (length xs) xs).

(** [np.reshape(g, sh)]: the same elements under a shape of the same size. *)
Definition np_reshape (g : ndarray F) (sh : list nat) : result (ndarray F) :=
  if Nat.eqb (length (data g)) (np_product sh)
  then Success (mk_ndarray sh (data g))
  else Failure ValueError.

(** An elementwise operation on one array. *)
Definition nd_map (f : F -> F) (g : ndarray F) : ndarray F :=
  mk_ndarray (shape g) (List.map f (data g)).

(** An elementwise operation on two arrays of one shape. Where the shapes
    differ numpy raises or broadcasts; that case is left out, and the
    statements below are about arrays of one shape. *)
Definition nd_zip (f : F -> F -> F) (a b : ndarray F) : ndarray F :=
  mk_ndarray (shape a) (zip_with f (data a) (data b)).

(** C's [isnan]: NaN is the one value that does not compare with itself. *)
Definition fisnan (x : F) : bool := negb (fleb x x).

(** [np.maximum] on two elements, [(x >= y || isnan(x)) ? x : y]: a NaN on
    either side is the result. *)
Definition fmaximum (x y : F) : F := if fisnan x || fleb y x then x else y.

(** The two steps of [np.clip] on floats, numpy's [_NPY_MAX] and [_NPY_MIN]:
    [isnan(a) ? a : (a > b ? a : b)] and [isnan(a) ? a : (a < b ? a : b)].
    A NaN element is kept; on a tie, and against a NaN bound, the bound is
    the result. *)
Definition npy_max (a b : F) : F :=
  if fisnan a then a else if fltb b a then a else b.

Definition npy_min (a b : F) : F :=
  if fisnan a then a else if fltb a b then a else b.

(** [np.clip(x, lo, hi)] on one element: [_NPY_MIN(_NPY_MAX(x, lo), hi)]. *)
Definition clip1 (lo hi x : F) : F := npy_min (npy_max x lo) hi.

Definition np_clip (g : ndarray F) (a_min a_max : F) : ndarray F :=
  nd_map (clip1 a_min a_max) g.

(** [np.amax], the reduction of [np.maximum] from the first element on: NaN
    as soon as one element is NaN; raises on an array without elements. *)
Definition np_amax (g : ndarray F) : result F :=
  match data g with
  | [] => Failure ValueError
  | x :: xs => Success (fold_left fmaximum xs x)
  end.

(** A Python index into a sequence of length [n]: negative ones count from
    the end. *)
Definition py_index (n : nat) (i : Z) : option nat :=
  if 0 <=? i then (if i <? Z.of_nat n then Some (Z.to_nat i) else None)
  else if - Z.of_nat n <=? i then Some (Z.to_nat (Z.of_nat n + i))
  else None.

(** [xs[i]] and [xs[i] = x]. *)
Definition py_getitem (xs : list F) (i : Z) : result F :=
  match py_index (length xs) i with
  | Some k =>
      match xs !! k with
      | Some x => Success x
      | None => Failure IndexError
      end
  | None => Failure IndexError
  end.

Definition py_setitem (xs : list F) (i : Z) (x : F) : result (list F) :=
  match py_index (length xs) i with
  | Some k => Success (<[k := x]> xs)
  | None => Failure IndexError
  end.

(** A boolean in arithmetic: [True] is 1 and [False] is 0. *)
Definition bool_to_F (b : bool) : F := if b then fone else fzero.

(** [x * weight] with [weight] broadcast when it is a scalar. *)
Definition mul_weight (xs : vol F) (w : weight_t F) : vol F :=
  match w with
  | WScalar c => List.map (fun x => fmul x c) xs
  | WArray ws => zip_with fmul xs ws
  end.

End Numpy.

(** ** vamtoolbox.util.data *)

Section Discretize.
Context {F : Type} `{Scalar F}.

(** Modelled from the spec: the levels of [discretize], which is not part of
    the sources. Section 4.3 quantizes into that many levels over the range:
    the [levels] evenly spaced values [lo + k * (hi - lo) / (levels - 1)]. *)
Definition quantization_levels (levels : nat) (lo hi : F) : list F :=
  List.map (fun k => fadd lo (fmul (of_nat k)
                        (fdiv (fsub hi lo) (of_nat (levels - 1)))))
           (seq 0 levels).

(** Modelled from the spec: of two levels, the one closer to [x] (the
    earlier one on a tie). *)
Definition closer (x best l : F) : F :=
  if fltb (fabs (fsub x l)) (fabs (fsub x best)) then l else best.

(** Modelled from the spec: the level nearest to [x]. *)
Definition nearest (ls : list F) (x : F) : F :=
  match ls with
  | [] => x
  | l :: ls' => fold_left (closer x) ls' l
  end.

(** Modelled from the spec: [vamtoolbox.util.data.discretize(x, bit_depth,
    range)] is not part of the sources. Following section 4.3 of the spec,
    each value is moved to the nearest of [levels] levels over the range;
    the shape is kept. *)
Definition discretize (g : ndarray F) (levels : nat) (range : F * F) : ndarray F :=
  nd_map (nearest (quantization_levels levels (fst range) (snd range))) g.

End Discretize.

(** The functions of other modules that the program calls:
    [vamtoolbox.projectorconstructor.projectorconstructor],
    [vamtoolbox.util.data.filterSinogram] and the successive readings of
    [time.perf_counter()]. *)
Class Collaborators (F : Type) := {
  projectorconstructor :
    TargetGeometry.t F -> ProjectionGeometry.t -> Projector.t F;
  filterSinogram : ndarray F -> filter_t -> ndarray F;
  perf_counter : nat -> F
}.

(** ** The program *)

Section Model.
Context {F : Type} `{NF : NaNScalar F} {CF : Collaborators F}.

(** *** LogPerf *)

(** The attributes of a [LogPerf] object. *)
Record LogPerf := mk_LogPerf {
  options : Options.t F;
  curr_iter : Z;
  loss : list F;
  l0_v : list F;
  l1_v : list F;
  l2_v : list F;
  lf_v : list F;
  l0_all : list F;
  l1_all : list F;
  l2_all : list F;
  lf_all : list F;
  ver : list F;
  iter_times : list F;
  t0 : F
}.

(** Assignments to single attributes of the log. *)
Definition set_curr_iter (x : Z) (l : LogPerf) : LogPerf :=
  mk_LogPerf (options l) x (loss l) (l0_v l) (l1_v l) (l2_v l) (lf_v l)
    (l0_all l) (l1_all l) (l2_all l) (lf_all l) (ver l) (iter_times l) (t0 l).

Definition set_loss (x : list F) (l : LogPerf) : LogPerf :=
  mk_LogPerf (options l) (curr_iter l) x (l0_v l) (l1_v l) (l2_v l) (lf_v l)
    (l0_all l) (l1_all l) (l2_all l) (lf_all l) (ver l) (iter_times l) (t0 l).

Definition set_iter_times (x : list F) (l : LogPerf) : LogPerf :=
  mk_LogPerf (options l) (curr_iter l) (loss l) (l0_v l) (l1_v l) (l2_v l)
    (lf_v l) (l0_all l) (l1_all l) (l2_all l) (lf_all l) (ver l) x (t0 l).

Definition set_t0 (x : F) (l : LogPerf) : LogPerf :=
  mk_LogPerf (options l) (curr_iter l) (loss l) (l0_v l) (l1_v l) (l2_v l)
    (lf_v l) (l0_all l) (l1_all l) (l2_all l) (lf_all l) (ver l)
    (iter_times l) x.

(** [np.zeros(n) * np.nan]. *)
Definition nan_array (n : nat) : list F :=
  List.map (fun x => fmul x fnan) (np_zeros n).

(** [LogPerf.__init__]. *)
Definition LogPerf_init (opts : Options.t F) : LogPerf :=
  let n := (Options.n_iter opts + 1)%nat in
  {| options := opts;
     curr_iter := 0;
     loss := nan_array n;
     l0_v := nan_array n;
     l1_v := nan_array n;
     l2_v := nan_array n;
     lf_v := nan_array n;
     l0_all := nan_array n;
     l1_all := nan_array n;
     l2_all := nan_array n;
     lf_all := nan_array n;
     ver := nan_array n;
     iter_times := np_zeros n;
     t0 := fnan |}.

(** The per-iteration arrays of the log, by name. *)
Definition nan_filled_arrays (l : LogPerf) : list (list F) :=
  [loss l; l0_v l; l1_v l; l2_v l; lf_v l;
   l0_all l; l1_all l; l2_all l; lf_all l; ver l].

Definition per_iteration_arrays (l : LogPerf) : list (list F) :=
  nan_filled_arrays l ++ [iter_times l].

(** [LogPerf.startTiming], given the clock's reading. *)
Definition startTiming (now : F) (l : LogPerf) : LogPerf := set_t0 now l.

(** [LogPerf.recordIterTime], given the clock's reading. *)
Definition recordIterTime (now : F) (l : LogPerf) : result LogPerf :=
  match py_setitem (iter_times l) (curr_iter l) (fsub now (t0 l)) with
  | Success ts => Success (set_iter_times ts l)
  | Failure e => Failure e
  end.

(** *** BCLPNorm *)

(** The live plot, [vamtoolbox.displaygrayscale.EvolvingPlot], as a handle. *)
Inductive EvolvingPlot := mk_EvolvingPlot (n : nat).

(** The attributes of a [BCLPNorm] object. The state variables are [None]
    until first computed; [dp] is [None] while the attribute is not set. *)
Record BCLPNorm := mk_BCLPNorm {
  target_geo : TargetGeometry.t F;
  proj_geo : ProjectionGeometry.t;
  tomogram_scale : F;
  logs : LogPerf;
  response_model : ResponseModel.t F;
  eps : F;
  weight : weight_t F;
  p : F;
  q : F;
  learning_rate : F;
  optim_alg : optim_alg_t;
  glb : F;
  gub : F;
  bit_depth : option nat;
  dvol : F;
  verbose : verbose_t;
  dose : option (vol F);
  mapped_dose : option (vol F);
  mapped_dose_error_from_f_T : option (vol F);
  mapped_dose_error_from_band : option (vol F);
  v : option (list bool);
  dose_iter : Z;
  mapped_dose_iter : Z;
  mapped_dose_error_from_f_T_iter : Z;
  mapped_dose_error_from_band_iter : Z;
  v_iter : Z;
  dp : option EvolvingPlot;
  P : Projector.t F;
  g0 : ndarray F;
  g0_shape : list nat
}.

(** Assignments to single attributes of the object. *)
Definition set_logs (x : LogPerf) (s : BCLPNorm) : BCLPNorm :=
  mk_BCLPNorm (target_geo s) (proj_geo s) (tomogram_scale s) x
    (response_model s) (eps s) (weight s) (p s) (q s) (learning_rate s)
    (optim_alg s) (glb s) (gub s) (bit_depth s) (dvol s) (verbose s)
    (dose s) (mapped_dose s) (mapped_dose_error_from_f_T s)
    (mapped_dose_error_from_band s) (v s) (dose_iter s) (mapped_dose_iter s)
    (mapped_dose_error_from_f_T_iter s) (mapped_dose_error_from_band_iter s)
    (v_iter s) (dp s) (P s) (g0 s) (g0_shape s).

Definition set_dose (x : option (vol F)) (s : BCLPNorm) : BCLPNorm :=
  mk_BCLPNorm (target_geo s) (proj_geo s) (tomogram_scale s) (logs s)
    (response_model s) (eps s) (weight s) (p s) (q s) (learning_rate s)
    (optim_alg s) (glb s) (gub s) (bit_depth s) (dvol s) (verbose s) x
    (mapped_dose s) (mapped_dose_error_from_f_T s)
    (mapped_dose_error_from_band s) (v s) (dose_iter s) (mapped_dose_iter s)
    (mapped_dose_error_from_f_T_iter s) (mapped_dose_error_from_band_iter s)
    (v_iter s) (dp s) (P s) (g0 s) (g0_shape s).

Definition set_mapped_dose (x : option (vol F)) (s : BCLPNorm) : BCLPNorm :=
  mk_BCLPNorm (target_geo s) (proj_geo s) (tomogram_scale s) (logs s)
    (response_model s) (eps s) (weight s) (p s) (q s) (learning_rate s)
    (optim_alg s) (glb s) (gub s) (bit_depth s) (dvol s) (verbose s)
    (dose s) x (mapped_dose_error_from_f_T s)
    (mapped_dose_error_from_band s) (v s) (dose_iter s) (mapped_dose_iter s)
    (mapped_dose_error_from_f_T_iter s) (mapped_dose_error_from_band_iter s)
    (v_iter s) (dp s) (P s) (g0 s) (g0_shape s).

Definition set_mapped_dose_error_from_f_T (x : option (vol F)) (s : BCLPNorm) : BCLPNorm :=
  mk_BCLPNorm (target_geo s) (proj_geo s) (tomogram_scale s) (logs s)
    (response_model s) (eps s) (weight s) (p s) (q s) (learning_rate s)
    (optim_alg s) (glb s) (gub s) (bit_depth s) (dvol s) (verbose s)
    (dose s) (mapped_dose s) x (mapped_dose_error_from_band s) (v s)
    (dose_iter s) (mapped_dose_iter s) (mapped_dose_error_from_f_T_iter s)
    (mapped_dose_error_from_band_iter s) (v_iter s) (dp s) (P s) (g0 s)
    (g0_shape s).

Definition set_mapped_dose_error_from_band (x : option (vol F)) (s : BCLPNorm) : BCLPNorm :=
  mk_BCLPNorm (target_geo s) (proj_geo s) (tomogram_scale s) (logs s)
    (response_model s) (eps s) (weight s) (p s) (q s) (learning_rate s)
    (optim_alg s) (glb s) (gub s) (bit_depth s) (dvol s) (verbose s)
    (dose s) (mapped_dose s) (mapped_dose_error_from_f_T s) x (v s)
    (dose_iter s) (mapped_dose_iter s) (mapped_dose_error_from_f_T_iter s)
    (mapped_dose_error_from_band_iter s) (v_iter s) (dp s) (P s) (g0 s)
    (g0_shape s).

Definition set_v (x : option (list bool)) (s : BCLPNorm) : BCLPNorm :=
  mk_BCLPNorm (target_geo s) (proj_geo s) (tomogram_scale s) (logs s)
    (response_model s) (eps s) (weight s) (p s) (q s) (learning_rate s)
    (optim_alg s) (glb s) (gub s) (bit_depth s) (dvol s) (verbose s)
    (dose s) (mapped_dose s) (mapped_dose_error_from_f_T s)
    (mapped_dose_error_from_band s) x (dose_iter s) (mapped_dose_iter s)
    (mapped_dose_error_from_f_T_iter s) (mapped_dose_error_from_band_iter s)
    (v_iter s) (dp s) (P s) (g0 s) (g0_shape s).

Definition set_dose_iter (x : Z) (s : BCLPNorm) : BCLPNorm :=
  mk_BCLPNorm (target_geo s) (proj_geo s) (tomogram_scale s) (logs s)
    (response_model s) (eps s) (weight s) (p s) (q s) (learning_rate s)
    (optim_alg s) (glb s) (gub s) (bit_depth s) (dvol s) (verbose s)
    (dose s) (mapped_dose s) (mapped_dose_error_from_f_T s)
    (mapped_dose_error_from_band s) (v s) x (mapped_dose_iter s)
    (mapped_dose_error_from_f_T_iter s) (mapped_dose_error_from_band_iter s)
    (v_iter s) (dp s) (P s) (g0 s) (g0_shape s).

Definition set_mapped_dose_iter (x : Z) (s : BCLPNorm) : BCLPNorm :=
  mk_BCLPNorm (target_geo s) (proj_geo s) (tomogram_scale s) (logs s)
    (response_model s) (eps s) (weight s) (p s) (q s) (learning_rate s)
    (optim_alg s) (glb s) (gub s) (bit_depth s) (dvol s) (verbose s)
    (dose s) (mapped_dose s) (mapped_dose_error_from_f_T s)
    (mapped_dose_error_from_band s) (v s) (dose_iter s) x
    (mapped_dose_error_from_f_T_iter s) (mapped_dose_error_from_band_iter s)
    (v_iter s) (dp s) (P s) (g0 s) (g0_shape s).

Definition set_mapped_dose_error_from_f_T_iter (x : Z) (s : BCLPNorm) : BCLPNorm :=
  mk_BCLPNorm (target_geo s) (proj_geo s) (tomogram_scale s) (logs s)
    (response_model s) (eps s) (weight s) (p s) (q s) (learning_rate s)
    (optim_alg s) (glb s) (gub s) (bit_depth s) (dvol s) (verbose s)
    (dose s) (mapped_dose s) (mapped_dose_error_from_f_T s)
    (mapped_dose_error_from_band s) (v s) (dose_iter s) (mapped_dose_iter s)
    x (mapped_dose_error_from_band_iter s) (v_iter s) (dp s) (P s) (g0 s)
    (g0_shape s).

Definition set_mapped_dose_error_from_band_iter (x : Z) (s : BCLPNorm) : BCLPNorm :=
  mk_BCLPNorm (target_geo s) (proj_geo s) (tomogram_scale s) (logs s)
    (response_model s) (eps s) (weight s) (p s) (q s) (learning_rate s)
    (optim_alg s) (glb s) (gub s) (bit_depth s) (dvol s) (verbose s)
    (dose s) (mapped_dose s) (mapped_dose_error_from_f_T s)
    (mapped_dose_error_from_band s) (v s) (dose_iter s) (mapped_dose_iter s)
    (mapped_dose_error_from_f_T_iter s) x (v_iter s) (dp s) (P s) (g0 s)
    (g0_shape s).

Definition set_v_iter (x : Z) (s : BCLPNorm) : BCLPNorm :=
  mk_BCLPNorm (target_geo s) (proj_geo s) (tomogram_scale s) (logs s)
    (response_model s) (eps s) (weight s) (p s) (q s) (learning_rate s)
    (optim_alg s) (glb s) (gub s) (bit_depth s) (dvol s) (verbose s)
    (dose s) (mapped_dose s) (mapped_dose_error_from_f_T s)
    (mapped_dose_error_from_band s) (v s) (dose_iter s) (mapped_dose_iter s)
    (mapped_dose_error_from_f_T_iter s) (mapped_dose_error_from_band_iter s)
    x (dp s) (P s) (g0 s) (g0_shape s).

Definition set_g0 (x : ndarray F) (s : BCLPNorm) : BCLPNorm :=
  mk_BCLPNorm (target_geo s) (proj_geo s) (tomogram_scale s) (logs s)
    (response_model s) (eps s) (weight s) (p s) (q s) (learning_rate s)
    (optim_alg s) (glb s) (gub s) (bit_depth s) (dvol s) (verbose s)
    (dose s) (mapped_dose s) (mapped_dose_error_from_f_T s)
    (mapped_dose_error_from_band s) (v s) (dose_iter s) (mapped_dose_iter s)
    (mapped_dose_error_from_f_T_iter s) (mapped_dose_error_from_band_iter s)
    (v_iter s) (dp s) (P s) x (g0_shape s).

(** *** Methods as computations over the object and the world *)

(** A call returns a value, the object and the world, or raises and leaves
    the world as it then is. *)
Inductive outcome (A : Type) :=
| Ok (a : A) (s : BCLPNorm) (w : World F)
| Raise (e : exn) (w : World F).
Arguments Ok {A}.
Arguments Raise {A}.

(** A method body: from the object and the world to an outcome. *)
Definition M (A : Type) := BCLPNorm -> World F -> outcome A.

Definition ret {A : Type} (a : A) : M A := fun s w => Ok a s w.

Definition bind {A B : Type} (c : M A) (k : A -> M B) : M B :=
  fun s w =>
    match c s w with
    | Ok a s' w' => k a s' w'
    | Raise e w' => Raise e w'
    end.

Notation "'let*' x ':=' c 'in' k" := (bind c (fun x => k))
  (at level 10, x name, c at level 100, k at level 200).

Definition raise {A : Type} (e : exn) : M A := fun _ w => Raise e w.

(** [self], and an assignment to it. *)
Definition get : M BCLPNorm := fun s w => Ok s s w.

Definition modify (f : BCLPNorm -> BCLPNorm) : M unit :=
  fun s w => Ok tt (f s) w.

(** One more event on the trace. *)
Definition emit (ev : event F) : M unit :=
  fun s w => Ok tt s (mk_World (ticks w) (ev :: trace w)).

(** One reading of the clock. *)
Definition now : M F :=
  fun s w => Ok (perf_counter (ticks w)) s (mk_World (S (ticks w)) (trace w)).

(** The result of a call that leaves the object and the world alone. *)
Definition lift {A : Type} (r : result A) : M A :=
  match r with
  | Success a => ret a
  | Failure e => raise e
  end.

(** Arithmetic on a state variable that is still [None]. *)
Definition need {A : Type} (o : option A) : M A :=
  match o with
  | Some a => ret a
  | None => raise TypeError
  end.

(** Access to an attribute that may not be set. *)
Definition attribute {A : Type} (o : option A) : M A :=
  match o with
  | Some a => ret a
  | None => raise AttributeError
  end.

Definition when (b : bool) (c : M unit) : M unit := if b then c else ret tt.

(** The argument [desired_shape]: 'flattened' (the default) or
    'cylindrical'. *)
Inductive desired_shape := Flattened | Cylindrical.

(** [BCLPNorm.checkSinogramShape]. *)
Definition checkSinogramShape (s : BCLPNorm) (g : ndarray F)
    (desired : desired_shape) : result (ndarray F) :=
  match desired with
  | Flattened =>
      if (1 <? length (shape g))%nat
      then np_reshape g [np_product (shape g)]
      else Success g
  | Cylindrical =>
      if (length (shape g) =? 1)%nat
      then np_reshape g (g0_shape s)
      else Success g
  end.

(** [BCLPNorm.imposeSinogramConstraints]. *)
Definition imposeSinogramConstraints (s : BCLPNorm) (g : ndarray F)
    : result (ndarray F) :=
  match bit_depth s with
  | Some b =>
      match np_amax g with
      | Success m => Success (np_clip (discretize g b (fzero, m)) (glb s) (gub s))
      | Failure e => Failure e
      end
  | None => Success (np_clip g (glb s) (gub s))
  end.

(** [BCLPNorm.updateVariables]. *)
Definition updateVariables (g_iter : ndarray F) : M unit :=
  let* s := get in
  let* _ := when (negb (dose_iter s =? curr_iter (logs s)))
    (let* g := lift (checkSinogramShape s g_iter Cylindrical) in
     let* _ := modify (set_dose (Some (List.map (fun x => fmul x (tomogram_scale s))
                                         (Projector.backward (P s) g)))) in
     modify (set_dose_iter (curr_iter (logs s)))) in
  let* s := get in
  let* _ := when (negb (mapped_dose_iter s =? curr_iter (logs s)))
    (let* d := need (dose s) in
     let* _ := modify (set_mapped_dose
                         (Some (ResponseModel.map (response_model s) d))) in
     modify (set_mapped_dose_iter (curr_iter (logs s)))) in
  let* s := get in
  let* _ := when (negb (mapped_dose_error_from_f_T_iter s =? curr_iter (logs s)))
    (let* m := need (mapped_dose s) in
     let* _ := modify (set_mapped_dose_error_from_f_T
                         (Some (zip_with fsub m (TargetGeometry.array (target_geo s))))) in
     modify (set_mapped_dose_error_from_f_T_iter (curr_iter (logs s)))) in
  let* s := get in
  let* _ := when (negb (mapped_dose_error_from_band_iter s =? curr_iter (logs s)))
    (let* e := need (mapped_dose_error_from_f_T s) in
     let* _ := modify (set_mapped_dose_error_from_band
                         (Some (List.map (fun x => fsub (fabs x) (eps s)) e))) in
     modify (set_mapped_dose_error_from_band_iter (curr_iter (logs s)))) in
  let* s := get in
  when (negb (v_iter s =? curr_iter (logs s)))
    (let* b := need (mapped_dose_error_from_band s) in
     let* _ := modify (set_v (Some (List.map (fun x => fltb fzero x) b))) in
     modify (set_v_iter (curr_iter (logs s)))).

(** The integrand [v * weight * band ** p] of the loss. *)
Definition loss_integrand (vs : list bool) (w : weight_t F) (band : vol F)
    (p_ : F) : vol F :=
  zip_with fmul (mul_weight (List.map bool_to_F vs) w)
           (List.map (fun x => fpow x p_) band).

(** The scalar loss of cached [v] and band error. *)
Definition loss_value (s : BCLPNorm) (vs : list bool) (band : vol F) : F :=
  fpow (fmul (np_sum (loss_integrand vs (weight s) band (p s))) (dvol s))
       (fdiv (q s) (p s)).

(** [BCLPNorm.computeLoss]. *)
Definition computeLoss (g_iter : ndarray F) : M F :=
  let* _ := updateVariables g_iter in
  let* s := get in
  let* vs := need (v s) in
  let* band := need (mapped_dose_error_from_band s) in
  let l := loss_value s vs band in
  let* ls := lift (py_setitem (loss (logs s)) (curr_iter (logs s)) l) in
  let* _ := emit (EvLossWrite (curr_iter (logs s)) l) in
  let* _ := modify (set_logs (set_loss ls (logs s))) in
  ret l.

(** The per-voxel operand of the gradient. *)
Definition gradient_operand (s : BCLPNorm) (vs : list bool) (band err d : vol F)
    : vol F :=
  zip_with fmul
    (zip_with fmul
       (zip_with fmul (mul_weight (List.map bool_to_F vs) (weight s))
                 (List.map (fun x => fpow x (fsub (p s) fone)) band))
       (List.map fsign err))
    (ResponseModel.dmapdf (response_model s) d).

(** The factor [q * previous_loss ** ((q - p) / q)]. *)
Definition gradient_scale (s : BCLPNorm) (previous_loss : F) : F :=
  fmul (q s) (fpow previous_loss (fdiv (fsub (q s) (p s)) (q s))).

(** [BCLPNorm.computeLossGradient]. *)
Definition computeLossGradient (g_iter : ndarray F) : M (ndarray F) :=
  let* _ := updateVariables g_iter in
  let* s := get in
  let* vs := need (v s) in
  let* band := need (mapped_dose_error_from_band s) in
  let* err := need (mapped_dose_error_from_f_T s) in
  let* d := need (dose s) in
  let operand := gradient_operand s vs band err d in
  let* previous_loss := lift (py_getitem (loss (logs s)) (curr_iter (logs s) - 1)) in
  let* _ := emit (EvLossRead (curr_iter (logs s) - 1) previous_loss) in
  let loss_grad := nd_map (fmul (gradient_scale s previous_loss))
                          (Projector.forward (P s) operand) in
  lift (checkSinogramShape s loss_grad Flattened).

(** [BCLPNorm.callback]. *)
Definition callback (g_iter : ndarray F) : M unit :=
  let* t := now in
  let* s := get in
  let* l := lift (recordIterTime t (logs s)) in
  let* _ := modify (set_logs l) in
  let* s := get in
  let* _ := when (verbose_eqb (verbose s) Time || verbose_eqb (verbose s) Plot)
    (let* t_iter := lift (py_getitem (iter_times (logs s)) (curr_iter (logs s))) in
     emit (EvPrint (curr_iter (logs s)) t_iter)) in
  let* _ := attribute (dp s) in
  let* _ := emit (EvPlotUpdate (loss (logs s)) (dose s) (mapped_dose s)) in
  modify (fun s => set_logs (set_curr_iter (curr_iter (logs s) + 1) (logs s)) s).

(** The body of the loop of [gradientDescent], [n] times. *)
Fixpoint descend (n : nat) (g_iter : ndarray F) : M (ndarray F) :=
  match n with
  | O => ret g_iter
  | S n' =>
      let* grad := computeLossGradient g_iter in
      let* s := get in
      let g1 := nd_zip fsub g_iter (nd_map (fmul (learning_rate s)) grad) in
      let* g2 := lift (imposeSinogramConstraints s g1) in
      let* _ := computeLoss g2 in
      let* _ := callback g2 in
      descend n' g2
  end.

(** [BCLPNorm.gradientDescent]. *)
Definition gradientDescent : M (ndarray F) :=
  let* s := get in
  let* g_iter := lift (checkSinogramShape s (g0 s) Flattened) in
  descend (Options.n_iter (options (logs s))) g_iter.

(** The object as [__init__] has it once [self.g0] and [self.g0_shape] are
    first assigned (lines 48 to 103). *)
Definition BCLPNorm_attributes (target_geo_ : TargetGeometry.t F)
    (proj_geo_ : ProjectionGeometry.t) (opts : Options.t F)
    (t_start : F) : BCLPNorm :=
  let P_ := projectorconstructor target_geo_ proj_geo_ in
  let g := Projector.forward P_
             (ResponseModel.map_inv (Options.response_model opts)
                (TargetGeometry.array target_geo_)) in
  {| target_geo := target_geo_;
     proj_geo := proj_geo_;
     tomogram_scale := fdiv fone (of_nat (ProjectionGeometry.n_angles proj_geo_));
     logs := startTiming t_start (LogPerf_init opts);
     response_model := Options.response_model opts;
     eps := Options.eps opts;
     weight := Options.weight opts;
     p := Options.p opts;
     q := Options.q opts;
     learning_rate := Options.learning_rate opts;
     optim_alg := Options.optim_alg opts;
     glb := Options.blb opts;
     gub := Options.bub opts;
     bit_depth := Options.bit_depth opts;
     dvol := fone;
     verbose := Options.verbose opts;
     dose := None;
     mapped_dose := None;
     mapped_dose_error_from_f_T := None;
     mapped_dose_error_from_band := None;
     v := None;
     dose_iter := -1;
     mapped_dose_iter := -1;
     mapped_dose_error_from_f_T_iter := -1;
     mapped_dose_error_from_band_iter := -1;
     v_iter := -1;
     dp := if verbose_eqb (Options.verbose opts) Plot
           then Some (mk_EvolvingPlot (Options.n_iter (options (LogPerf_init opts)) + 1))
           else None;
     P := P_;
     g0 := g;
     g0_shape := shape g |}.

(** The rest of [__init__] (lines 104 to 109). *)
Definition BCLPNorm_evaluate_initialization (opts : Options.t F) : M unit :=
  let* s := get in
  let* _ := modify (set_g0 (filterSinogram (g0 s) (Options.filter opts))) in
  let* s := get in
  let* g := lift (imposeSinogramConstraints s (g0 s)) in
  let* _ := modify (set_g0 g) in
  let* s := get in
  let* _ := computeLoss (g0 s) in
  let* s := get in
  callback (g0 s).

(** [BCLPNorm.__init__]: the result is the constructed object. *)
Definition BCLPNorm_init (target_geo_ : TargetGeometry.t F)
    (proj_geo_ : ProjectionGeometry.t) (opts : Options.t F)
    (w : World F) : outcome unit :=
  match ProjectionGeometry.n_angles proj_geo_ with
  | O => Raise ZeroDivisionError w
  | S _ =>
      let t_start := perf_counter (ticks w) in
      let w1 := mk_World (S (ticks w)) (trace w) in
      let w2 := if verbose_eqb (Options.verbose opts) Plot
                then mk_World (ticks w1)
                       (EvPlotCreate (Options.n_iter opts + 1) :: trace w1)
                else w1 in
      let w3 := if ResponseModel.checkResponseTarget (Options.response_model opts)
                     (TargetGeometry.array target_geo_)
                then w2
                else mk_World (ticks w2) (EvWarn :: trace w2) in
      BCLPNorm_evaluate_initialization opts
        (BCLPNorm_attributes target_geo_ proj_geo_ opts t_start) w3
  end.

(** What [minimizeBCLP] returns: the array inside the [Sinogram], the array
    inside the [Reconstruction], and the log. *)
Record Returned := mk_Returned {
  sinogram : ndarray F;
  reconstruction : option (vol F);
  performance : LogPerf
}.

(** [minimizeBCLP]. *)
Definition minimizeBCLP (target_geo_ : TargetGeometry.t F)
    (proj_geo_ : ProjectionGeometry.t) (opts : Options.t F)
    (w : World F) : outcome Returned :=
  match BCLPNorm_init target_geo_ proj_geo_ opts w with
  | Raise e w' => Raise e w'
  | Ok _ bclp w' =>
      (let* g_opt := gradientDescent in
       let* s := get in
       let* g_opt := lift (checkSinogramShape s g_opt Flattened) in
       let* _ := when (verbose_eqb (verbose s) Plot)
                   (let* _ := attribute (dp s) in emit EvPlotIoff) in
       let* s := get in
       ret (mk_Returned g_opt (dose s) (logs s))) bclp w'
  end.

(** *** The chain of derived quantities, as functions of the sinogram *)

(** The dose of a (cylindrical) sinogram: its back-projection scaled by
    [tomogram_scale]. *)
Definition dose_of (s : BCLPNorm) (g : ndarray F) : vol F :=
  List.map (fun x => fmul x (tomogram_scale s)) (Projector.backward (P s) g).

(** The mapped dose, the error from the target, the error from the band and
    the violation indicator of a dose. *)
Definition mapped_of (s : BCLPNorm) (d : vol F) : vol F :=
  ResponseModel.map (response_model s) d.

Definition error_from_target_of (s : BCLPNorm) (d : vol F) : vol F :=
  zip_with fsub (mapped_of s d) (TargetGeometry.array (target_geo s)).

Definition error_from_band_of (s : BCLPNorm) (d : vol F) : vol F :=
  List.map (fun x => fsub (fabs x) (eps s)) (error_from_target_of s d).

Definition violation_of (s : BCLPNorm) (d : vol F) : list bool :=
  List.map (fun x => fltb fzero x) (error_from_band_of s d).

(** The loss of a sinogram: the chain derived from it, then the loss. *)
Definition loss_of_sinogram (s : BCLPNorm) (g : ndarray F) : result F :=
  match checkSinogramShape s g Cylindrical with
  | Success g' =>
      let d := dose_of s g' in
      Success (loss_value s (violation_of s d) (error_from_band_of s d))
  | Failure e => Failure e
  end.

(** The five state variables hold the chain derived from the dose [d]. *)
Definition cached (s : BCLPNorm) (d : vol F) : Prop :=
  dose s = Some d /\
  mapped_dose s = Some (mapped_of s d) /\
  mapped_dose_error_from_f_T s = Some (error_from_target_of s d) /\
  mapped_dose_error_from_band s = Some (error_from_band_of s d) /\
  v s = Some (violation_of s d).

(** The five stamps move together. *)
Definition stamps_agree (s : BCLPNorm) : Prop :=
  mapped_dose_iter s = dose_iter s /\
  mapped_dose_error_from_f_T_iter s = dose_iter s /\
  mapped_dose_error_from_band_iter s = dose_iter s /\
  v_iter s = dose_iter s.

(** The cache is coherent: the stamps agree and, when they carry the current
    iteration, the variables hold the chain of one dose. *)
Definition cache_inv (s : BCLPNorm) : Prop :=
  stamps_agree s /\
  (dose_iter s = curr_iter (logs s) -> exists d, cached s d).

(** The object after all five variables are recomputed from the dose [d]. *)
Definition refresh (s : BCLPNorm) (d : vol F) : BCLPNorm :=
  let k := curr_iter (logs s) in
  set_v_iter k
    (set_v (Some (violation_of s d))
       (set_mapped_dose_error_from_band_iter k
          (set_mapped_dose_error_from_band (Some (error_from_band_of s d))
             (set_mapped_dose_error_from_f_T_iter k
                (set_mapped_dose_error_from_f_T (Some (error_from_target_of s d))
                   (set_mapped_dose_iter k
                      (set_mapped_dose (Some (mapped_of s d))
                         (set_dose_iter k (set_dose (Some d) s))))))))).

(** *** Auxiliary definitions of the statements *)

(** What [updateVariables] leaves in the object: the object itself when the
    stamps carry the current iteration, the chain of the sinogram passed
    otherwise. *)
Definition refreshed (s : BCLPNorm) (g : ndarray F) : result BCLPNorm :=
  if dose_iter s =? curr_iter (logs s) then Success s
  else match checkSinogramShape s g Cylindrical with
       | Success g' => Success (refresh s (dose_of s g'))
       | Failure e => Failure e
       end.

(** The object after [logs.loss] is replaced. *)
Definition with_loss (ls : list F) (s : BCLPNorm) : BCLPNorm :=
  set_logs (set_loss ls (logs s)) s.

(** The world after one more event. *)
Definition logged (ev : event F) (w : World F) : World F :=
  mk_World (ticks w) (ev :: trace w).

(** The gradient of the cached chain of dose [d], before it is flattened. *)
Definition gradient_of (s : BCLPNorm) (d : vol F) (previous_loss : F) : ndarray F :=
  nd_map (fmul (gradient_scale s previous_loss))
    (Projector.forward (P s)
       (gradient_operand s (violation_of s d) (error_from_band_of s d)
          (error_from_target_of s d) d)).

(** The world after one reading of the clock. *)
Definition ticked (w : World F) : World F := mk_World (S (ticks w)) (trace w).

(** The progress line of [callback]: printed in the modes 'time' and 'plot'. *)
Definition progress_line (s : BCLPNorm) (l : LogPerf) (w : World F)
    : result (World F) :=
  if verbose_eqb (verbose s) Time || verbose_eqb (verbose s) Plot
  then match py_getitem (iter_times l) (curr_iter l) with
       | Success t_iter => Success (logged (EvPrint (curr_iter l) t_iter) w)
       | Failure e => Failure e
       end
  else Success w.

(** On a trace, newest event first: a read of slot [i] has [0 <= i] and
    follows a write of the same value into the same slot. *)
Fixpoint reads_populated (tr : list (event F)) : Prop :=
  match tr with
  | [] => True
  | EvLossRead i x :: earlier =>
      0 <= i /\ In (EvLossWrite i x) earlier /\ reads_populated earlier
  | _ :: earlier => reads_populated earlier
  end.

(** The state between two iterations of the loop: the cache holds the chain
    computed in the iteration before, and the slot before the current index
    holds a loss that [computeLoss] stored. *)
Definition between_iterations (s : BCLPNorm) (w : World F) : Prop :=
  stamps_agree s /\
  (exists d, cached s d) /\
  1 <= curr_iter (logs s) /\
  dose_iter s = curr_iter (logs s) - 1 /\
  (exists x, py_getitem (loss (logs s)) (curr_iter (logs s) - 1) = Success x /\
             In (EvLossWrite (curr_iter (logs s) - 1) x) (trace w)) /\
  reads_populated (trace w).



(** A numpy array has as many elements as its shape says. *)
Definition wf_ndarray (g : ndarray F) : Prop :=
  length (data g) = np_product (shape g).

(** No weight is below 0. *)
Definition weight_nonneg (wt : weight_t F) : Prop :=
  match wt with
  | WScalar c => fleb fzero c = true
  | WArray ws => Forall (fun c => fleb fzero c = true) ws
  end.

(** The elements of the native shape [sh], under that shape or flattened. *)
Definition flat_or_native (sh : list nat) (g : ndarray F) : Prop :=
  length (data g) = np_product sh /\
  (shape g = sh \/ shape g = [np_product sh]).

(** The projector of the object returns well-formed arrays of the shape
    recorded at construction. *)
Definition projector_contract (sh : list nat) (s : BCLPNorm) : Prop :=
  g0_shape s = sh /\
  forall x, shape (Projector.forward (P s) x) = sh /\
            wf_ndarray (Projector.forward (P s) x).

(** The number of reads of the loss on a trace: one per gradient step. *)
Definition gradient_steps (tr : list (event F)) : nat :=
  length (List.filter (fun ev => match ev with
                                 | EvLossRead _ _ => true
                                 | _ => false
                                 end) tr).

(** The object between two iterations of a run in mode 'plot', at the
    iteration index [k] of a budget of [n] iterations. *)
Definition plotting (n : nat) (sh : list nat) (k : nat) (s : BCLPNorm) : Prop :=
  stamps_agree s /\
  dose_iter s = curr_iter (logs s) - 1 /\
  curr_iter (logs s) = Z.of_nat k /\
  length (loss (logs s)) = (n + 1)%nat /\
  length (iter_times (logs s)) = (n + 1)%nat /\
  Options.n_iter (options (logs s)) = n /\
  verbose s = Plot /\
  (exists h, dp s = Some h) /\
  projector_contract sh s /\
  (bit_depth s <> None -> np_product sh <> 0%nat).

(** The contract of the collaborators on shapes: the projector returns
    well-formed arrays of the shape [sh], and the filter keeps the shape
    and the number of elements. *)
Definition shape_contract (target_geo_ : TargetGeometry.t F)
    (proj_geo_ : ProjectionGeometry.t) (sh : list nat) : Prop :=
  (forall x,
     shape (Projector.forward (projectorconstructor target_geo_ proj_geo_) x) = sh /\
     wf_ndarray (Projector.forward (projectorconstructor target_geo_ proj_geo_) x)) /\
  (forall g f,
     shape (filterSinogram g f) = shape g /\
     length (data (filterSinogram g f)) = length (data g)).

(** *** Auxiliary definitions of the further statements *)

(** The dose and the loss of the sinogram [g] an iteration starts from,
    seen under the native shape [sh]. *)
Definition input_dose (sh : list nat) (s : BCLPNorm) (g : ndarray F) : vol F :=
  dose_of s (mk_ndarray sh (data g)).

Definition input_loss (sh : list nat) (s : BCLPNorm) (g : ndarray F) : F :=
  let d := input_dose sh s g in
  loss_value s (violation_of s d) (error_from_band_of s d).

(** The object after [computeLoss] stored the loss [l] and [callback]
    recorded the reading [t] of the clock and advanced the index. *)
Definition evaluated (s : BCLPNorm) (l t : F) : BCLPNorm :=
  let k := Z.to_nat (curr_iter (logs s)) in
  set_logs
    (set_curr_iter (curr_iter (logs s) + 1)
       (set_iter_times (<[k := fsub t (t0 (logs s))]> (iter_times (logs s)))
          (set_loss (<[k := l]> (loss (logs s))) (logs s))))
    s.

(** The world after the same two calls in mode 'plot': the write of the
    loss, one reading of the clock, the progress line and the plot update. *)
Definition evaluated_world (s : BCLPNorm) (l : F) (w : World F) : World F :=
  let k := Z.to_nat (curr_iter (logs s)) in
  mk_World (S (ticks w))
    (EvPlotUpdate (<[k := l]> (loss (logs s))) (dose s) (mapped_dose s)
     :: EvPrint (curr_iter (logs s)) (fsub (perf_counter (ticks w)) (t0 (logs s)))
     :: EvLossWrite (curr_iter (logs s)) l
     :: trace w).

(** The world after the same two calls without a plot, up to the exception:
    the write of the loss, one reading of the clock and, in mode 'time', the
    progress line. *)
Definition unplotted_world (s : BCLPNorm) (l : F) (w : World F) : World F :=
  mk_World (S (ticks w))
    ((if verbose_eqb (verbose s) Time
      then [EvPrint (curr_iter (logs s))
              (fsub (perf_counter (ticks w)) (t0 (logs s)))]
      else [])
     ++ EvLossWrite (curr_iter (logs s)) l :: trace w).

(** The attributes that no method assigns after construction. *)
Definition same_setup (s s' : BCLPNorm) : Prop :=
  target_geo s' = target_geo s /\
  tomogram_scale s' = tomogram_scale s /\
  response_model s' = response_model s /\
  eps s' = eps s /\
  weight s' = weight s /\
  p s' = p s /\
  q s' = q s /\
  learning_rate s' = learning_rate s /\
  glb s' = glb s /\
  gub s' = gub s /\
  bit_depth s' = bit_depth s /\
  dvol s' = dvol s /\
  verbose s' = verbose s /\
  dp s' = dp s /\
  P s' = P s /\
  g0 s' = g0 s /\
  g0_shape s' = g0_shape s.

(** The kinds of events, and the number of events of one kind on a trace. *)
Inductive event_kind :=
| KWarn
| KPlotCreate
| KPrint
| KPlotUpdate
| KPlotIoff
| KLossWrite
| KLossRead.

Definition kind_of (ev : event F) : event_kind :=
  match ev with
  | EvWarn => KWarn
  | EvPlotCreate _ => KPlotCreate
  | EvPrint _ _ => KPrint
  | EvPlotUpdate _ _ _ => KPlotUpdate
  | EvPlotIoff => KPlotIoff
  | EvLossWrite _ _ => KLossWrite
  | EvLossRead _ _ => KLossRead
  end.

Definition kind_eqb (a b : event_kind) : bool :=
  match a, b with
  | KWarn, KWarn | KPlotCreate, KPlotCreate | KPrint, KPrint
  | KPlotUpdate, KPlotUpdate | KPlotIoff, KPlotIoff
  | KLossWrite, KLossWrite | KLossRead, KLossRead => true
  | _, _ => false
  end.

Definition count_kind (k : event_kind) (tr : list (event F)) : nat :=
  length (List.filter (fun ev => kind_eqb (kind_of ev) k) tr).

(** The events one iteration of the loop adds in mode 'plot': one of each of
    read, write, progress line and plot update. *)
Definition per_iteration (k : event_kind) : nat :=
  match k with
  | KPrint | KPlotUpdate | KLossWrite | KLossRead => 1%nat
  | _ => 0%nat
  end.

(** The events [computeLoss] and [callback] add in mode 'plot'. *)
Definition per_evaluation (k : event_kind) : nat :=
  match k with
  | KPrint | KPlotUpdate | KLossWrite => 1%nat
  | _ => 0%nat
  end.

(** The events of the construction besides those of [computeLoss] and
    [callback]: the creation of the plot and, when the response model does
    not accept the target, the warning. *)
Definition per_construction (warned : bool) (k : event_kind) : nat :=
  match k with
  | KPlotCreate => 1%nat
  | KWarn => if warned then 1%nat else 0%nat
  | _ => 0%nat
  end.

(** The events of a whole run of [n] iterations in mode 'plot'. *)
Definition per_run (n : nat) (warned : bool) (k : event_kind) : nat :=
  match k with
  | KWarn => if warned then 1%nat else 0%nat
  | KPlotCreate | KPlotIoff => 1%nat
  | KPrint | KPlotUpdate | KLossWrite => (n + 1)%nat
  | KLossRead => n
  end.

(** One gradient step from the sinogram [g], as the body of the loop
    computes it when the cache holds the chain of [g] and the previous loss
    is [x]. *)
Definition step (sh : list nat) (s : BCLPNorm) (x : F) (g : ndarray F)
    : result (ndarray F) :=
  match checkSinogramShape s (gradient_of s (input_dose sh s g) x) Flattened with
  | Success gr =>
      imposeSinogramConstraints s
        (nd_zip fsub g (nd_map (fmul (learning_rate s)) gr))
  | Failure e => Failure e
  end.

(** Gradient descent as the loop performs it: [m] steps from the sinogram
    [g], each step taken with the loss that was stored just before it, which
    is [x] for the first step and the loss of the sinogram that the step
    before started from for the others. [inputs] lists the sinograms the
    steps start from, [iterate] is the sinogram after the last step. *)
Fixpoint inputs (sh : list nat) (s : BCLPNorm) (m : nat) (x : F)
    (g : ndarray F) : list (ndarray F) :=
  match m with
  | O => []
  | S m' =>
      g :: match step sh s x g with
           | Success g2 => inputs sh s m' (input_loss sh s g) g2
           | Failure _ => []
           end
  end.

Fixpoint iterate (sh : list nat) (s : BCLPNorm) (m : nat) (x : F)
    (g : ndarray F) : result (ndarray F) :=
  match m with
  | O => Success g
  | S m' =>
      match step sh s x g with
      | Success g2 => iterate sh s m' (input_loss sh s g) g2
      | Failure e => Failure e
      end
  end.

(** The arrays of the log for the norms of the error and for the
    convergence error. *)
Definition norm_arrays (l : LogPerf) : list (list F) :=
  [l0_v l; l1_v l; l2_v l; lf_v l; l0_all l; l1_all l; l2_all l; lf_all l;
   ver l].

(** The shape of the flattened form of an array of shape [sh]. *)
Definition flat_shape (sh : list nat) : list nat :=
  if (1 <? length sh)%nat then [np_product sh] else sh.

End Model.

Notation "'let*' x ':=' c 'in' k" := (bind c (fun x => k))
  (at level 10, x name, c at level 100, k at level 200).

Arguments Ok {F A}.
Arguments Raise {F A}.
Arguments mk_LogPerf {F}.
Arguments mk_Returned {F}.

(** What a run returned, and the object and the trace it ended with. *)
Definition returned {F A : Type} (o : outcome (F := F) A) : option A :=
  match o with
  | Ok a _ _ => Some a
  | Raise _ _ => None
  end.

Definition raised {F A : Type} (o : outcome (F := F) A) : option exn :=
  match o with
  | Ok _ _ _ => None
  | Raise e _ => Some e
  end.

Definition final_world {F A : Type} (o : outcome (F := F) A) : World F :=
  match o with
  | Ok _ _ w => w
  | Raise _ w => w
  end.

Definition final_object {F A : Type} (o : outcome (F := F) A)
    (otherwise : BCLPNorm (F := F)) : BCLPNorm :=
  match o with
  | Ok _ s _ => s
  | Raise _ _ => otherwise
  end.

(** ** A run on binary64: two voxels seen through one ray *)

Module Ray.

Local Open Scope float_scope.

(** The projector sums the two voxels into the one element of a 1 x 1
    sinogram and smears that element back over both voxels. *)
Definition projector : Projector.t float :=
  Projector.mk
    (fun xs => mk_ndarray [1%nat; 1%nat] [np_sum xs])
    (fun g => let x := np_sum (data g) in [x; x]).

(** No filter, and a clock that advances by one second per reading. *)
Definition toolbox : Collaborators float := {|
  projectorconstructor := fun _ _ => projector;
  filterSinogram := fun g _ => g;
  perf_counter := float_of_nat
|}.

(** The identity response. *)
Definition response : ResponseModel.t float :=
  ResponseModel.mk (fun d => d) (fun d => d)
    (List.map (fun _ => 1)) (fun _ => true).

Definition target : TargetGeometry.t float := TargetGeometry.mk [1; 0].

Definition geometry : ProjectionGeometry.t := ProjectionGeometry.mk 1.

(** p = q = 2, eps = 0, unit weight, learning rate 0.25, bounds [0, 2], no
    bit depth, no filter. *)
Definition opts (vb : verbose_t) (n : nat) : Options.t float :=
  Options.mk n response 0 (WScalar 1) 2 2 0.25 GradientDescent 0 2 None
    NoFilter vb.

(** The same with weight -1 and p = q = 1. *)
Definition opts_negative_weight : Options.t float :=
  Options.mk 1 response 0 (WScalar (-1)) 1 1 0.25 GradientDescent 0 2 None
    NoFilter Plot.

(** The same with p = q = 0.5 and eps = 0.25. *)
Definition opts_fractional : Options.t float :=
  Options.mk 1 response 0.25 (WScalar 1) 0.5 0.5 0.25 GradientDescent 0 2 None
    NoFilter Plot.


Definition start : World float := mk_World 0 [].

Definition run (vb : verbose_t) (n : nat) : outcome Returned :=
  minimizeBCLP (CF := toolbox) target geometry (opts vb n) start.

(** The object as [__init__] leaves it. *)
Definition constructed (vb : verbose_t) (n : nat) : BCLPNorm :=
  final_object
    (BCLPNorm_init (CF := toolbox) target geometry (opts vb n) start)
    (BCLPNorm_attributes (CF := toolbox) target geometry (opts vb n) 0).

End Ray.

(** ** A state over exact integers *)

Module Exact.

Definition projector : Projector.t Z :=
  Projector.mk
    (fun xs => mk_ndarray [1%nat; 1%nat] [np_sum xs])
    (fun g => let x := np_sum (data g) in [x; x]).

Definition response : ResponseModel.t Z :=
  ResponseModel.mk (fun d => d) (fun d => d)
    (List.map (fun _ => 1)) (fun _ => true).

Definition opts : Options.t Z :=
  Options.mk 1 response 0 (WScalar 1) 2 2 1 GradientDescent 0 5 (Some 2%nat)
    NoFilter Plot.

(** A log of two slots, none written yet. *)
Definition log : LogPerf :=
  mk_LogPerf opts 0 [0; 0] [0; 0] [0; 0] [0; 0] [0; 0] [0; 0] [0; 0] [0; 0]
    [0; 0] [0; 0] [0; 0] 0.

(** An object with nothing cached, bit depth 2 and bounds [0, 5]. *)
Definition object : BCLPNorm :=
  mk_BCLPNorm (TargetGeometry.mk [1; 0]) (ProjectionGeometry.mk 1) 1 log
    response 0 (WScalar 1) 2 2 1 GradientDescent 0 5 (Some 2%nat) 1 Plot
    None None None None None (-1) (-1) (-1) (-1) (-1)
    (Some (mk_EvolvingPlot 2)) projector (mk_ndarray [1%nat; 1%nat] [1])
    [1%nat; 1%nat].

End Exact.

(** ** vamtoolbox.display *)

Module Display.

Import Stdlib.Strings.String.
Local Open Scope string_scope.
Local Open Scope Z_scope.

(** What a call can raise: the exceptions above, and UnboundLocalError for
    a local name that no branch has bound. *)
Inductive error :=
| UnboundLocalError
| Builtin (e : exn).

Inductive outcome (A : Type) :=
| Returns (a : A)
| Raises (e : error).
Arguments Returns {A}.
Arguments Raises {A}.

(** *** CursorFormatter *)

(** One pixel of an RGBA image: [val[0]] to [val[3]]. *)
Record rgba := mk_rgba {
  c0 : float;
  c1 : float;
  c2 : float;
  c3 : float
}.

(** The text under the cursor, 'x=%d, y=%d, body=%s' or 'z=%d, y=%d,
    body=%s', as its two labels, the two integers and the body. *)
Record cursor := mk_cursor {
  first_label : string;
  first_value : Z;
  second_label : string;
  second_value : Z;
  body : string
}.

(** [CursorFormatter.cursorString]. *)
Definition cursorString (slice_index : option Z) (x y : Z) (body_str : string)
    : outcome cursor :=
  match slice_index with
  | Some i =>
      if i =? 2 then Returns (mk_cursor "x" y "y" x body_str)
      else if i =? 1 then Returns (mk_cursor "z" y "y" x body_str)
      else Raises UnboundLocalError
  | None => Returns (mk_cursor "x" y "y" x body_str)
  end.

(** The body under a pixel (lines 40 to 51 of [CursorFormatter.__call__]):
    [np.all(val[0:2] == val[0])] compares the first two channels with the
    first. *)
Definition body_of (val : rgba) : outcome string :=
  if PrimFloat.eqb (c0 val) (c0 val) && PrimFloat.eqb (c1 val) (c0 val)
  then if PrimFloat.eqb (c0 val) 0%float
       then Returns "void"
       else Returns "target"
  else if PrimFloat.eqb (c0 val) 1%float then Returns "insert"
  else if PrimFloat.eqb (c1 val) 1%float then Returns "zero dose"
  else Raises UnboundLocalError.

(** [a[y, x]] on an image of rows of pixels. *)
Definition pixel (im : list (list rgba)) (y x : Z) : option rgba :=
  match py_index (List.length im) y with
  | Some r =>
      match im !! r with
      | Some row =>
          match py_index (List.length row) x with
          | Some c => row !! c
          | None => None
          end
      | None => None
      end
  | None => None
  end.

(** [CursorFormatter.__call__], given the truncation [int] of a finite
    float. *)
Definition CursorFormatter_call (int : float -> Z) (im : list (list rgba))
    (slice_index : option Z) (x y : float) : outcome cursor :=
  let x := int (x + 0.5)%float in
  let y := int (y + 0.5)%float in
  match pixel im y x with
  | None => Raises (Builtin IndexError)
  | Some val =>
      match body_of val with
      | Returns body_str => cursorString slice_index x y body_str
      | Raises e => Raises e
      end
  end.

(** *** The colours of the bodies *)

(** The array passed to a plot: a plain [np.ndarray], or a
    [TargetGeometry] with its array and its optional masks [insert] and
    [zero_dose]; the voxels are listed in the order of the array. *)
Inductive volume :=
| NdArray (array : list float)
| Geometry (array : list float) (insert zero_dose : option (list bool)).

Definition color_insert : rgba := mk_rgba 1 0 0 1.

Definition color_zero_dose : rgba := mk_rgba 0 1 0 1.

(** [array[mask, :] = color]: the mask has the shape of the voxels. *)
Definition paint_where (mask : list bool) (color : rgba) (array : list rgba)
    : outcome (list rgba) :=
  if (List.length mask =? List.length array)%nat
  then Returns (zip_with (fun (m : bool) px => if m then color else px) mask array)
  else Raises (Builtin IndexError).

(** The RGBA array of [BodiesIndexTracker.__init__] (lines 138 to 152; the
    same lines are in [SlicePlot.__init__] under [show_bodies]), given the
    rounding [float32] of [astype(np.float32)]. [np.min] raises on an array
    without elements, and a plain array has no attribute [insert]. *)
Definition bodies_array (float32 : float -> float) (array : volume)
    : outcome (list rgba) :=
  match array with
  | NdArray [] | Geometry [] _ _ => Raises (Builtin ValueError)
  | NdArray _ => Raises (Builtin AttributeError)
  | Geometry a insert zero_dose =>
      let stacked :=
        List.map (fun v => mk_rgba (float32 v) (float32 v) (float32 v) 1) a in
      match
        match insert with
        | Some m => paint_where m color_insert stacked
        | None => Returns stacked
        end
      with
      | Raises e => Raises e
      | Returns painted =>
          match zero_dose with
          | Some m => paint_where m color_zero_dose painted
          | None => Returns painted
          end
      end
  end.

(** The body that the masks give a voxel: the zero-dose mask is painted
    last. *)
Definition masked (mask : option (list bool)) (i : nat) : bool :=
  match mask with
  | Some m => default false (m !! i)
  | None => false
  end.

(** *** IndexTracker and BodiesIndexTracker *)

(** The data of the image: the slice [k] of the array along one axis. *)
Inductive slice := Slice (axis : nat) (k : nat).

(** The title of the axes: its symbol and the index it shows. *)
Inductive title := Title (symbol : string) (i : Z).

(** The attributes of a tracker that scrolling reads and writes; [ax]
    names the axes, [im] holds the data of the image. *)
Record IndexTracker := mk_IndexTracker {
  vol_type : string;
  slice_index : Z;
  ax : nat;
  slice_step : Z;
  n0 : nat;
  n1 : nat;
  n2 : nat;
  ind : Z;
  im : slice;
  ax_title : option title
}.

Definition set_ind (x : Z) (t : IndexTracker) : IndexTracker :=
  mk_IndexTracker (vol_type t) (slice_index t) (ax t) (slice_step t)
    (n0 t) (n1 t) (n2 t) x (im t) (ax_title t).

Definition set_im (x : slice) (t : IndexTracker) : IndexTracker :=
  mk_IndexTracker (vol_type t) (slice_index t) (ax t) (slice_step t)
    (n0 t) (n1 t) (n2 t) (ind t) x (ax_title t).

Definition set_ax_title (x : option title) (t : IndexTracker) : IndexTracker :=
  mk_IndexTracker (vol_type t) (slice_index t) (ax t) (slice_step t)
    (n0 t) (n1 t) (n2 t) (ind t) (im t) x.

(** A scroll event: the axes under the mouse, if any, and the button. *)
Record ScrollEvent := mk_ScrollEvent {
  inaxes : option nat;
  button : string
}.

(** [self.array[self.ind, :, :]] and the like: the slice [i] of an axis of
    length [n]. *)
Definition take_slice (axis n : nat) (i : Z) : outcome slice :=
  match py_index n i with
  | Some k => Returns (Slice axis k)
  | None => Raises (Builtin IndexError)
  end.

(** [IndexTracker.update] and [BodiesIndexTracker.update]. *)
Definition update (t : IndexTracker) : outcome IndexTracker :=
  match
    if slice_index t =? 0 then
      match take_slice 0 (n0 t) (ind t) with
      | Returns s => Returns (set_im s t)
      | Raises e => Raises e
      end
    else if slice_index t =? 1 then
      match take_slice 1 (n1 t) (ind t) with
      | Returns s => Returns (set_im s t)
      | Raises e => Raises e
      end
    else if slice_index t =? 2 then
      match take_slice 2 (n2 t) (ind t) with
      | Returns s => Returns (set_im s t)
      | Raises e => Raises e
      end
    else Returns t
  with
  | Raises e => Raises e
  | Returns t =>
      if (slice_index t =? 1)
         && (String.eqb (vol_type t) "recon" || String.eqb (vol_type t) "target")
      then Returns (set_ax_title (Some (Title "X" (ind t))) t)
      else if (slice_index t =? 1) && String.eqb (vol_type t) "sino"
      then Returns (set_ax_title (Some (Title "Angle" (ind t))) t)
      else if slice_index t =? 2
      then Returns (set_ax_title (Some (Title "Z" (ind t))) t)
      else Returns t
  end.

(** [num_slices] in [onscroll]: bound for the slice indices 0, 1 and 2
    only. *)
Definition num_slices (t : IndexTracker) : option nat :=
  if slice_index t =? 0 then Some (n0 t)
  else if slice_index t =? 1 then Some (n1 t)
  else if slice_index t =? 2 then Some (n2 t)
  else None.

(** [IndexTracker.onscroll] and [BodiesIndexTracker.onscroll]. *)
Definition onscroll (t : IndexTracker) (event : ScrollEvent)
    : outcome IndexTracker :=
  match inaxes event with
  | Some a =>
      if (a =? ax t)%nat then
        match num_slices t with
        | None => Raises UnboundLocalError
        | Some O => Raises (Builtin ZeroDivisionError)
        | Some n =>
            if String.eqb (button event) "up"
            then update (set_ind ((ind t + slice_step t) mod Z.of_nat n) t)
            else update (set_ind ((ind t - slice_step t) mod Z.of_nat n) t)
        end
      else Returns t
  | None => Returns t
  end.

(** The events of a session, one after the other. *)
Fixpoint scroll (t : IndexTracker) (events : list ScrollEvent)
    : outcome IndexTracker :=
  match events with
  | [] => Returns t
  | event :: events' =>
      match onscroll t event with
      | Returns t' => scroll t' events'
      | Raises e => Raises e
      end
  end.

(** [IndexTracker.__init__] on an array of three axes of the lengths
    [shape], with axes and a figure passed: [np.min] raises on an array
    without elements; then the axis swap, the lengths, the first index, the
    first image and [update]. Without a branch for the slice index,
    [self.im] is not set when the colour bar asks for it. *)
Definition IndexTracker_init (shape : nat * nat * nat) (vol_type_ : string)
    (slice_index_ : Z) (slice_step_ : Z) (ax_ : nat) : outcome IndexTracker :=
  let '(s0, s1, s2) := shape in
  if (s0 * s1 * s2 =? 0)%nat then Raises (Builtin ValueError)
  else
    let '(n0_, n1_, n2_) :=
      if slice_index_ =? 1 then (s2, s1, s0) else (s0, s1, s2) in
    let start (axis n : nat) :=
      let i := Z.of_nat n / 2 in
      match take_slice axis n i with
      | Returns s =>
          update (mk_IndexTracker vol_type_ slice_index_ ax_ slice_step_
                    n0_ n1_ n2_ i s None)
      | Raises e => Raises e
      end in
    if slice_index_ =? 0 then start 0%nat n0_
    else if slice_index_ =? 1 then start 1%nat n1_
    else if slice_index_ =? 2 then start 2%nat n2_
    else Raises (Builtin AttributeError).

(** The attributes that scrolling leaves alone. *)
Definition same_view (t t' : IndexTracker) : Prop :=
  vol_type t' = vol_type t /\
  slice_index t' = slice_index t /\
  ax t' = ax t /\
  slice_step t' = slice_step t /\
  n0 t' = n0 t /\ n1 t' = n1 t /\ n2 t' = n2 t.

(** The tracker slices an axis that has a slice. *)
Definition sliceable (t : IndexTracker) : Prop :=
  exists n, num_slices t = Some n /\ (0 < n)%nat.

(** The tracker shows the slice [ind] of its axis, and [ind] is one of the
    slices. *)
Definition shows (t : IndexTracker) : Prop :=
  exists n,
    num_slices t = Some n /\
    0 <= ind t < Z.of_nat n /\
    im t = Slice (Z.to_nat (slice_index t)) (Z.to_nat (ind t)).

(** *** VolumeSlicer *)

(** [VolumeSlicer.__init__] on an array of three axes, without the bodies:
    [axs] is bound only when neither [ax] nor [fig] is passed, [labels] only
    for the three volume types; the two trackers slice the axes 2 and 1 and
    live in the axes 0 and 1 of the figure. *)
Definition VolumeSlicer_init (shape : nat * nat * nat) (vol_type_ : string)
    (slice_step_ : Z) (ax_ fig : option nat) : outcome (list IndexTracker) :=
  match ax_, fig with
  | None, None =>
      if String.eqb vol_type_ "recon" || String.eqb vol_type_ "target"
         || String.eqb vol_type_ "sino"
      then
        match IndexTracker_init shape vol_type_ 2 slice_step_ 0%nat with
        | Raises e => Raises e
        | Returns t2 =>
            match IndexTracker_init shape vol_type_ 1 slice_step_ 1%nat with
            | Raises e => Raises e
            | Returns t1 => Returns [t2; t1]
            end
        end
      else Raises UnboundLocalError
  | _, _ => Raises UnboundLocalError
  end.

(** *** ErrorPlot *)

(** [np.arange(0, stop, step)] on integers with [step > 0]. *)
Definition arange (stop step : nat) : list nat :=
  List.map (fun k => (k * step)%nat) (seq 0 ((stop + step - 1) / step)).

(** The ticks of [ErrorPlot.__init__] for an error curve of [n_iter]
    values: [np.arange(0, n_iter, step=np.max([int(n_iter / 10), 1]))]. *)
Definition xticks (n_iter : nat) : list nat :=
  arange n_iter (Nat.max (n_iter / 10) 1).

End Display.

(** ** A viewer on a volume of 2 x 3 x 4 voxels *)

Module Viewer.

Import Stdlib.Strings.String.
Import Display.
Local Open Scope string_scope.
Local Open Scope Z_scope.

(** The tracker of axis 2, in the axes 0 of the figure, as [__init__]
    leaves it: on the middle slice 2 of 4. *)
Definition tracker : IndexTracker :=
  mk_IndexTracker "target" 2 0 1 2 3 4 2 (Slice 2 2) (Some (Title "Z" 2)).

(** The tracker of axis 1, in the axes 1 of the figure: the axes 0 and 2 of
    the array are swapped, and it is on the middle slice 1 of 3. *)
Definition side_tracker : IndexTracker :=
  mk_IndexTracker "target" 1 1 1 4 3 2 1 (Slice 1 1) (Some (Title "X" 1)).

(** The scroll wheel turned up and down over the axes 0. *)
Definition up : ScrollEvent := mk_ScrollEvent (Some 0%nat) "up".

Definition down : ScrollEvent := mk_ScrollEvent (Some 0%nat) "down".

(** Four voxels of a target geometry: void, target, target under the insert
    mask, and a voxel under both masks. *)
Definition geometry : volume :=
  Geometry [0; 1; 1; 0.5]%float
    (Some [false; false; true; true])
    (Some [false; false; false; true]).

End Viewer.

(** * Properties *)

(** ** The laws on the two scalar types *)

#[export] Instance float_NaNLaws : NaNLaws float.
Proof. split; reflexivity. Qed.

#[export] Instance Z_OrderLaws : OrderLaws Z.
Proof. split; simpl; intros; lia. Qed.

#[export] Instance Z_SignLaws : SignLaws Z.
Proof.
  split; simpl; intros;
    first [ lia
          | apply Z.ltb_ge, Z.pow_nonneg; lia
          | apply Z.ltb_ge, Z.div_pos; lia
          | apply Z.ltb_ge; nia ].
Qed.

(** *** binary64, through the specification of its operations *)

Section FloatLaws.
Import FloatOps FloatAxioms SpecFloat.

(** A rounded value has the sign that was asked for, or is NaN. *)
Lemma binary_round_aux_not_neg (p e mx ex : Z) (lx : location) :
  SFltb (binary_round_aux p e false mx ex lx) (S754_zero false) = false.
Proof.
  unfold binary_round_aux.
  destruct (shr_fexp p e mx ex lx) as [m1 e1].
  destruct (shr_fexp p e _ e1 loc_Exact) as [m2 e2].
  destruct (shr_m m2); [ reflexivity | | reflexivity ].
  destruct (Z.leb _ _); reflexivity.
Qed.

Lemma binary_round_not_neg (p e : Z) (mx : positive) (ex : Z) :
  SFltb (binary_round p e false mx ex) (S754_zero false) = false.
Proof.
  unfold binary_round. destruct (shl_align _ _ _). apply binary_round_aux_not_neg.
Qed.

Lemma SFadd_not_neg (p e : Z) (x y : spec_float) :
  SFltb x (S754_zero false) = false -> SFltb y (S754_zero false) = false ->
  SFltb (SFadd p e x y) (S754_zero false) = false.
Proof.
  destruct x as [sx | sx | | sx mx ex], y as [sy | sy | | sy my ey];
    try destruct sx; try destruct sy; cbn; try discriminate; try reflexivity;
    intros _ _.
  apply binary_round_not_neg.
Qed.

Lemma SFmul_not_neg (p e : Z) (x y : spec_float) :
  SFltb x (S754_zero false) = false -> SFltb y (S754_zero false) = false ->
  SFltb (SFmul p e x y) (S754_zero false) = false.
Proof.
  destruct x as [sx | sx | | sx mx ex], y as [sy | sy | | sy my ey];
    try destruct sx; try destruct sy; cbn; try discriminate; try reflexivity;
    intros _ _; apply binary_round_aux_not_neg.
Qed.

(** [0 * x] is a zero or NaN, and so is its product with any [y]. *)
Lemma SFmul_zero_not_neg (p e : Z) (x y : spec_float) :
  SFltb (SFmul p e (SFmul p e (S754_zero false) x) y) (S754_zero false) = false.
Proof.
  destruct x as [sx | sx | | sx mx ex], y as [sy | sy | | sy my ey];
    try destruct sx; try destruct sy; reflexivity.
Qed.

Lemma SFdiv_not_neg (p e : Z) (x y : spec_float) :
  SFltb (S754_zero false) x = true -> SFltb (S754_zero false) y = true ->
  SFltb (SFdiv p e x y) (S754_zero false) = false.
Proof.
  destruct x as [sx | sx | | sx mx ex], y as [sy | sy | | sy my ey];
    try destruct sx; try destruct sy; cbn; try discriminate; try reflexivity;
    intros _ _.
  destruct (SFdiv_core_binary _ _ _ _ _ _) as [[mz ez] lz].
  apply binary_round_aux_not_neg.
Qed.

(** A square root is never negative: it is NaN below 0 and keeps a zero. *)
Lemma SFsqrt_not_neg (p e : Z) (x : spec_float) :
  SFltb (SFsqrt p e x) (S754_zero false) = false.
Proof.
  destruct x as [sx | sx | | sx mx ex]; try destruct sx; cbn; try reflexivity.
  destruct (SFsqrt_core_binary _ _ _ _) as [[mz ez] lz].
  apply binary_round_aux_not_neg.
Qed.

Lemma SFleb_not_neg (x : spec_float) :
  SFleb (S754_zero false) x = true -> SFltb x (S754_zero false) = false.
Proof. destruct x as [sx | sx | | sx mx ex]; try destruct sx; cbn; congruence. Qed.

Lemma SFltb_not_neg (x : spec_float) :
  SFltb (S754_zero false) x = true -> SFltb x (S754_zero false) = false.
Proof. destruct x as [sx | sx | | sx mx ex]; try destruct sx; cbn; congruence. Qed.

Lemma SFltb_SFleb (x y : spec_float) : SFltb x y = true -> SFleb x y = true.
Proof.
  unfold SFltb, SFleb. destruct (SFcompare x y) as [[ | | ] | ]; congruence.
Qed.

Lemma SFcompare_refl (x : spec_float) :
  SFcompare x x = None \/ SFcompare x x = Some Eq.
Proof.
  destruct x as [sx | sx | | sx mx ex]; try destruct sx; cbn; auto;
    rewrite Z.compare_refl; right; f_equal;
    fold (Pos.compare mx mx); now rewrite Pos.compare_refl.
Qed.

Lemma SFleb_self (x y : spec_float) :
  SFleb x y = true -> SFleb x x = true /\ SFleb y y = true.
Proof.
  intros Hxy.
  assert (Hx : x <> S754_nan) by (intros ->; discriminate).
  assert (Hy : y <> S754_nan) by (intros ->; destruct x; discriminate).
  unfold SFleb. split.
  - destruct (SFcompare_refl x) as [E | E]; rewrite E; [ | reflexivity ].
    destruct x; try discriminate; congruence.
  - destruct (SFcompare_refl y) as [E | E]; rewrite E; [ | reflexivity ].
    destruct y; try discriminate; congruence.
Qed.

Ltac compare_cases :=
  repeat match goal with
  | H : context [Z.compare ?a ?b] |- _ => destruct (Z.compare_spec a b)
  | |- context [Z.compare ?a ?b] => destruct (Z.compare_spec a b)
  | H : context [Pos.compare_cont Eq ?a ?b] |- _ =>
      change (Pos.compare_cont Eq a b) with (Pos.compare a b) in *;
      destruct (Pos.compare_spec a b)
  | |- context [Pos.compare_cont Eq ?a ?b] =>
      change (Pos.compare_cont Eq a b) with (Pos.compare a b) in *;
      destruct (Pos.compare_spec a b)
  end.

Ltac by_compare :=
  try discriminate; try reflexivity;
  compare_cases; cbn; intros; subst;
  try discriminate; try reflexivity; try lia.

Lemma SFleb_trans (x y z : spec_float) :
  SFleb x y = true -> SFleb y z = true -> SFleb x z = true.
Proof.
  unfold SFleb.
  destruct x as [sx | sx | | sx mx ex], y as [sy | sy | | sy my ey],
    z as [sz | sz | | sz mz ez];
    try destruct sx; try destruct sy; try destruct sz; cbn; by_compare.
Qed.

Lemma SFleb_total (x y : spec_float) :
  SFleb x x = true -> SFleb y y = true -> SFleb y x = false -> SFleb x y = true.
Proof.
  unfold SFleb.
  destruct x as [sx | sx | | sx mx ex], y as [sy | sy | | sy my ey];
    try destruct sx; try destruct sy; cbn; by_compare.
Qed.

(** The same on the primitive floats. *)
Lemma float_ltb_leb (x y : float) :
  PrimFloat.ltb x y = true -> PrimFloat.leb x y = true.
Proof. rewrite ltb_spec, leb_spec. apply SFltb_SFleb. Qed.

Lemma float_leb_self (x y : float) :
  PrimFloat.leb x y = true ->
  PrimFloat.leb x x = true /\ PrimFloat.leb y y = true.
Proof. rewrite !leb_spec. apply SFleb_self. Qed.

Lemma float_leb_trans (x y z : float) :
  PrimFloat.leb x y = true -> PrimFloat.leb y z = true ->
  PrimFloat.leb x z = true.
Proof. rewrite !leb_spec. apply SFleb_trans. Qed.

Lemma float_leb_total (x y : float) :
  PrimFloat.leb x x = true -> PrimFloat.leb y y = true ->
  PrimFloat.leb y x = false -> PrimFloat.leb x y = true.
Proof. rewrite !leb_spec. apply SFleb_total. Qed.

Lemma float_not_neg (x : float) :
  PrimFloat.ltb x 0 = SFltb (Prim2SF x) (S754_zero false).
Proof. now rewrite ltb_spec. Qed.

Lemma float_pos (x : float) :
  PrimFloat.ltb 0 x = SFltb (S754_zero false) (Prim2SF x).
Proof. now rewrite ltb_spec. Qed.

Lemma float_add_not_neg (x y : float) :
  PrimFloat.ltb x 0 = false -> PrimFloat.ltb y 0 = false ->
  PrimFloat.ltb (x + y) 0 = false.
Proof. rewrite !float_not_neg, add_spec. apply SFadd_not_neg. Qed.

Lemma float_mul_not_neg (x y : float) :
  PrimFloat.ltb x 0 = false -> PrimFloat.ltb y 0 = false ->
  PrimFloat.ltb (x * y) 0 = false.
Proof. rewrite !float_not_neg, mul_spec. apply SFmul_not_neg. Qed.

Lemma float_mul_zero_not_neg (x y : float) :
  PrimFloat.ltb (0 * x * y) 0 = false.
Proof. rewrite float_not_neg, !mul_spec. apply SFmul_zero_not_neg. Qed.

Lemma float_div_not_neg (x y : float) :
  PrimFloat.ltb 0 x = true -> PrimFloat.ltb 0 y = true ->
  PrimFloat.ltb (x / y) 0 = false.
Proof. rewrite !float_pos, float_not_neg, div_spec. apply SFdiv_not_neg. Qed.

Lemma float_sqrt_not_neg (x : float) :
  PrimFloat.ltb (PrimFloat.sqrt x) 0 = false.
Proof. rewrite float_not_neg, sqrt_spec. apply SFsqrt_not_neg. Qed.

Lemma float_power_not_neg (x y : float) :
  PrimFloat.ltb x 0 = false -> PrimFloat.ltb (float_power x y) 0 = false.
Proof.
  intros Hx. unfold float_power.
  destruct (PrimFloat.eqb y 0); [ reflexivity | ].
  destruct (PrimFloat.eqb y 1); [ exact Hx | ].
  destruct (PrimFloat.eqb y 2); [ now apply float_mul_not_neg | ].
  destruct (PrimFloat.eqb y 0.5); [ apply float_sqrt_not_neg | reflexivity ].
Qed.

End FloatLaws.

#[export] Instance float_OrderLaws : OrderLaws float.
Proof.
  split; cbn [fltb fleb float_Scalar].
  - exact float_ltb_leb.
  - exact float_leb_self.
  - exact float_leb_trans.
  - exact float_leb_total.
Qed.

(** The sign laws hold on binary64 with any power that, like C's [pow],
    is not negative on a base and an exponent that are not negative. *)
Lemma float_SignLaws_with (pow : float -> float -> float) :
  (forall x y : float,
     PrimFloat.ltb x 0 = false -> PrimFloat.ltb y 0 = false ->
     PrimFloat.ltb (pow x y) 0 = false) ->
  @SignLaws float (float_Scalar_with pow).
Proof.
  intros Hpow.
  split; cbn [fzero fone fadd fmul fdiv fpow fltb fleb float_Scalar_with].
  - reflexivity.
  - reflexivity.
  - intros x. rewrite float_not_neg, FloatAxioms.leb_spec. apply SFleb_not_neg.
  - intros x. rewrite float_not_neg, float_pos. apply SFltb_not_neg.
  - exact float_add_not_neg.
  - exact float_mul_not_neg.
  - exact float_mul_zero_not_neg.
  - exact float_div_not_neg.
  - exact Hpow.
Qed.

#[export] Instance float_SignLaws : SignLaws float.
Proof.
  apply (float_SignLaws_with float_power).
  intros x y Hx _. now apply float_power_not_neg.
Qed.

Section Properties.
Context {F : Type} `{NF : NaNScalar F} {CF : Collaborators F}.

Lemma updateVariables_fresh (g : ndarray F) (s : BCLPNorm) (w : World F) :
  stamps_agree s -> dose_iter s = curr_iter (logs s) ->
  updateVariables g s w = Ok tt s w.
Proof.
  intros (H1 & H2 & H3 & H4) Hd.
  rewrite Hd in H1, H2, H3, H4.
  cbv [updateVariables bind get when].
  repeat (rewrite ?H1, ?H2, ?H3, ?H4, ?Hd, ?Z.eqb_refl; cbn).
  reflexivity.
Qed.

Lemma updateVariables_stale (g g' : ndarray F) (s : BCLPNorm) (w : World F) :
  stamps_agree s -> dose_iter s <> curr_iter (logs s) ->
  checkSinogramShape s g Cylindrical = Success g' ->
  updateVariables g s w = Ok tt (refresh s (dose_of s g')) w.
Proof.
  intros (H1 & H2 & H3 & H4) Hd Hg.
  apply Z.eqb_neq in Hd.
  cbv [updateVariables bind get when].
  rewrite Hd, Hg. cbn.
  repeat (rewrite ?H1, ?H2, ?H3, ?H4, ?Hd; cbn).
  reflexivity.
Qed.

Lemma updateVariables_raise (g : ndarray F) (e : exn) (s : BCLPNorm) (w : World F) :
  dose_iter s <> curr_iter (logs s) ->
  checkSinogramShape s g Cylindrical = Failure e ->
  updateVariables g s w = Raise e w.
Proof.
  intros Hd Hg. apply Z.eqb_neq in Hd.
  cbv [updateVariables bind get when].
  rewrite Hd, Hg. reflexivity.
Qed.

Lemma logs_refresh (s : BCLPNorm) (d : vol F) : logs (refresh s d) = logs s.
Proof. reflexivity. Qed.

Lemma cached_refresh (s : BCLPNorm) (d : vol F) : cached (refresh s d) d.
Proof. repeat split. Qed.

Lemma stamps_refresh (s : BCLPNorm) (d : vol F) :
  stamps_agree (refresh s d) /\
  dose_iter (refresh s d) = curr_iter (logs (refresh s d)).
Proof. repeat split. Qed.

Lemma updateVariables_eq (g : ndarray F) (s : BCLPNorm) (w : World F) :
  stamps_agree s ->
  updateVariables g s w =
  match refreshed s g with
  | Success s1 => Ok tt s1 w
  | Failure e => Raise e w
  end.
Proof.
  intros Hs. unfold refreshed.
  destruct (Z.eqb_spec (dose_iter s) (curr_iter (logs s))) as [E | E].
  - now apply updateVariables_fresh.
  - destruct (checkSinogramShape s g Cylindrical) as [g' | e] eqn:Hg.
    + now apply updateVariables_stale.
    + now apply updateVariables_raise.
Qed.

Lemma refreshed_inv (g : ndarray F) (s s1 : BCLPNorm) :
  cache_inv s -> refreshed s g = Success s1 ->
  logs s1 = logs s /\ stamps_agree s1 /\
  dose_iter s1 = curr_iter (logs s1) /\ exists d, cached s1 d.
Proof.
  intros [Hs Hc]. unfold refreshed.
  destruct (Z.eqb_spec (dose_iter s) (curr_iter (logs s))) as [E | E].
  - intros [= <-]. auto.
  - destruct (checkSinogramShape s g Cylindrical) as [g' | e]; [ | discriminate ].
    intros [= <-]. repeat split. eexists. apply cached_refresh.
Qed.

Lemma computeLoss_eq (g : ndarray F) (s s1 : BCLPNorm) (d : vol F) (w : World F) :
  stamps_agree s -> refreshed s g = Success s1 -> cached s1 d ->
  computeLoss g s w =
  let l := loss_value s1 (violation_of s1 d) (error_from_band_of s1 d) in
  match py_setitem (loss (logs s1)) (curr_iter (logs s1)) l with
  | Success ls => Ok l (with_loss ls s1) (logged (EvLossWrite (curr_iter (logs s1)) l) w)
  | Failure e => Raise e w
  end.
Proof.
  intros Hs Hr (_ & _ & _ & Hb & Hv).
  unfold computeLoss. cbv [bind]. rewrite (updateVariables_eq _ _ _ Hs), Hr.
  cbv [get need]. rewrite Hv, Hb.
  cbv [ret lift emit modify with_loss logged].
  destruct (py_setitem _ _ _); reflexivity.
Qed.

Lemma computeLoss_raise (g : ndarray F) (s : BCLPNorm) (e : exn) (w : World F) :
  stamps_agree s -> refreshed s g = Failure e ->
  computeLoss g s w = Raise e w.
Proof.
  intros Hs Hr.
  unfold computeLoss. cbv [bind]. now rewrite (updateVariables_eq _ _ _ Hs), Hr.
Qed.

Lemma computeLossGradient_eq (g : ndarray F) (s s1 : BCLPNorm) (d : vol F)
    (w : World F) :
  stamps_agree s -> refreshed s g = Success s1 -> cached s1 d ->
  computeLossGradient g s w =
  match py_getitem (loss (logs s1)) (curr_iter (logs s1) - 1) with
  | Success x =>
      let w1 := logged (EvLossRead (curr_iter (logs s1) - 1) x) w in
      match checkSinogramShape s1 (gradient_of s1 d x) Flattened with
      | Success gr => Ok gr s1 w1
      | Failure e => Raise e w1
      end
  | Failure e => Raise e w
  end.
Proof.
  intros Hs Hr (Hd & _ & He & Hb & Hv).
  unfold computeLossGradient. cbv [bind].
  rewrite (updateVariables_eq _ _ _ Hs), Hr.
  cbv [get need]. rewrite Hv, Hb, He, Hd.
  cbv [ret lift emit logged gradient_of].
  destruct (py_getitem _ _); [ | reflexivity ].
  destruct (checkSinogramShape _ _ _); reflexivity.
Qed.

Lemma computeLossGradient_raise (g : ndarray F) (s : BCLPNorm) (e : exn)
    (w : World F) :
  stamps_agree s -> refreshed s g = Failure e ->
  computeLossGradient g s w = Raise e w.
Proof.
  intros Hs Hr.
  unfold computeLossGradient. cbv [bind].
  now rewrite (updateVariables_eq _ _ _ Hs), Hr.
Qed.

Lemma callback_eq (g : ndarray F) (s : BCLPNorm) (w : World F) :
  callback g s w =
  match recordIterTime (perf_counter (ticks w)) (logs s) with
  | Failure e => Raise e (ticked w)
  | Success l =>
      match progress_line s l (ticked w) with
      | Failure e => Raise e (ticked w)
      | Success w2 =>
          match dp s with
          | None => Raise AttributeError w2
          | Some _ =>
              Ok tt (set_logs (set_curr_iter (curr_iter l + 1) l) s)
                 (logged (EvPlotUpdate (loss l) (dose s) (mapped_dose s)) w2)
          end
      end
  end.
Proof.
  unfold callback, progress_line.
  cbv [bind now get lift ret raise modify when emit attribute ticked logged].
  destruct (recordIterTime _ _) as [l | e]; [ | reflexivity ].
  change (verbose (set_logs l s)) with (verbose s).
  change (logs (set_logs l s)) with l.
  destruct (verbose_eqb (verbose s) Time || verbose_eqb (verbose s) Plot).
  - destruct (py_getitem _ _); [ | reflexivity ].
    change (dp (set_logs l s)) with (dp s).
    destruct (dp s); reflexivity.
  - change (dp (set_logs l s)) with (dp s).
    destruct (dp s); reflexivity.
Qed.

(** *** Indexing *)

Lemma py_index_lt (n : nat) (i : Z) (k : nat) :
  py_index n i = Some k -> (k < n)%nat.
Proof.
  unfold py_index.
  destruct (Z.leb_spec 0 i).
  - destruct (Z.ltb_spec i (Z.of_nat n)); intros [= <-]; lia.
  - destruct (Z.leb_spec (- Z.of_nat n) i); intros [= <-]; lia.
Qed.

Lemma py_index_nonneg (n : nat) (i : Z) :
  0 <= i < Z.of_nat n -> py_index n i = Some (Z.to_nat i).
Proof.
  intros Hi. unfold py_index.
  destruct (Z.leb_spec 0 i); [ | lia ].
  destruct (Z.ltb_spec i (Z.of_nat n)); [ reflexivity | lia ].
Qed.

Lemma py_setitem_length (xs ls : list F) (i : Z) (x : F) :
  py_setitem xs i x = Success ls -> length ls = length xs.
Proof.
  unfold py_setitem. destruct (py_index _ _); [ | discriminate ].
  intros [= <-]. apply length_insert.
Qed.

Lemma py_setitem_getitem (xs ls : list F) (i : Z) (x : F) :
  py_setitem xs i x = Success ls -> py_getitem ls i = Success x.
Proof.
  intros Hs. pose proof (py_setitem_length _ _ _ _ Hs) as Hl.
  unfold py_setitem in Hs. unfold py_getitem. rewrite Hl.
  destruct (py_index (length xs) i) as [k | ] eqn:Hk; [ | discriminate ].
  injection Hs as <-.
  rewrite list_lookup_insert_eq; [ reflexivity | ].
  now apply py_index_lt in Hk.
Qed.

Lemma recordIterTime_frame (t : F) (l l' : LogPerf) :
  recordIterTime t l = Success l' ->
  loss l' = loss l /\ curr_iter l' = curr_iter l /\ options l' = options l.
Proof.
  unfold recordIterTime. destruct (py_setitem _ _ _); [ | discriminate ].
  intros [= <-]. repeat split.
Qed.

(** *** Every read of [logs.loss] finds a value stored before *)

Lemma progress_line_trace (s : BCLPNorm) (l : LogPerf) (w w' : World F) :
  progress_line s l w = Success w' ->
  reads_populated (trace w) -> 
  reads_populated (trace w') /\
  (forall ev, In ev (trace w) -> In ev (trace w')).
Proof.
  unfold progress_line.
  destruct (_ || _).
  - destruct (py_getitem _ _); [ | discriminate ].
    intros [= <-] Hw. split; [ exact Hw | ]. intros ev Hev. now right.
  - intros [= <-]. auto.
Qed.

(** The evaluation of a sinogram ([computeLoss] then [callback]) from a
    state whose cache holds the chain of the current iteration. *)
Lemma evaluate_safe (g : ndarray F) (s0 : BCLPNorm) (w : World F) :
  cache_inv s0 -> 0 <= curr_iter (logs s0) -> reads_populated (trace w) ->
  match (let* _ := computeLoss g in callback g) s0 w with
  | Ok _ s' w' => between_iterations s' w'
  | Raise _ w' => reads_populated (trace w')
  end.
Proof.
  intros Hinv Hi Hw. cbv [bind].
  destruct (refreshed s0 g) as [s | e] eqn:Hr;
    [ | now rewrite (computeLoss_raise _ _ _ _ (proj1 Hinv) Hr) ].
  destruct (refreshed_inv _ _ _ Hinv Hr) as (Hl & Hs & Hd & [d Hc]).
  rewrite (computeLoss_eq _ _ _ _ _ (proj1 Hinv) Hr Hc). cbv zeta.
  rewrite <- Hl in Hi. clear Hinv Hr Hl.
  destruct (py_setitem _ _ _) as [ls | e] eqn:Hset; [ | exact Hw ].
  rewrite callback_eq.
  destruct (recordIterTime _ _) as [l | e] eqn:Hrec; [ | exact Hw ].
  apply recordIterTime_frame in Hrec as (Hloss & Hcur & _).
  change (logs (with_loss ls s)) with (set_loss ls (logs s)) in Hloss, Hcur.
  cbn in Hloss, Hcur.
  destruct (progress_line _ _ _) as [w2 | e] eqn:Hp; [ | exact Hw ].
  apply progress_line_trace in Hp as [Hw2 Hin]; [ | exact Hw ].
  destruct (dp _); [ | exact Hw2 ].
  unfold between_iterations. cbn.
  rewrite Hcur, Hloss. replace (curr_iter (logs s) + 1 - 1) with (curr_iter (logs s)) by lia.
  repeat split; try apply Hs; try lia.
  - exists d. exact Hc.
  - eexists. split; [ exact (py_setitem_getitem _ _ _ _ Hset) | ].
    right. apply Hin. now left.
  - exact Hw2.
Qed.

Lemma cache_inv_refresh (s : BCLPNorm) (d : vol F) : cache_inv (refresh s d).
Proof. split; [ apply stamps_refresh | ]. intros _. exists d. apply cached_refresh. Qed.

Lemma descend_safe (n : nat) :
  forall (g : ndarray F) (s : BCLPNorm) (w : World F),
  between_iterations s w ->
  match descend n g s w with
  | Ok _ s' w' => between_iterations s' w'
  | Raise _ w' => reads_populated (trace w')
  end.
Proof.
  induction n as [ | n IH]; intros g s w Hinv.
  - exact Hinv.
  - pose proof Hinv as (Hs & [d Hc] & Hi & Hd & (x & Hx & Hin) & Hw).
    cbn [descend]. unfold bind at 1.
    destruct (refreshed s g) as [s1 | e] eqn:Hr.
    + assert (Hr' := Hr). unfold refreshed in Hr'.
      destruct (Z.eqb_spec (dose_iter s) (curr_iter (logs s))); [ lia | ].
      destruct (checkSinogramShape s g Cylindrical) as [g' | ]; [ | discriminate ].
      injection Hr' as <-.
      rewrite (computeLossGradient_eq _ _ _ _ _ Hs Hr (cached_refresh _ _)).
      rewrite logs_refresh, Hx. cbv zeta.
      set (s1 := refresh s (dose_of s g')).
      set (w1 := logged _ w).
      assert (Hw1 : reads_populated (trace w1)).
      { cbn. repeat split; [ lia | exact Hin | exact Hw ]. }
      destruct (checkSinogramShape s1 _ Flattened) as [gr | e]; [ | exact Hw1 ].
      unfold bind at 1, get at 1. unfold bind at 1.
      destruct (imposeSinogramConstraints s1 _) as [g2 | e]; [ | exact Hw1 ].
      cbn [lift ret].
      assert (He : match (let* _ := computeLoss g2 in callback g2) s1 w1 with
                   | Ok _ s' w' => between_iterations s' w'
                   | Raise _ w' => reads_populated (trace w')
                   end).
      { apply evaluate_safe; [ apply cache_inv_refresh | | exact Hw1 ].
        change (curr_iter (logs s1)) with (curr_iter (logs s)). lia. }
      unfold bind in He |- *.
      destruct (computeLoss g2 s1 w1) as [l s2 w2 | e w2]; [ | exact He ].
      destruct (callback g2 s2 w2) as [u s3 w3 | e w3]; [ | exact He ].
      apply IH, He.
    + now rewrite (computeLossGradient_raise _ _ _ _ Hs Hr).
Qed.

Lemma gradientDescent_safe (s : BCLPNorm) (w : World F) :
  between_iterations s w ->
  match gradientDescent s w with
  | Ok _ s' w' => between_iterations s' w'
  | Raise _ w' => reads_populated (trace w')
  end.
Proof.
  intros Hinv. unfold gradientDescent. cbv [bind get].
  destruct (checkSinogramShape s (g0 s) Flattened) as [g | e]; cbn [lift ret raise].
  - now apply descend_safe.
  - apply Hinv.
Qed.

Lemma BCLPNorm_init_safe (target_geo_ : TargetGeometry.t F)
    (proj_geo_ : ProjectionGeometry.t) (opts : Options.t F) (w : World F) :
  reads_populated (trace w) ->
  match BCLPNorm_init target_geo_ proj_geo_ opts w with
  | Ok _ s' w' => between_iterations s' w'
  | Raise _ w' => reads_populated (trace w')
  end.
Proof.
  intros Hw. unfold BCLPNorm_init.
  destruct (ProjectionGeometry.n_angles proj_geo_); [ exact Hw | ].
  cbv zeta.
  set (w3 := if ResponseModel.checkResponseTarget _ _ then _ else _).
  assert (Hw3 : reads_populated (trace w3)).
  { subst w3.
    destruct (ResponseModel.checkResponseTarget _ _), (verbose_eqb _ _); exact Hw. }
  clearbody w3.
  set (s0 := BCLPNorm_attributes _ _ _ _).
  unfold BCLPNorm_evaluate_initialization.
  unfold bind at 1, get at 1. unfold bind at 1, modify at 1.
  unfold bind at 1, get at 1. unfold bind at 1.
  destruct (imposeSinogramConstraints _ _) as [g | e]; cbn [lift ret raise];
    [ | exact Hw3 ].
  unfold bind at 1, modify at 1. unfold bind at 1, get at 1.
  set (s1 := set_g0 g _).
  apply evaluate_safe; [ | cbn; lia | exact Hw3 ].
  split; [ repeat split | ]. cbn. discriminate.
Qed.

(** C10. In every run of [minimizeBCLP], whether it returns or raises, each
    read of [logs.loss] made by [computeLossGradient] is at the index
    [curr_iter - 1 >= 0] (so the iteration index is at least 1 and the index
    is never negative) and returns the very value that an earlier
    [computeLoss] stored into that slot: no unset slot is ever read. *)
Theorem computeLossGradient_reads_populated_slot
    (target_geo_ : TargetGeometry.t F) (proj_geo_ : ProjectionGeometry.t)
    (opts : Options.t F) (t : nat) :
  match minimizeBCLP target_geo_ proj_geo_ opts (mk_World t []) with
  | Ok _ _ w' => reads_populated (trace w')
  | Raise _ w' => reads_populated (trace w')
  end.
Proof.
  unfold minimizeBCLP.
  pose proof (BCLPNorm_init_safe target_geo_ proj_geo_ opts (mk_World t []) I) as Hi.
  destruct (BCLPNorm_init _ _ _ _) as [u s w | e w]; [ | exact Hi ].
  pose proof (gradientDescent_safe s w Hi) as Hg.
  unfold bind at 1.
  destruct (gradientDescent s w) as [g s1 w1 | e w1]; [ | exact Hg ].
  destruct Hg as (_ & _ & _ & _ & _ & Hw1).
  cbv [bind get].
  destruct (checkSinogramShape s1 g Flattened); cbn [lift ret raise]; [ | exact Hw1 ].
  destruct (verbose_eqb (verbose s1) Plot); cbn [when ret]; [ | exact Hw1 ].
  cbv [bind]. destruct (dp s1); exact Hw1.
Qed.

(** *** The performance log at construction *)

Lemma length_nan_array (n : nat) : length (nan_array n) = n.
Proof. unfold nan_array, np_zeros. now rewrite length_map, repeat_length. Qed.

Lemma nan_array_all_nan `{!NaNLaws F} (n : nat) :
  Forall (fun x => is_nan x = true) (nan_array n).
Proof.
  unfold nan_array, np_zeros.
  induction n as [ | n IH]; cbn; constructor; [ apply is_nan_zero_mul_nan | exact IH ].
Qed.

Lemma np_zeros_all_zero (n : nat) : Forall (fun x => x = fzero) (np_zeros n).
Proof. unfold np_zeros. induction n; cbn; constructor; auto. Qed.

(** C5, as the code has it. For every [n_iter], the log just constructed has
    all eleven per-iteration arrays of length [n_iter + 1]; the loss, the
    eight norms and the convergence error are filled with NaN; the iteration
    times are filled with 0.0, which is not NaN; the start time is NaN
    until [startTiming] stores the clock's reading. *)
Theorem LogPerf_init_arrays `{!NaNLaws F} (opts : Options.t F) :
  let l := LogPerf_init opts in
  Forall (fun a => length a = (Options.n_iter opts + 1)%nat) (per_iteration_arrays l) /\
  Forall (Forall (fun x => is_nan x = true)) (nan_filled_arrays l) /\
  Forall (fun x => x = fzero /\ is_nan x = false) (iter_times l) /\
  is_nan (t0 l) = true /\
  (forall now, t0 (startTiming now l) = now) /\
  curr_iter l = 0.
Proof.
  cbv zeta. repeat split.
  - unfold per_iteration_arrays, nan_filled_arrays, LogPerf_init. cbn.
    repeat constructor; first [ apply length_nan_array | apply repeat_length ].
  - unfold nan_filled_arrays, LogPerf_init. cbn.
    repeat constructor; apply nan_array_all_nan.
  - cbn. eapply Forall_impl; [ apply np_zeros_all_zero | ].
    intros x ->. split; [ reflexivity | apply is_nan_zero ].
  - cbn. apply is_nan_nan.
Qed.

(** *** The constraints on a sinogram *)

Section Order.
Context `{!OrderLaws F}.

Lemma fisnan_false (x : F) : fisnan x = false <-> fleb x x = true.
Proof. unfold fisnan. destruct (fleb x x); cbn; split; congruence. Qed.







End Order.








(** *** The gradient *)

Lemma flattened_wf (s : BCLPNorm) (g : ndarray F) :
  wf_ndarray g ->
  exists gr, checkSinogramShape s g Flattened = Success gr /\
             data gr = data g /\ (length (shape gr) <= 1)%nat.
Proof.
  intros Hwf. unfold checkSinogramShape.
  destruct (Nat.ltb_spec 1 (length (shape g))) as [Hl | Hl].
  - unfold np_reshape. cbn [np_product fold_right].
    rewrite Nat.mul_1_r. fold (np_product (shape g)).
    rewrite Hwf, Nat.eqb_refl. eexists. split; [ reflexivity | ]. cbn. auto.
  - exists g. auto.
Qed.

Lemma refreshed_cases (s : BCLPNorm) (g : ndarray F) :
  cache_inv s ->
  (dose_iter s <> curr_iter (logs s) ->
   exists g', checkSinogramShape s g Cylindrical = Success g') ->
  exists s1 d,
    refreshed s g = Success s1 /\ cached s1 d /\
    (s1 = s \/ s1 = refresh s d) /\
    (dose_iter s <> curr_iter (logs s) ->
     exists g', checkSinogramShape s g Cylindrical = Success g' /\
                d = dose_of s g').
Proof.
  intros [Hs Hc] Hg. unfold refreshed.
  destruct (Z.eqb_spec (dose_iter s) (curr_iter (logs s))) as [E | E].
  - destruct (Hc E) as [d Hd]. exists s, d.
    split; [ reflexivity | ]. split; [ exact Hd | ]. split; [ now left | ].
    intros E'. contradiction.
  - destruct (Hg E) as [g' Hg']. rewrite Hg'.
    exists (refresh s (dose_of s g')), (dose_of s g').
    split; [ reflexivity | ]. split; [ apply cached_refresh | ].
    split; [ now right | ]. intros _. now exists g'.
Qed.

(** C7. From a coherent cache, with a sinogram of the right size and slot
    [curr_iter - 1] of the loss in range, [computeLossGradient] returns, with
    one axis at most, the elements of the forward projection of
    [v * weight * band ** (p - 1) * sign(error) * dmapdf(dose)], each
    multiplied by [q * previous_loss ** ((q - p) / q)], where
    [previous_loss] is [logs.loss[curr_iter - 1]]; the operand is built from
    the cache, which holds the chain of the sinogram passed whenever the
    stamps are not those of the current iteration. *)
Theorem computeLossGradient_spec (g : ndarray F) (s : BCLPNorm) (w : World F)
    (previous_loss : F) :
  cache_inv s ->
  (dose_iter s <> curr_iter (logs s) ->
   exists g', checkSinogramShape s g Cylindrical = Success g') ->
  py_getitem (loss (logs s)) (curr_iter (logs s) - 1) = Success previous_loss ->
  (forall operand, wf_ndarray (Projector.forward (P s) operand)) ->
  exists gr s1 d,
    computeLossGradient g s w =
      Ok gr s1 (logged (EvLossRead (curr_iter (logs s) - 1) previous_loss) w) /\
    cached s1 d /\
    (dose_iter s <> curr_iter (logs s) ->
     exists g', checkSinogramShape s g Cylindrical = Success g' /\
                d = dose_of s g') /\
    (length (shape gr) <= 1)%nat /\
    data gr =
      List.map
        (fmul (fmul (q s)
                 (fpow previous_loss (fdiv (fsub (q s) (p s)) (q s)))))
        (data
           (Projector.forward (P s)
              (zip_with fmul
                 (zip_with fmul
                    (zip_with fmul
                       (mul_weight (List.map bool_to_F (violation_of s d)) (weight s))
                       (List.map (fun e => fpow e (fsub (p s) fone))
                          (error_from_band_of s d)))
                    (List.map fsign (error_from_target_of s d)))
                 (ResponseModel.dmapdf (response_model s) d)))).
Proof.
  intros Hinv Hg Hx Hwf.
  destruct (refreshed_cases s g Hinv Hg) as (s1 & d & Hr & Hc & Hs1 & Hd).
  rewrite (computeLossGradient_eq _ _ _ _ _ (proj1 Hinv) Hr Hc).
  assert (Hl : logs s1 = logs s) by (destruct Hs1 as [-> | ->]; reflexivity).
  rewrite Hl, Hx. cbv zeta.
  assert (Hgrad : gradient_of s1 d previous_loss = gradient_of s d previous_loss)
    by (destruct Hs1 as [-> | ->]; reflexivity).
  rewrite Hgrad.
  destruct (flattened_wf s1 (gradient_of s d previous_loss)) as (gr & Hf & Hdata & Hshape).
  { unfold wf_ndarray, gradient_of, nd_map. cbn [data shape].
    rewrite length_map. apply Hwf. }
  rewrite Hf. exists gr, s1, d.
  split; [ reflexivity | ]. split; [ exact Hc | ]. split; [ exact Hd | ].
  split; [ exact Hshape | exact Hdata ].
Qed.

(** *** The loss *)

Lemma pairwise_sum_S (depth : nat) (x0 x1 x2 x3 x4 x5 x6 x7 : F) (xs' : list F) :
  let xs := x0 :: x1 :: x2 :: x3 :: x4 :: x5 :: x6 :: x7 :: xs' in
  pairwise_sum (S depth) xs =
    if (length xs <=? 128)%nat
    then pairwise_block x0 x1 x2 x3 x4 x5 x6 x7 xs'
    else fadd (pairwise_sum depth
                 (take (length xs / 2 - (length xs / 2) mod 8) xs))
              (pairwise_sum depth
                 (drop (length xs / 2 - (length xs / 2) mod 8) xs)).
Proof. reflexivity. Qed.

(** The bound on the splits of [pairwise_sum] is never reached: both parts
    of a split are shorter than the whole, so that one more level changes
    nothing once [128 + depth] covers the array. *)
Lemma pairwise_sum_depth (depth : nat) :
  forall xs : list F,
  (length xs <= 128 + depth)%nat ->
  pairwise_sum (S depth) xs = pairwise_sum depth xs.
Proof.
  induction depth as [ | depth IH]; intros xs Hl;
    destruct xs as [ | x0 [ | x1 [ | x2 [ | x3 [ | x4 [ | x5 [ | x6 [ | x7 xs']]]]]]]];
    try reflexivity.
  - rewrite pairwise_sum_S. cbv zeta.
    destruct (Nat.leb_spec
                (length (x0 :: x1 :: x2 :: x3 :: x4 :: x5 :: x6 :: x7 :: xs')) 128);
      [ reflexivity | lia ].
  - rewrite (pairwise_sum_S (S depth)), (pairwise_sum_S depth). cbv zeta.
    set (xs := x0 :: x1 :: x2 :: x3 :: x4 :: x5 :: x6 :: x7 :: xs') in *.
    destruct (Nat.leb_spec (length xs) 128) as [Hn | Hn]; [ reflexivity | ].
    pose proof (Nat.mod_upper_bound (length xs / 2) 8) as Hm.
    pose proof (Nat.div_mod_eq (length xs) 2) as Hd.
    pose proof (Nat.mod_upper_bound (length xs) 2) as Hd2.
    f_equal; apply IH.
    + rewrite length_take. lia.
    + rewrite length_drop. lia.
Qed.

Lemma pairwise_sum_enough (depth : nat) (xs : list F) :
  (length xs <= 128 + depth)%nat ->
  forall k, pairwise_sum (k + depth) xs = pairwise_sum depth xs.
Proof.
  intros Hl k. induction k as [ | k IH]; [ reflexivity | ].
  cbn [Nat.add]. rewrite pairwise_sum_depth by lia. exact IH.
Qed.

(** Fewer than eight elements are added one by one from 0. *)
Lemma np_sum_short (xs : list F) :
  (length xs < 8)%nat -> np_sum xs = fadd fzero (fold_left fadd xs fzero).
Proof.
  intros Hl. unfold np_sum. f_equal.
  destruct xs as [ | x0 [ | x1 [ | x2 [ | x3 [ | x4 [ | x5 [ | x6 [ | x7 xs']]]]]]]];
    try reflexivity.
  cbn in Hl. lia.
Qed.

Section Signs.
Context `{!SignLaws F}.

Lemma fold_fadd_not_neg (xs : list F) :
  forall acc, fltb acc fzero = false ->
  Forall (fun x => fltb x fzero = false) xs ->
  fltb (fold_left fadd xs acc) fzero = false.
Proof.
  induction xs as [ | x xs IH]; intros acc Hacc Hxs; cbn.
  - exact Hacc.
  - inversion Hxs; subst. apply IH; [ now apply fadd_not_neg | assumption ].
Qed.

Lemma pairwise_block_not_neg (n : nat) :
  forall (xs : list F) (r0 r1 r2 r3 r4 r5 r6 r7 : F),
  (length xs <= n)%nat ->
  Forall (fun x => fltb x fzero = false) [r0; r1; r2; r3; r4; r5; r6; r7] ->
  Forall (fun x => fltb x fzero = false) xs ->
  fltb (pairwise_block r0 r1 r2 r3 r4 r5 r6 r7 xs) fzero = false.
Proof.
  induction n as [ | n IH]; intros xs r0 r1 r2 r3 r4 r5 r6 r7 Hn Hr Hxs;
    rewrite !Forall_cons in Hr;
    destruct Hr as (? & ? & ? & ? & ? & ? & ? & ? & _);
    destruct xs as [ | x0 [ | x1 [ | x2 [ | x3 [ | x4 [ | x5 [ | x6 [ | x7 xs']]]]]]]];
    cbn [pairwise_block];
    try (apply fold_fadd_not_neg;
         [ repeat apply fadd_not_neg; assumption | assumption ]).
  - cbn in Hn. lia.
  - rewrite !Forall_cons in Hxs.
    destruct Hxs as (? & ? & ? & ? & ? & ? & ? & ? & ?).
    apply IH; [ cbn in Hn; lia | | assumption ].
    repeat (constructor; [ now apply fadd_not_neg | ]). constructor.
Qed.

Lemma pairwise_sum_not_neg (depth : nat) :
  forall xs : list F,
  Forall (fun x => fltb x fzero = false) xs ->
  fltb (pairwise_sum depth xs) fzero = false.
Proof.
  assert (Hblock : forall (xs : list F) (x0 x1 x2 x3 x4 x5 x6 x7 : F),
            Forall (fun x => fltb x fzero = false)
                   (x0 :: x1 :: x2 :: x3 :: x4 :: x5 :: x6 :: x7 :: xs) ->
            fltb (pairwise_block x0 x1 x2 x3 x4 x5 x6 x7 xs) fzero = false).
  { intros xs x0 x1 x2 x3 x4 x5 x6 x7 Hxs. rewrite !Forall_cons in Hxs.
    destruct Hxs as (? & ? & ? & ? & ? & ? & ? & ? & ?).
    apply (pairwise_block_not_neg (length xs)); [ lia | | assumption ].
    repeat (constructor; [ assumption | ]). constructor. }
  induction depth as [ | depth IH]; intros xs Hxs;
    destruct xs as [ | x0 [ | x1 [ | x2 [ | x3 [ | x4 [ | x5 [ | x6 [ | x7 xs']]]]]]]];
    cbn [pairwise_sum];
    try (apply fold_fadd_not_neg; [ apply fzero_not_neg | assumption ]).
  - now apply Hblock.
  - destruct (_ <=? _)%nat; [ now apply Hblock | ].
    apply fadd_not_neg; apply IH; [ now apply Forall_take | now apply Forall_drop ].
Qed.

Lemma np_sum_not_neg (xs : list F) :
  Forall (fun x => fltb x fzero = false) xs -> fltb (np_sum xs) fzero = false.
Proof.
  intros Hxs. unfold np_sum.
  apply fadd_not_neg; [ apply fzero_not_neg | now apply pairwise_sum_not_neg ].
Qed.

(** One term of the loss: where the indicator is true the band error is
    above 0 and so are the three factors; elsewhere the term is a product
    with [0 * weight]. *)
Lemma term_not_neg (b c p_ : F) :
  fleb fzero c = true -> fltb p_ fzero = false ->
  fltb (fmul (fmul (bool_to_F (fltb fzero b)) c) (fpow b p_)) fzero = false.
Proof.
  intros Hc Hp. destruct (fltb fzero b) eqn:E; cbn [bool_to_F].
  - apply fmul_not_neg.
    + apply fmul_not_neg; [ apply fone_not_neg | now apply fleb_not_neg ].
    + apply fpow_not_neg; [ now apply fltb_not_neg | exact Hp ].
  - apply fmul_zero_not_neg.
Qed.

Lemma loss_integrand_not_neg (wt : weight_t F) (band : vol F) (p_ : F) :
  weight_nonneg wt -> fltb p_ fzero = false ->
  Forall (fun x => fltb x fzero = false)
         (loss_integrand (List.map (fun x => fltb fzero x) band) wt band p_).
Proof.
  intros Hw Hp. unfold loss_integrand. destruct wt as [c | ws]; cbn [mul_weight].
  - cbn in Hw. induction band as [ | b band IH]; cbn; constructor.
    + now apply term_not_neg.
    + exact IH.
  - cbn in Hw. revert ws Hw.
    induction band as [ | b band IH]; intros ws Hw; cbn; [ constructor | ].
    destruct ws as [ | c ws]; cbn; [ constructor | ].
    inversion Hw; subst. constructor.
    + now apply term_not_neg.
    + now apply IH.
Qed.

(** C9, as the code has it. With weights [>= 0] and exponents [p > 0] and
    [q > 0], [computeLoss] on a coherent cache, a sinogram of the right
    size and a slot in range returns a loss that is not negative: the
    comparison [loss < 0] is false, so that the loss is [>= 0] or NaN. The
    loss is stored in the current slot. *)
Theorem computeLoss_not_negative (g : ndarray F) (s : BCLPNorm) (w : World F) :
  cache_inv s ->
  (dose_iter s <> curr_iter (logs s) ->
   exists g', checkSinogramShape s g Cylindrical = Success g') ->
  0 <= curr_iter (logs s) < Z.of_nat (length (loss (logs s))) ->
  weight_nonneg (weight s) ->
  dvol s = fone ->
  fltb fzero (p s) = true ->
  fltb fzero (q s) = true ->
  exists l s' w',
    computeLoss g s w = Ok l s' w' /\
    fltb l fzero = false /\
    py_getitem (loss (logs s')) (curr_iter (logs s)) = Success l.
Proof.
  intros Hinv Hg Hi Hw Hv Hp Hq.
  destruct (refreshed_cases s g Hinv Hg) as (s1 & d & Hr & Hc & Hs1 & _).
  rewrite (computeLoss_eq _ _ _ _ _ (proj1 Hinv) Hr Hc). cbv zeta.
  assert (Hl : logs s1 = logs s) by (destruct Hs1 as [-> | ->]; reflexivity).
  assert (Hval : loss_value s1 (violation_of s1 d) (error_from_band_of s1 d) =
                 loss_value s (violation_of s d) (error_from_band_of s d))
    by (destruct Hs1 as [-> | ->]; reflexivity).
  rewrite Hl, Hval.
  destruct (py_setitem (loss (logs s)) (curr_iter (logs s)) _) as [ls | e] eqn:Hset.
  - do 3 eexists. split; [ reflexivity | ]. split.
    + unfold loss_value. apply fpow_not_neg.
      * rewrite Hv. apply fmul_not_neg; [ | apply fone_not_neg ].
        apply np_sum_not_neg. unfold violation_of.
        apply loss_integrand_not_neg; [ exact Hw | now apply fltb_not_neg ].
      * now apply fdiv_not_neg.
    + exact (py_setitem_getitem _ _ _ _ Hset).
  - unfold py_setitem in Hset. rewrite py_index_nonneg in Hset by exact Hi.
    discriminate.
Qed.

End Signs.

(** *** The live plot *)

Lemma callback_raises (g : ndarray F) (s : BCLPNorm) (w : World F) :
  dp s = None -> exists e w', callback g s w = Raise e w'.
Proof.
  intros Hdp. rewrite callback_eq, Hdp.
  destruct (recordIterTime _ _); [ | eauto ].
  destruct (progress_line _ _ _); eauto.
Qed.

Lemma refreshed_dp (g : ndarray F) (s s1 : BCLPNorm) :
  refreshed s g = Success s1 -> dp s1 = dp s.
Proof.
  unfold refreshed. destruct (_ =? _); [ now intros [= <-] | ].
  destruct (checkSinogramShape _ _ _); [ now intros [= <-] | discriminate ].
Qed.

Lemma evaluate_raises (g : ndarray F) (s : BCLPNorm) (w : World F) :
  cache_inv s -> dp s = None ->
  exists e w', (let* _ := computeLoss g in callback g) s w = Raise e w'.
Proof.
  intros Hinv Hdp. cbv [bind].
  destruct (refreshed s g) as [s1 | e] eqn:Hr.
  - destruct (refreshed_inv _ _ _ Hinv Hr) as (_ & _ & _ & [d Hc]).
    rewrite (computeLoss_eq _ _ _ _ _ (proj1 Hinv) Hr Hc). cbv zeta.
    destruct (py_setitem _ _ _) as [ls | e]; [ | eauto ].
    apply callback_raises.
    change (dp (with_loss ls s1)) with (dp s1).
    now rewrite (refreshed_dp _ _ _ Hr).
  - rewrite (computeLoss_raise _ _ _ _ (proj1 Hinv) Hr). eauto.
Qed.

(** C4, as the code has it. In the modes 'off' and 'time' no run returns:
    [minimizeBCLP] raises, whatever the geometry and the other options. *)
Theorem minimizeBCLP_raises_without_plot
    (target_geo_ : TargetGeometry.t F) (proj_geo_ : ProjectionGeometry.t)
    (opts : Options.t F) (w : World F) :
  Options.verbose opts <> Plot ->
  exists e w', minimizeBCLP target_geo_ proj_geo_ opts w = Raise e w'.
Proof.
  intros Hv. unfold minimizeBCLP.
  assert (Hinit : exists e w',
             BCLPNorm_init target_geo_ proj_geo_ opts w = Raise e w').
  { unfold BCLPNorm_init.
    destruct (ProjectionGeometry.n_angles proj_geo_); [ eauto | ].
    cbv zeta.
    set (w3 := if ResponseModel.checkResponseTarget _ _ then _ else _).
    clearbody w3.
    unfold BCLPNorm_evaluate_initialization.
    unfold bind at 1, get at 1. unfold bind at 1, modify at 1.
    unfold bind at 1, get at 1. unfold bind at 1.
    destruct (imposeSinogramConstraints _ _) as [g | e]; cbn [lift ret raise];
      [ | eauto ].
    unfold bind at 1, modify at 1. unfold bind at 1, get at 1.
    apply evaluate_raises.
    - split; [ repeat split | ]. cbn. discriminate.
    - cbn. destruct (Options.verbose opts); [ reflexivity | reflexivity | ].
      now contradiction Hv. }
  destruct Hinit as (e & w' & ->). eauto.
Qed.

(** *** The cache after a gradient *)

(** Once the stamps carry the current iteration, [computeLoss] does not look
    at the sinogram it is passed. *)
Lemma computeLoss_ignores_sinogram (g g' : ndarray F) (s : BCLPNorm) (w : World F) :
  stamps_agree s -> dose_iter s = curr_iter (logs s) ->
  computeLoss g s w = computeLoss g' s w.
Proof.
  intros Hs Hd. unfold computeLoss. cbv [bind].
  now rewrite !(updateVariables_fresh _ _ _ Hs Hd).
Qed.

(** X19. [computeLossGradient] leaves the stamps at the current iteration:
    the [computeLoss] that follows in the same iteration evaluates the
    cache, whatever sinogram it is passed. *)
Lemma computeLoss_after_gradient (g : ndarray F) (s s1 : BCLPNorm)
    (w w1 : World F) (gr : ndarray F) :
  cache_inv s -> computeLossGradient g s w = Ok gr s1 w1 ->
  forall g2 g3, computeLoss g2 s1 w1 = computeLoss g3 s1 w1.
Proof.
  intros Hinv Hrun g2 g3.
  destruct (refreshed s g) as [s' | e] eqn:Hr.
  - destruct (refreshed_inv _ _ _ Hinv Hr) as (_ & Hs & Hd & [d Hc]).
    rewrite (computeLossGradient_eq _ _ _ _ _ (proj1 Hinv) Hr Hc) in Hrun.
    destruct (py_getitem _ _); [ | discriminate ]. cbv zeta in Hrun.
    destruct (checkSinogramShape _ _ _); [ | discriminate ].
    injection Hrun as _ <- _. now apply computeLoss_ignores_sinogram.
  - rewrite (computeLossGradient_raise _ _ _ _ (proj1 Hinv) Hr) in Hrun.
    discriminate.
Qed.

(** *** A run in mode 'plot' *)

Lemma cylindrical_of_flat (sh : list nat) (s : BCLPNorm) (g : ndarray F) :
  g0_shape s = sh -> flat_or_native sh g ->
  checkSinogramShape s g Cylindrical = Success (mk_ndarray sh (data g)).
Proof.
  intros Hs [Hl Hsh]. unfold checkSinogramShape, np_reshape.
  rewrite Hs, Hl, Nat.eqb_refl.
  destruct Hsh as [E | E]; rewrite E.
  - destruct (Nat.eqb_spec (length sh) 1); [ reflexivity | ].
    destruct g as [sg dg]. cbn in *. now subst.
  - reflexivity.
Qed.

Lemma flattened_of_flat (sh : list nat) (s : BCLPNorm) (g : ndarray F) :
  flat_or_native sh g ->
  exists gr, checkSinogramShape s g Flattened = Success gr /\
             data gr = data g /\ flat_or_native sh gr.
Proof.
  intros [Hl Hsh]. unfold checkSinogramShape.
  destruct Hsh as [E | E]; rewrite E.
  - destruct (Nat.ltb_spec 1 (length sh)).
    + unfold np_reshape. cbn [np_product fold_right].
      fold (np_product sh). rewrite Nat.mul_1_r, Hl, Nat.eqb_refl.
      eexists. split; [ reflexivity | ]. split; [ reflexivity | ].
      split; [ exact Hl | now right ].
    + exists g. repeat split; auto.
  - exists g. repeat split; auto.
Qed.

Lemma flat_nd_map (sh : list nat) (f : F -> F) (g : ndarray F) :
  flat_or_native sh g -> flat_or_native sh (nd_map f g).
Proof.
  intros [Hl Hsh]. split; [ | exact Hsh ].
  unfold nd_map. cbn [data]. now rewrite length_map.
Qed.

Lemma flat_nd_zip (sh : list nat) (f : F -> F -> F) (a b : ndarray F) :
  flat_or_native sh a -> length (data b) = np_product sh ->
  flat_or_native sh (nd_zip f a b).
Proof.
  intros [Hl Hsh] Hb. split; [ | exact Hsh ].
  unfold nd_zip. cbn [data]. rewrite length_zip_with, Hl, Hb. lia.
Qed.

Lemma impose_of_flat (sh : list nat) (s : BCLPNorm) (g : ndarray F) :
  flat_or_native sh g -> (bit_depth s <> None -> np_product sh <> 0%nat) ->
  exists g2, imposeSinogramConstraints s g = Success g2 /\ flat_or_native sh g2.
Proof.
  intros Hflat Hb. unfold imposeSinogramConstraints.
  destruct (bit_depth s) as [b | ].
  - unfold np_amax. destruct (data g) as [ | x xs] eqn:Hd.
    + destruct Hflat as [Hl _]. rewrite Hd in Hl. cbn in Hl.
      exfalso. apply Hb; [ discriminate | now symmetry ].
    + eexists. split; [ reflexivity | ].
      unfold np_clip, discretize. now do 2 apply flat_nd_map.
  - eexists. split; [ reflexivity | ]. unfold np_clip. now apply flat_nd_map.
Qed.

Lemma py_getitem_in_range (xs : list F) (i : Z) :
  0 <= i < Z.of_nat (length xs) -> exists x, py_getitem xs i = Success x.
Proof.
  intros Hi. unfold py_getitem. rewrite py_index_nonneg by exact Hi.
  destruct (lookup_lt_is_Some_2 xs (Z.to_nat i)) as [x Hx]; [ lia | ].
  rewrite Hx. now exists x.
Qed.

Lemma py_setitem_in_range (xs : list F) (i : Z) (x : F) :
  0 <= i < Z.of_nat (length xs) ->
  py_setitem xs i x = Success (<[Z.to_nat i := x]> xs).
Proof.
  intros Hi. unfold py_setitem. now rewrite py_index_nonneg by exact Hi.
Qed.

(** [computeLoss] then [callback] at the iteration index [k <= n]. *)
Lemma evaluate_in_plot (n : nat) (sh : list nat) (k : nat)
    (s0 s : BCLPNorm) (d : vol F) (w : World F) (g : ndarray F) :
  stamps_agree s0 -> refreshed s0 g = Success s -> cached s d ->
  stamps_agree s -> dose_iter s = curr_iter (logs s) ->
  curr_iter (logs s) = Z.of_nat k -> (k <= n)%nat ->
  length (loss (logs s)) = (n + 1)%nat ->
  length (iter_times (logs s)) = (n + 1)%nat ->
  Options.n_iter (options (logs s)) = n ->
  verbose s = Plot -> (exists h, dp s = Some h) ->
  projector_contract sh s ->
  (bit_depth s <> None -> np_product sh <> 0%nat) ->
  exists s' w',
    (let* _ := computeLoss g in callback g) s0 w = Ok tt s' w' /\
    plotting n sh (S k) s' /\
    gradient_steps (trace w') = gradient_steps (trace w) /\
    g0 s' = g0 s /\ dose s' = dose s.
Proof.
  intros Hs0 Hr Hc Hs Hd Hk Hkn Hll Hlt Hn Hv [h Hdp] Hp Hb.
  assert (Hi1 : 0 <= curr_iter (logs s) < Z.of_nat (length (loss (logs s))))
    by (rewrite Hll; lia).
  assert (Hi2 : 0 <= curr_iter (logs s) < Z.of_nat (length (iter_times (logs s))))
    by (rewrite Hlt; lia).
  cbv [bind]. rewrite (computeLoss_eq _ _ _ _ _ Hs0 Hr Hc). cbv zeta.
  rewrite (py_setitem_in_range _ _ _ Hi1).
  rewrite callback_eq. unfold recordIterTime.
  change (logs (with_loss ?ls s)) with (set_loss ls (logs s)).
  change (iter_times (set_loss ?ls (logs s))) with (iter_times (logs s)).
  change (curr_iter (set_loss ?ls (logs s))) with (curr_iter (logs s)).
  rewrite (py_setitem_in_range _ _ _ Hi2).
  unfold progress_line.
  change (verbose (with_loss ?ls s)) with (verbose s). rewrite Hv.
  cbn [verbose_eqb orb].
  change (iter_times (set_iter_times ?ts ?l)) with ts.
  change (curr_iter (set_iter_times ?ts (set_loss ?ls (logs s))))
    with (curr_iter (logs s)).
  rewrite (py_setitem_getitem (iter_times (logs s)) _ (curr_iter (logs s)) _
             (py_setitem_in_range _ _ _ Hi2)).
  change (dp (with_loss ?ls s)) with (dp s). rewrite Hdp.
  do 2 eexists. split; [ reflexivity | ].
  split; [ | repeat split ].
  unfold plotting, projector_contract.
  repeat split; cbn; rewrite ?length_insert;
    try apply Hs; try apply Hp; try assumption; try lia.
  now exists h.
Qed.

(** One iteration of the loop at the iteration index [k <= n]. *)
Lemma iteration_in_plot (n : nat) (sh : list nat) (k : nat)
    (s : BCLPNorm) (w : World F) (g : ndarray F) :
  plotting n sh k s -> (1 <= k <= n)%nat -> flat_or_native sh g ->
  exists g2 s' w',
    flat_or_native sh g2 /\
    plotting n sh (S k) s' /\
    gradient_steps (trace w') = S (gradient_steps (trace w)) /\
    forall m, descend (S m) g s w = descend m g2 s' w'.
Proof.
  intros (Hst & Hd & Hci & Hll & Hlt & Hn & Hv & Hdp & Hp & Hb) Hk Hflat.
  set (d := dose_of s (mk_ndarray sh (data g))).
  set (s1 := refresh s d).
  assert (Hr : refreshed s g = Success s1).
  { unfold refreshed.
    destruct (Z.eqb_spec (dose_iter s) (curr_iter (logs s))); [ lia | ].
    now rewrite (cylindrical_of_flat sh s g (proj1 Hp) Hflat). }
  destruct (py_getitem_in_range (loss (logs s)) (curr_iter (logs s) - 1))
    as [x Hx]; [ rewrite Hll; lia | ].
  destruct (flattened_of_flat sh s1 (gradient_of s1 d x)) as (gr & Hgr & Hgd & Hgf).
  { destruct (proj2 Hp (gradient_operand s (violation_of s d)
                          (error_from_band_of s d) (error_from_target_of s d) d))
      as [Hshape Hwf].
    split; [ | left; exact Hshape ].
    unfold gradient_of, nd_map. cbn [data]. rewrite length_map.
    unfold wf_ndarray in Hwf. now rewrite <- Hshape. }
  set (g1 := nd_zip fsub g (nd_map (fmul (learning_rate s1)) gr)).
  destruct (impose_of_flat sh s1 g1) as (g2 & Hg2 & Hg2f).
  { apply flat_nd_zip; [ exact Hflat | ].
    unfold nd_map. cbn [data]. rewrite length_map. apply Hgf. }
  { exact Hb. }
  set (w1 := logged (EvLossRead (curr_iter (logs s) - 1) x) w).
  assert (Hr1 : refreshed s1 g2 = Success s1).
  { unfold refreshed.
    change (dose_iter s1) with (curr_iter (logs s1)). now rewrite Z.eqb_refl. }
  destruct (evaluate_in_plot n sh k s1 s1 d w1 g2
              (proj1 (stamps_refresh s d)) Hr1 (cached_refresh s d)
              (proj1 (stamps_refresh s d)) eq_refl Hci ltac:(lia)
              Hll Hlt Hn Hv Hdp Hp Hb)
    as (s' & w' & Hev & Hpl & Hsteps & _).
  exists g2, s', w'.
  split; [ exact Hg2f | ]. split; [ exact Hpl | ]. split; [ exact Hsteps | ].
  intros m. cbn [descend]. unfold bind at 1.
  rewrite (computeLossGradient_eq _ _ _ _ _ Hst Hr (cached_refresh _ _)).
  change (logs s1) with (logs s). rewrite Hx. cbv zeta. fold w1. rewrite Hgr.
  unfold bind at 1, get at 1. unfold bind at 1. fold g1. rewrite Hg2.
  cbn [lift ret]. unfold bind in Hev |- *.
  destruct (computeLoss g2 s1 w1) as [l s2 w2 | e w2]; [ | discriminate ].
  destruct (callback g2 s2 w2) as [u s3 w3 | e w3]; [ | discriminate ].
  now injection Hev as _ <- <-.
Qed.

Lemma descend_in_plot (n : nat) (sh : list nat) (m : nat) :
  forall (k : nat) (s : BCLPNorm) (w : World F) (g : ndarray F),
  plotting n sh k s -> (1 <= k)%nat -> (k + m = n + 1)%nat ->
  flat_or_native sh g ->
  exists g' s' w',
    descend m g s w = Ok g' s' w' /\
    flat_or_native sh g' /\
    plotting n sh (n + 1) s' /\
    gradient_steps (trace w') = (m + gradient_steps (trace w))%nat.
Proof.
  induction m as [ | m IH]; intros k s w g Hpl Hk Hkm Hflat.
  - exists g, s, w. replace (n + 1)%nat with k by lia.
    split; [ reflexivity | ]. split; [ exact Hflat | ].
    split; [ exact Hpl | reflexivity ].
  - destruct (iteration_in_plot n sh k s w g Hpl ltac:(lia) Hflat)
      as (g2 & s2 & w2 & Hf2 & Hpl2 & Hst2 & Hrun).
    destruct (IH (S k) s2 w2 g2 Hpl2 ltac:(lia) ltac:(lia) Hf2)
      as (g' & s' & w' & Hrun' & Hf' & Hpl' & Hst').
    exists g', s', w'. rewrite Hrun, Hrun'.
    split; [ reflexivity | ]. split; [ exact Hf' | ].
    split; [ exact Hpl' | lia ].
Qed.

Lemma BCLPNorm_init_in_plot (target_geo_ : TargetGeometry.t F)
    (proj_geo_ : ProjectionGeometry.t) (opts : Options.t F) (w : World F)
    (sh : list nat) :
  Options.verbose opts = Plot ->
  ProjectionGeometry.n_angles proj_geo_ <> 0%nat ->
  shape_contract target_geo_ proj_geo_ sh ->
  (Options.bit_depth opts <> None -> np_product sh <> 0%nat) ->
  exists s w',
    BCLPNorm_init target_geo_ proj_geo_ opts w = Ok tt s w' /\
    plotting (Options.n_iter opts) sh 1 s /\
    flat_or_native sh (g0 s) /\
    gradient_steps (trace w') = gradient_steps (trace w).
Proof.
  intros Hv Hn [HP Hf] Hb. unfold BCLPNorm_init.
  destruct (ProjectionGeometry.n_angles proj_geo_) as [ | a] eqn:Ha;
    [ congruence | ].
  cbv zeta.
  set (w3 := if ResponseModel.checkResponseTarget _ _ then _ else _).
  assert (Hw3 : gradient_steps (trace w3) = gradient_steps (trace w)).
  { subst w3.
    destruct (ResponseModel.checkResponseTarget _ _), (verbose_eqb _ _);
      reflexivity. }
  clearbody w3.
  set (s0 := BCLPNorm_attributes _ _ _ _).
  unfold BCLPNorm_evaluate_initialization.
  unfold bind at 1, get at 1. unfold bind at 1, modify at 1.
  unfold bind at 1, get at 1. unfold bind at 1.
  set (sf := set_g0 _ s0).
  destruct (impose_of_flat sh sf (g0 sf)) as (g & Hg & Hgf).
  { subst sf. cbn [g0 set_g0 s0 BCLPNorm_attributes].
    destruct (Hf (Projector.forward (projectorconstructor target_geo_ proj_geo_)
                    (ResponseModel.map_inv (Options.response_model opts)
                       (TargetGeometry.array target_geo_)))
                 (Options.filter opts)) as [Hfs Hfl].
    destruct (HP (ResponseModel.map_inv (Options.response_model opts)
                    (TargetGeometry.array target_geo_))) as [Hps Hpw].
    split; [ | left; congruence ].
    rewrite Hfl. unfold wf_ndarray in Hpw. congruence. }
  { exact Hb. }
  rewrite Hg. cbn [lift ret].
  unfold bind at 1, modify at 1. unfold bind at 1, get at 1.
  set (s1 := set_g0 g sf).
  assert (Hstamps : stamps_agree s1) by (repeat split).
  set (d := dose_of s1 (mk_ndarray sh (data g))).
  assert (Hsh : g0_shape s1 = sh) by apply HP.
  assert (Hr : refreshed s1 (g0 s1) = Success (refresh s1 d)).
  { unfold refreshed. change (dose_iter s1 =? curr_iter (logs s1)) with false.
    now rewrite (cylindrical_of_flat sh s1 (g0 s1) Hsh Hgf). }
  destruct (evaluate_in_plot (Options.n_iter opts) sh 0 s1 (refresh s1 d) d w3 (g0 s1)
              Hstamps Hr (cached_refresh s1 d) (proj1 (stamps_refresh s1 d)) eq_refl)
    as (s' & w' & Hev & Hpl & Hsteps & Hg0 & _).
  - reflexivity.
  - lia.
  - cbn. apply length_nan_array.
  - cbn. apply repeat_length.
  - reflexivity.
  - exact Hv.
  - cbn. rewrite Hv. cbn. eauto.
  - split; [ exact Hsh | exact HP ].
  - exact Hb.
  - exists s', w'. split; [ exact Hev | ]. split; [ exact Hpl | ].
    split; [ | congruence ].
    rewrite Hg0. exact Hgf.
Qed.

(** In mode 'plot', with a projector and a filter that keep to one shape,
    [minimizeBCLP] returns: the loss has [n_iter + 1] slots, the loop makes
    exactly [n_iter] gradient steps and leaves the iteration index at
    [n_iter + 1]; the returned dose is the cached one. *)
Theorem minimizeBCLP_in_plot (target_geo_ : TargetGeometry.t F)
    (proj_geo_ : ProjectionGeometry.t) (opts : Options.t F) (w : World F)
    (sh : list nat) :
  Options.verbose opts = Plot ->
  ProjectionGeometry.n_angles proj_geo_ <> 0%nat ->
  shape_contract target_geo_ proj_geo_ sh ->
  (Options.bit_depth opts <> None -> np_product sh <> 0%nat) ->
  exists r s w',
    minimizeBCLP target_geo_ proj_geo_ opts w = Ok r s w' /\
    length (loss (performance r)) = (Options.n_iter opts + 1)%nat /\
    curr_iter (performance r) = Z.of_nat (Options.n_iter opts) + 1 /\
    gradient_steps (trace w') =
      (Options.n_iter opts + gradient_steps (trace w))%nat /\
    flat_or_native sh (sinogram r) /\
    reconstruction r = dose s.
Proof.
  intros Hv Hn Hc Hb. unfold minimizeBCLP.
  destruct (BCLPNorm_init_in_plot _ _ _ w sh Hv Hn Hc Hb)
    as (s1 & w1 & -> & Hpl & Hgf & Hst).
  unfold bind at 1, gradientDescent. unfold bind at 1, get at 1.
  destruct (flattened_of_flat sh s1 (g0 s1) Hgf) as (gr & Hgr & _ & Hgrf).
  unfold bind at 1. rewrite Hgr. cbn [lift ret].
  pose proof Hpl as (_ & _ & _ & _ & _ & Hni & _).
  rewrite Hni.
  assert (H1 : (1 <= 1)%nat) by lia.
  assert (H2 : (1 + Options.n_iter opts = Options.n_iter opts + 1)%nat) by lia.
  destruct (descend_in_plot (Options.n_iter opts) sh (Options.n_iter opts) 1
              s1 w1 gr Hpl H1 H2 Hgrf)
    as (g' & s' & w' & -> & Hf' & Hpl' & Hst').
  cbv [bind get].
  destruct (flattened_of_flat sh s' g' Hf') as (g2 & Hg2 & _ & Hg2f).
  rewrite Hg2. cbn [lift ret].
  destruct Hpl' as (_ & _ & Hci & Hll & _ & _ & Hv' & [h Hdp] & _).
  rewrite Hv', Hdp. cbn.
  do 3 eexists. split; [ reflexivity | ].
  cbn [performance sinogram reconstruction].
  split; [ exact Hll | ]. split; [ lia | ].
  split; [ | split; [ exact Hg2f | reflexivity ] ].
  rewrite <- Hst, <- Hst'. reflexivity.
Qed.

End Properties.

(** ** The iterations of a run, as equations *)

Section Iterations.
Context {F : Type} `{NF : NaNScalar F} {CF : Collaborators F}.

Lemma same_setup_refl (s : BCLPNorm (F := F)) : same_setup s s.
Proof. repeat split. Qed.

Lemma same_setup_trans (s1 s2 s3 : BCLPNorm (F := F)) :
  same_setup s1 s2 -> same_setup s2 s3 -> same_setup s1 s3.
Proof.
  unfold same_setup.
  intros (? & ? & ? & ? & ? & ? & ? & ? & ? & ? & ? & ? & ? & ? & ? & ? & ?)
         (? & ? & ? & ? & ? & ? & ? & ? & ? & ? & ? & ? & ? & ? & ? & ? & ?).
  repeat split; congruence.
Qed.

Lemma same_setup_evaluated (s : BCLPNorm) (d : vol F) (l t : F) :
  same_setup s (evaluated (refresh s d) l t).
Proof. repeat split. Qed.

Lemma input_dose_setup (sh : list nat) (s s' : BCLPNorm) (g : ndarray F) :
  same_setup s s' -> input_dose sh s' g = input_dose sh s g.
Proof.
  intros (_ & Ht & _ & _ & _ & _ & _ & _ & _ & _ & _ & _ & _ & _ & HP & _).
  unfold input_dose, dose_of. now rewrite Ht, HP.
Qed.

Lemma input_loss_setup (sh : list nat) (s s' : BCLPNorm) (g : ndarray F) :
  same_setup s s' -> input_loss sh s' g = input_loss sh s g.
Proof.
  intros Hs. unfold input_loss. cbv zeta. rewrite (input_dose_setup sh s s' g Hs).
  destruct Hs as (Htg & _ & Hrm & He & Hw & Hp & Hq & _ & _ & _ & _ & Hdv & _).
  unfold loss_value, violation_of, error_from_band_of, error_from_target_of,
    mapped_of.
  now rewrite Htg, Hrm, He, Hw, Hp, Hq, Hdv.
Qed.

Lemma input_loss_data (sh : list nat) (s : BCLPNorm) (g g' : ndarray F) :
  data g' = data g -> input_loss sh s g' = input_loss sh s g.
Proof. intros E. unfold input_loss, input_dose. now rewrite E. Qed.

Lemma count_kind_cons (K : event_kind) (ev : event F) (tr : list (event F)) :
  count_kind K (ev :: tr) =
  ((if kind_eqb (kind_of ev) K then 1 else 0) + count_kind K tr)%nat.
Proof. unfold count_kind. cbn [List.filter]. now destruct (kind_eqb _ _). Qed.

Lemma impose_shape (s : BCLPNorm) (g g2 : ndarray F) :
  imposeSinogramConstraints s g = Success g2 -> shape g2 = shape g.
Proof.
  unfold imposeSinogramConstraints.
  destruct (bit_depth s); [ destruct (np_amax g); [ | discriminate ] | ];
    now intros [= <-].
Qed.

(** [computeLoss] then [callback] with a live plot. *)
Lemma evaluate_eq (s0 s : BCLPNorm) (d : vol F) (w : World F) (g : ndarray F) :
  stamps_agree s0 -> refreshed s0 g = Success s -> cached s d ->
  0 <= curr_iter (logs s) < Z.of_nat (length (loss (logs s))) ->
  0 <= curr_iter (logs s) < Z.of_nat (length (iter_times (logs s))) ->
  verbose s = Plot -> (exists h, dp s = Some h) ->
  (let* _ := computeLoss g in callback g) s0 w =
  Ok tt
    (evaluated s (loss_value s (violation_of s d) (error_from_band_of s d))
       (perf_counter (ticks w)))
    (evaluated_world s
       (loss_value s (violation_of s d) (error_from_band_of s d)) w).
Proof.
  intros Hs0 Hr Hc Hi1 Hi2 Hv [h Hdp].
  cbv [bind]. rewrite (computeLoss_eq _ _ _ _ _ Hs0 Hr Hc). cbv zeta.
  rewrite (py_setitem_in_range _ _ _ Hi1).
  rewrite callback_eq. unfold recordIterTime.
  change (logs (with_loss ?ls s)) with (set_loss ls (logs s)).
  change (iter_times (set_loss ?ls (logs s))) with (iter_times (logs s)).
  change (curr_iter (set_loss ?ls (logs s))) with (curr_iter (logs s)).
  rewrite (py_setitem_in_range _ _ _ Hi2).
  unfold progress_line.
  change (verbose (with_loss ?ls s)) with (verbose s). rewrite Hv.
  cbn [verbose_eqb orb].
  change (iter_times (set_iter_times ?ts ?l)) with ts.
  change (curr_iter (set_iter_times ?ts (set_loss ?ls (logs s))))
    with (curr_iter (logs s)).
  rewrite (py_setitem_getitem (iter_times (logs s)) _ (curr_iter (logs s)) _
             (py_setitem_in_range _ _ _ Hi2)).
  change (dp (with_loss ?ls s)) with (dp s). rewrite Hdp.
  reflexivity.
Qed.

(** The same two calls without a plot: the loss is stored, the time is
    recorded, and [self.dp] is missing. *)
Lemma evaluate_unplotted (s0 s : BCLPNorm) (d : vol F) (w : World F)
    (g : ndarray F) :
  stamps_agree s0 -> refreshed s0 g = Success s -> cached s d ->
  0 <= curr_iter (logs s) < Z.of_nat (length (loss (logs s))) ->
  0 <= curr_iter (logs s) < Z.of_nat (length (iter_times (logs s))) ->
  verbose s <> Plot -> dp s = None ->
  (let* _ := computeLoss g in callback g) s0 w =
  Raise AttributeError
    (unplotted_world s
       (loss_value s (violation_of s d) (error_from_band_of s d)) w).
Proof.
  intros Hs0 Hr Hc Hi1 Hi2 Hv Hdp.
  cbv [bind]. rewrite (computeLoss_eq _ _ _ _ _ Hs0 Hr Hc). cbv zeta.
  rewrite (py_setitem_in_range _ _ _ Hi1).
  rewrite callback_eq. unfold recordIterTime.
  change (logs (with_loss ?ls s)) with (set_loss ls (logs s)).
  change (iter_times (set_loss ?ls (logs s))) with (iter_times (logs s)).
  change (curr_iter (set_loss ?ls (logs s))) with (curr_iter (logs s)).
  rewrite (py_setitem_in_range _ _ _ Hi2).
  unfold progress_line.
  change (verbose (with_loss ?ls s)) with (verbose s).
  change (iter_times (set_iter_times ?ts ?l)) with ts.
  change (curr_iter (set_iter_times ?ts (set_loss ?ls (logs s))))
    with (curr_iter (logs s)).
  rewrite (py_setitem_getitem (iter_times (logs s)) _ (curr_iter (logs s)) _
             (py_setitem_in_range _ _ _ Hi2)).
  change (dp (with_loss ?ls s)) with (dp s). rewrite Hdp.
  unfold unplotted_world.
  destruct (verbose s); [ reflexivity | reflexivity | now contradiction Hv ].
Qed.

Lemma plotting_evaluated (n : nat) (sh : list nat) (k : nat) (s : BCLPNorm)
    (d : vol F) (l t : F) :
  plotting n sh k s -> plotting n sh (S k) (evaluated (refresh s d) l t).
Proof.
  intros (Hst & Hd & Hci & Hll & Hlt & Hn & Hv & Hdp & Hp & Hb).
  unfold plotting, projector_contract.
  repeat split; cbn; rewrite ?length_insert;
    try apply Hp; try assumption; try lia.
Qed.


Lemma lookup_py_getitem (xs : list F) (i : nat) (x : F) :
  xs !! i = Some x -> py_getitem xs (Z.of_nat i) = Success x.
Proof.
  intros Hx. unfold py_getitem.
  rewrite py_index_nonneg.
  - now rewrite Nat2Z.id, Hx.
  - apply lookup_lt_Some in Hx. lia.
Qed.

(** One iteration of the loop at the iteration index [k <= n]: the cache is
    rebuilt from the sinogram passed, the step is taken, and the loss of the
    sinogram passed is stored. *)
Lemma iteration_eq (n : nat) (sh : list nat) (k : nat) (s : BCLPNorm)
    (w : World F) (g : ndarray F) :
  plotting n sh k s -> (1 <= k <= n)%nat -> flat_or_native sh g ->
  exists x g2,
    loss (logs s) !! (k - 1)%nat = Some x /\
    step sh s x g = Success g2 /\
    flat_or_native sh g2 /\ shape g2 = shape g /\
    forall m, descend (S m) g s w =
      descend m g2
        (evaluated (refresh s (input_dose sh s g)) (input_loss sh s g)
           (perf_counter (ticks w)))
        (evaluated_world (refresh s (input_dose sh s g)) (input_loss sh s g)
           (logged (EvLossRead (Z.of_nat (k - 1)) x) w)).
Proof.
  intros (Hst & Hd & Hci & Hll & Hlt & Hn & Hv & Hdp & Hp & Hb) Hk Hflat.
  set (d := input_dose sh s g).
  set (s1 := refresh s d).
  assert (Hr : refreshed s g = Success s1).
  { unfold refreshed.
    destruct (Z.eqb_spec (dose_iter s) (curr_iter (logs s))); [ lia | ].
    now rewrite (cylindrical_of_flat sh s g (proj1 Hp) Hflat). }
  destruct (lookup_lt_is_Some_2 (loss (logs s)) (k - 1)) as [x Hx]; [ lia | ].
  pose proof (lookup_py_getitem _ _ _ Hx) as Hx'.
  destruct (flattened_of_flat sh s (gradient_of s d x)) as (gr & Hgr & Hgd & Hgf).
  { destruct (proj2 Hp (gradient_operand s (violation_of s d)
                          (error_from_band_of s d) (error_from_target_of s d) d))
      as [Hshape Hwf].
    split; [ | left; exact Hshape ].
    unfold gradient_of, nd_map. cbn [data]. rewrite length_map.
    unfold wf_ndarray in Hwf. now rewrite <- Hshape. }
  set (g1 := nd_zip fsub g (nd_map (fmul (learning_rate s)) gr)).
  destruct (impose_of_flat sh s g1) as (g2 & Hg2 & Hg2f).
  { apply flat_nd_zip; [ exact Hflat | ].
    unfold nd_map. cbn [data]. rewrite length_map. apply Hgf. }
  { exact Hb. }
  set (w1 := logged (EvLossRead (Z.of_nat (k - 1)) x) w).
  assert (Hr1 : refreshed s1 g2 = Success s1).
  { unfold refreshed.
    change (dose_iter s1) with (curr_iter (logs s1)). now rewrite Z.eqb_refl. }
  assert (Hi1 : 0 <= curr_iter (logs s1) < Z.of_nat (length (loss (logs s1)))).
  { change (logs s1) with (logs s). rewrite Hll. lia. }
  assert (Hi2 : 0 <= curr_iter (logs s1) < Z.of_nat (length (iter_times (logs s1)))).
  { change (logs s1) with (logs s). rewrite Hlt. lia. }
  pose proof (evaluate_eq s1 s1 d w1 g2 (proj1 (stamps_refresh s d)) Hr1
                (cached_refresh s d) Hi1 Hi2 Hv Hdp) as Hev.
  exists x, g2.
  split; [ exact Hx | ].
  split; [ unfold step; fold d; rewrite Hgr; exact Hg2 | ].
  split; [ exact Hg2f | ].
  split; [ exact (impose_shape _ _ _ Hg2) | ].
  intros m. cbn [descend]. unfold bind at 1.
  rewrite (computeLossGradient_eq _ _ _ _ _ Hst Hr (cached_refresh _ _)).
  change (logs s1) with (logs s).
  replace (curr_iter (logs s) - 1) with (Z.of_nat (k - 1)) by lia.
  rewrite Hx'. cbv zeta. fold w1.
  change (checkSinogramShape s1 (gradient_of s1 d x) Flattened)
    with (checkSinogramShape s (gradient_of s d x) Flattened).
  rewrite Hgr.
  unfold bind at 1, get at 1. unfold bind at 1.
  change (imposeSinogramConstraints s1
            (nd_zip fsub g (nd_map (fmul (learning_rate s1)) gr)))
    with (imposeSinogramConstraints s g1).
  rewrite Hg2.
  cbn [lift ret]. unfold bind in Hev |- *.
  destruct (computeLoss g2 s1 w1) as [l s2 w2 | e w2]; [ | discriminate ].
  destruct (callback g2 s2 w2) as [u s3 w3 | e w3]; [ | discriminate ].
  now injection Hev as _ -> ->.
Qed.

(** The iteration after the last slot of the loss is written: the gradient
    is computed, then [computeLoss] has no slot left. *)
Lemma iteration_exhausted (n : nat) (sh : list nat) (s : BCLPNorm)
    (w : World F) (g : ndarray F) (m : nat) :
  plotting n sh (n + 1) s -> flat_or_native sh g ->
  exists x,
    loss (logs s) !! n = Some x /\
    descend (S m) g s w =
      Raise IndexError (logged (EvLossRead (Z.of_nat n) x) w).
Proof.
  intros (Hst & Hd & Hci & Hll & Hlt & Hn & Hv & Hdp & Hp & Hb) Hflat.
  set (d := input_dose sh s g).
  set (s1 := refresh s d).
  assert (Hr : refreshed s g = Success s1).
  { unfold refreshed.
    destruct (Z.eqb_spec (dose_iter s) (curr_iter (logs s))); [ lia | ].
    now rewrite (cylindrical_of_flat sh s g (proj1 Hp) Hflat). }
  destruct (lookup_lt_is_Some_2 (loss (logs s)) n) as [x Hx]; [ lia | ].
  pose proof (lookup_py_getitem _ _ _ Hx) as Hx'.
  destruct (flattened_of_flat sh s (gradient_of s d x)) as (gr & Hgr & Hgd & Hgf).
  { destruct (proj2 Hp (gradient_operand s (violation_of s d)
                          (error_from_band_of s d) (error_from_target_of s d) d))
      as [Hshape Hwf].
    split; [ | left; exact Hshape ].
    unfold gradient_of, nd_map. cbn [data]. rewrite length_map.
    unfold wf_ndarray in Hwf. now rewrite <- Hshape. }
  set (g1 := nd_zip fsub g (nd_map (fmul (learning_rate s)) gr)).
  destruct (impose_of_flat sh s g1) as (g2 & Hg2 & Hg2f).
  { apply flat_nd_zip; [ exact Hflat | ].
    unfold nd_map. cbn [data]. rewrite length_map. apply Hgf. }
  { exact Hb. }
  set (w1 := logged (EvLossRead (Z.of_nat n) x) w).
  assert (Hr1 : refreshed s1 g2 = Success s1).
  { unfold refreshed.
    change (dose_iter s1) with (curr_iter (logs s1)). now rewrite Z.eqb_refl. }
  exists x. split; [ exact Hx | ].
  cbn [descend]. unfold bind at 1.
  rewrite (computeLossGradient_eq _ _ _ _ _ Hst Hr (cached_refresh _ _)).
  change (logs s1) with (logs s).
  replace (curr_iter (logs s) - 1) with (Z.of_nat n) by lia.
  rewrite Hx'. cbv zeta. fold w1.
  change (checkSinogramShape s1 (gradient_of s1 d x) Flattened)
    with (checkSinogramShape s (gradient_of s d x) Flattened).
  rewrite Hgr.
  unfold bind at 1, get at 1. unfold bind at 1.
  change (imposeSinogramConstraints s1
            (nd_zip fsub g (nd_map (fmul (learning_rate s1)) gr)))
    with (imposeSinogramConstraints s g1).
  rewrite Hg2.
  cbn [lift ret]. unfold bind at 1.
  rewrite (computeLoss_eq _ _ _ _ _ (proj1 (stamps_refresh s d)) Hr1
             (cached_refresh s d)).
  cbv zeta. change (logs s1) with (logs s).
  unfold py_setitem, py_index. rewrite Hll, Hci.
  destruct (Z.leb_spec 0 (Z.of_nat (n + 1))); [ | lia ].
  destruct (Z.ltb_spec (Z.of_nat (n + 1)) (Z.of_nat (n + 1))); [ lia | ].
  reflexivity.
Qed.

Lemma count_evaluated (K : event_kind) (s : BCLPNorm) (l : F) (w : World F) :
  count_kind K (trace (evaluated_world s l w)) =
  (per_evaluation K + count_kind K (trace w))%nat.
Proof.
  unfold evaluated_world. cbn [trace].
  rewrite !count_kind_cons. destruct K; reflexivity.
Qed.

Lemma step_setup (sh : list nat) (s s' : BCLPNorm) (x : F) (g : ndarray F) :
  same_setup s s' -> step sh s' x g = step sh s x g.
Proof.
  intros Hs. unfold step. rewrite (input_dose_setup sh s s' g Hs).
  destruct Hs as (Htg & Hts & Hrm & He & Hw & Hp & Hq & Hlr & Hgl & Hgu & Hbd
                  & Hdv & _ & _ & HP & _).
  unfold checkSinogramShape, imposeSinogramConstraints, gradient_of,
    gradient_scale, gradient_operand, violation_of, error_from_band_of,
    error_from_target_of, mapped_of.
  now rewrite Htg, Hrm, He, Hw, Hp, Hq, Hlr, Hgl, Hgu, Hbd, HP.
Qed.

Lemma inputs_setup (sh : list nat) (s s' : BCLPNorm) (m : nat) :
  same_setup s s' ->
  forall x g, inputs sh s' m x g = inputs sh s m x g.
Proof.
  intros Hs. induction m as [ | m IH]; intros x g; cbn [inputs].
  - reflexivity.
  - rewrite (step_setup sh s s' x g Hs), (input_loss_setup sh s s' g Hs).
    destruct (step sh s x g); [ now rewrite IH | reflexivity ].
Qed.

Lemma iterate_setup (sh : list nat) (s s' : BCLPNorm) (m : nat) :
  same_setup s s' ->
  forall x g, iterate sh s' m x g = iterate sh s m x g.
Proof.
  intros Hs. induction m as [ | m IH]; intros x g; cbn [iterate].
  - reflexivity.
  - rewrite (step_setup sh s s' x g Hs), (input_loss_setup sh s s' g Hs).
    destruct (step sh s x g); [ now rewrite IH | reflexivity ].
Qed.

Lemma map_input_loss_setup (sh : list nat) (s s' : BCLPNorm)
    (gs : list (ndarray F)) :
  same_setup s s' ->
  List.map (input_loss sh s') gs = List.map (input_loss sh s) gs.
Proof.
  intros Hs. apply List.map_ext. intros g. now apply input_loss_setup.
Qed.

(** The loop from the iteration index [k] to the end of the budget. *)
Lemma descend_eq (n : nat) (sh : list nat) (m : nat) :
  forall (k : nat) (s : BCLPNorm) (w : World F) (g : ndarray F),
  plotting n sh k s -> (1 <= k)%nat -> (k + m = n + 1)%nat ->
  flat_or_native sh g ->
  exists g' s' w',
    descend m g s w = Ok g' s' w' /\
    plotting n sh (n + 1) s' /\
    flat_or_native sh g' /\ shape g' = shape g /\
    same_setup s s' /\
    (forall i, (i < k)%nat -> loss (logs s') !! i = loss (logs s) !! i) /\
    (forall K, count_kind K (trace w') =
               (m * per_iteration K + count_kind K (trace w))%nat) /\
    ticks w' = (m + ticks w)%nat /\
    (forall x0, loss (logs s) !! (k - 1)%nat = Some x0 ->
       loss (logs s') =
         take k (loss (logs s)) ++
         List.map (input_loss sh s') (inputs sh s' m x0 g) /\
       iterate sh s' m x0 g = Success g') /\
    (m <> 0%nat ->
     exists gp x,
       flat_or_native sh gp /\
       loss (logs s') !! (n - 1)%nat = Some x /\
       step sh s' x gp = Success g' /\
       dose s' = Some (input_dose sh s' gp) /\
       loss (logs s') !! n = Some (input_loss sh s' gp)).
Proof.
  induction m as [ | m IH]; intros k s w g Hpl Hk Hkm Hflat.
  - exists g, s, w. replace (n + 1)%nat with k by lia.
    split; [ reflexivity | ]. split; [ exact Hpl | ].
    split; [ exact Hflat | ]. split; [ reflexivity | ].
    split; [ apply same_setup_refl | ]. split; [ reflexivity | ].
    split; [ reflexivity | ]. split; [ reflexivity | ].
    split; [ | congruence ].
    intros x0 _. cbn. rewrite app_nil_r. split; [ | reflexivity ].
    symmetry. apply take_ge. destruct Hpl as (_ & _ & _ & Hll & _). lia.
  - destruct (iteration_eq n sh k s w g Hpl ltac:(lia) Hflat)
      as (x & g2 & Hx & Hstep & Hf2 & Hsh2 & Hrun).
    set (s2 := evaluated _ _ _) in Hrun. set (w2 := evaluated_world _ _ _) in Hrun.
    assert (Hpl2 : plotting n sh (S k) s2) by (now apply plotting_evaluated).
    destruct (IH (S k) s2 w2 g2 Hpl2 ltac:(lia) ltac:(lia) Hf2)
      as (g' & s' & w' & Hrun' & Hpl' & Hf' & Hsh' & Hset' & Hfr' & Hcnt' & Htk'
          & Hlog' & Hlast').
    assert (Hlen : (k < length (loss (logs s)))%nat).
    { destruct Hpl as (_ & _ & _ & Hll & _). rewrite Hll. lia. }
    exists g', s', w'. rewrite Hrun, Hrun'.
    split; [ reflexivity | ]. split; [ exact Hpl' | ].
    split; [ exact Hf' | ]. split; [ congruence | ].
    split; [ exact (same_setup_trans _ _ _ (same_setup_evaluated _ _ _ _) Hset') | ].
    split.
    { intros i Hi. rewrite Hfr' by lia.
      subst s2. cbn [evaluated logs set_logs loss set_curr_iter set_iter_times set_loss].
      change (logs (refresh s (input_dose sh s g))) with (logs s).
      destruct Hpl as (_ & _ & Hci & _). rewrite Hci, Nat2Z.id.
      apply list_lookup_insert_ne. lia. }
    split.
    { intros K. rewrite Hcnt'. subst w2. rewrite count_evaluated.
      unfold logged. cbn [trace]. rewrite count_kind_cons.
      destruct K; cbn; lia. }
    split.
    { rewrite Htk'. subst w2. cbn. lia. }
    assert (Hset : same_setup s s')
      by exact (same_setup_trans _ _ _ (same_setup_evaluated _ _ _ _) Hset').
    assert (Hl2 : loss (logs s2) = <[k := input_loss sh s g]> (loss (logs s))).
    { subst s2. cbn [evaluated logs set_logs loss set_curr_iter set_iter_times set_loss].
      change (logs (refresh s (input_dose sh s g))) with (logs s).
      destruct Hpl as (_ & _ & Hci & _). now rewrite Hci, Nat2Z.id. }
    split.
    { intros x0 Hx0. rewrite Hx in Hx0. injection Hx0 as <-.
      destruct (Hlog' (input_loss sh s g)) as [Hlog Hit].
      { replace (S k - 1)%nat with k by lia. rewrite Hl2.
        now apply list_lookup_insert_eq. }
      cbn [inputs iterate].
      rewrite (step_setup sh s s' x g Hset), Hstep,
        (input_loss_setup sh s s' g Hset).
      split; [ | exact Hit ].
      rewrite Hlog, Hl2.
      rewrite (take_S_r _ k (input_loss sh s g))
        by (now apply list_lookup_insert_eq).
      rewrite take_insert_ge by lia. rewrite <- app_assoc.
      cbn [List.map app]. now rewrite (input_loss_setup sh s s' g Hset). }
    intros _. destruct m as [ | m].
    + cbn in Hrun'. injection Hrun' as <- <- <-.
      assert (Hkn : k = n) by lia. subst k.
      exists g, x. split; [ exact Hflat | ].
      destruct Hpl as (_ & _ & Hci & _).
      split; [ | split; [ exact Hstep | split; [ reflexivity | ] ] ].
      * subst s2. cbn [evaluated logs set_logs loss set_curr_iter set_iter_times set_loss].
        change (logs (refresh s (input_dose sh s g))) with (logs s).
        rewrite Hci, Nat2Z.id.
        rewrite list_lookup_insert_ne by lia. exact Hx.
      * subst s2. cbn [evaluated logs set_logs loss set_curr_iter set_iter_times set_loss].
        change (logs (refresh s (input_dose sh s g))) with (logs s).
        rewrite Hci, Nat2Z.id.
        now apply list_lookup_insert_eq.
    + apply Hlast'. discriminate.
Qed.

Lemma length_flat_shape (sh : list nat) : (length (flat_shape sh) <= 1)%nat.
Proof.
  unfold flat_shape. destruct (Nat.ltb_spec 1 (length sh)); cbn; lia.
Qed.

Lemma flattened_id (s : BCLPNorm) (g : ndarray F) :
  (length (shape g) <= 1)%nat -> checkSinogramShape s g Flattened = Success g.
Proof.
  intros Hl. unfold checkSinogramShape.
  destruct (Nat.ltb_spec 1 (length (shape g))); [ lia | reflexivity ].
Qed.

Lemma flattened_shape (s : BCLPNorm) (g gr : ndarray F) :
  checkSinogramShape s g Flattened = Success gr ->
  shape gr = flat_shape (shape g).
Proof.
  unfold checkSinogramShape, flat_shape, np_reshape.
  destruct (1 <? length (shape g))%nat.
  - destruct (_ =? _)%nat; [ | discriminate ].
    intros [= <-]. reflexivity.
  - now intros [= <-].
Qed.

(** [__init__] in mode 'plot'. *)
Lemma BCLPNorm_init_eq (target_geo_ : TargetGeometry.t F)
    (proj_geo_ : ProjectionGeometry.t) (opts : Options.t F) (w : World F)
    (sh : list nat) :
  Options.verbose opts = Plot ->
  ProjectionGeometry.n_angles proj_geo_ <> 0%nat ->
  shape_contract target_geo_ proj_geo_ sh ->
  (Options.bit_depth opts <> None -> np_product sh <> 0%nat) ->
  exists s w',
    BCLPNorm_init target_geo_ proj_geo_ opts w = Ok tt s w' /\
    plotting (Options.n_iter opts) sh 1 s /\
    flat_or_native sh (g0 s) /\ shape (g0 s) = sh /\
    dose s = Some (input_dose sh s (g0 s)) /\
    loss (logs s) !! 0%nat = Some (input_loss sh s (g0 s)) /\
    (forall K,
       count_kind K (trace w') =
       (per_evaluation K +
        per_construction
          (negb (ResponseModel.checkResponseTarget (Options.response_model opts)
                   (TargetGeometry.array target_geo_))) K +
        count_kind K (trace w))%nat) /\
    ticks w' = (2 + ticks w)%nat /\
    t0 (logs s) = perf_counter (ticks w) /\
    iter_times (logs s) !! 0%nat =
      Some (fsub (perf_counter (S (ticks w))) (perf_counter (ticks w))) /\
    options (logs s) = opts /\
    norm_arrays (logs s) = repeat (nan_array (Options.n_iter opts + 1)) 9.
Proof.
  intros Hv Hn [HP Hf] Hb. unfold BCLPNorm_init.
  destruct (ProjectionGeometry.n_angles proj_geo_) as [ | a] eqn:Ha;
    [ congruence | ].
  cbv zeta. rewrite Hv. cbn [verbose_eqb].
  set (w3 := if ResponseModel.checkResponseTarget _ _ then _ else _).
  assert (Hw3 : forall K,
             count_kind K (trace w3) =
             (per_construction
                (negb (ResponseModel.checkResponseTarget (Options.response_model opts)
                         (TargetGeometry.array target_geo_))) K +
              count_kind K (trace w))%nat).
  { intros K. subst w3.
    destruct (ResponseModel.checkResponseTarget _ _); cbn [trace negb];
      rewrite !count_kind_cons; destruct K; reflexivity. }
  assert (Ht3 : ticks w3 = S (ticks w)).
  { subst w3. now destruct (ResponseModel.checkResponseTarget _ _). }
  clearbody w3.
  set (s0 := BCLPNorm_attributes _ _ _ _).
  unfold BCLPNorm_evaluate_initialization.
  unfold bind at 1, get at 1. unfold bind at 1, modify at 1.
  unfold bind at 1, get at 1. unfold bind at 1.
  set (sf := set_g0 _ s0).
  destruct (Hf (Projector.forward (projectorconstructor target_geo_ proj_geo_)
                  (ResponseModel.map_inv (Options.response_model opts)
                     (TargetGeometry.array target_geo_)))
               (Options.filter opts)) as [Hfs Hfl].
  destruct (HP (ResponseModel.map_inv (Options.response_model opts)
                  (TargetGeometry.array target_geo_))) as [Hps Hpw].
  destruct (impose_of_flat sh sf (g0 sf)) as (g & Hg & Hgf).
  { subst sf. cbn [g0 set_g0 s0 BCLPNorm_attributes].
    split; [ | left; congruence ].
    rewrite Hfl. unfold wf_ndarray in Hpw. congruence. }
  { exact Hb. }
  assert (Hgs : shape g = sh).
  { rewrite (impose_shape _ _ _ Hg). subst sf.
    cbn [g0 set_g0 s0 BCLPNorm_attributes]. congruence. }
  rewrite Hg. cbn [lift ret].
  unfold bind at 1, modify at 1. unfold bind at 1, get at 1.
  set (s1 := set_g0 g sf).
  assert (Hstamps : stamps_agree s1) by (repeat split).
  set (d := dose_of s1 (mk_ndarray sh (data g))).
  assert (Hsh : g0_shape s1 = sh) by apply HP.
  assert (Hr : refreshed s1 (g0 s1) = Success (refresh s1 d)).
  { unfold refreshed. change (dose_iter s1 =? curr_iter (logs s1)) with false.
    now rewrite (cylindrical_of_flat sh s1 (g0 s1) Hsh Hgf). }
  assert (Hdp : exists h, dp s1 = Some h).
  { cbn. rewrite Hv. cbn. eauto. }
  assert (Hll : length (loss (logs s1)) = (Options.n_iter opts + 1)%nat).
  { cbn. apply length_nan_array. }
  assert (Hlt : length (iter_times (logs s1)) = (Options.n_iter opts + 1)%nat).
  { cbn. apply repeat_length. }
  assert (Hpl : plotting (Options.n_iter opts) sh 0 s1).
  { unfold plotting.
    split; [ exact Hstamps | ]. split; [ reflexivity | ].
    split; [ reflexivity | ]. split; [ exact Hll | ]. split; [ exact Hlt | ].
    split; [ reflexivity | ]. split; [ exact Hv | ]. split; [ exact Hdp | ].
    split; [ | exact Hb ]. split; [ exact Hsh | exact HP ]. }
  assert (Hi1 : 0 <= curr_iter (logs (refresh s1 d))
                  < Z.of_nat (length (loss (logs (refresh s1 d))))).
  { change (logs (refresh s1 d)) with (logs s1). rewrite Hll. cbn. lia. }
  assert (Hi2 : 0 <= curr_iter (logs (refresh s1 d))
                  < Z.of_nat (length (iter_times (logs (refresh s1 d))))).
  { change (logs (refresh s1 d)) with (logs s1). rewrite Hlt. cbn. lia. }
  pose proof (evaluate_eq s1 (refresh s1 d) d w3 (g0 s1) Hstamps Hr
                (cached_refresh s1 d) Hi1 Hi2 Hv Hdp) as Hev.
  do 2 eexists. split; [ exact Hev | ].
  split; [ now apply plotting_evaluated | ].
  split; [ exact Hgf | ]. split; [ exact Hgs | ].
  split; [ reflexivity | ].
  split.
  { cbn [evaluated logs set_logs loss set_curr_iter set_iter_times set_loss].
    change (logs (refresh s1 d)) with (logs s1).
    change (curr_iter (logs s1)) with 0.
    apply list_lookup_insert_eq. rewrite Hll. cbn. lia. }
  split.
  { intros K. rewrite count_evaluated, Hw3. lia. }
  split; [ cbn; now rewrite Ht3 | ].
  split; [ reflexivity | ].
  cbn [evaluated logs set_logs loss iter_times t0 set_curr_iter set_iter_times
       set_loss].
  change (logs (refresh s1 d)) with (logs s1).
  change (curr_iter (logs s1)) with 0. rewrite Ht3.
  split; [ apply list_lookup_insert_eq; rewrite Hlt; cbn; lia | ].
  split; reflexivity.
Qed.

(** [minimizeBCLP] in mode 'plot': the construction, the loop and the
    object and the world the run ends with. *)
Lemma minimizeBCLP_eq (target_geo_ : TargetGeometry.t F)
    (proj_geo_ : ProjectionGeometry.t) (opts : Options.t F) (w : World F)
    (sh : list nat) :
  Options.verbose opts = Plot ->
  ProjectionGeometry.n_angles proj_geo_ <> 0%nat ->
  shape_contract target_geo_ proj_geo_ sh ->
  (Options.bit_depth opts <> None -> np_product sh <> 0%nat) ->
  exists s1 w1 gr g' s' w',
    BCLPNorm_init target_geo_ proj_geo_ opts w = Ok tt s1 w1 /\
    plotting (Options.n_iter opts) sh 1 s1 /\
    shape (g0 s1) = sh /\
    loss (logs s1) !! 0%nat = Some (input_loss sh s1 (g0 s1)) /\
    dose s1 = Some (input_dose sh s1 (g0 s1)) /\
    checkSinogramShape s1 (g0 s1) Flattened = Success gr /\
    flat_or_native sh gr /\ data gr = data (g0 s1) /\ shape gr = flat_shape sh /\
    descend (Options.n_iter opts) gr s1 w1 = Ok g' s' w' /\
    plotting (Options.n_iter opts) sh (Options.n_iter opts + 1) s' /\
    flat_or_native sh g' /\ shape g' = flat_shape sh /\
    same_setup s1 s' /\
    loss (logs s') =
      input_loss sh s' (g0 s') ::
      List.map (input_loss sh s')
        (inputs sh s' (Options.n_iter opts) (input_loss sh s' (g0 s')) gr) /\
    iterate sh s' (Options.n_iter opts) (input_loss sh s' (g0 s')) gr =
      Success g' /\
    (Options.n_iter opts <> 0%nat ->
     exists gp x,
       flat_or_native sh gp /\
       loss (logs s') !! (Options.n_iter opts - 1)%nat = Some x /\
       step sh s' x gp = Success g' /\
       dose s' = Some (input_dose sh s' gp) /\
       loss (logs s') !! Options.n_iter opts = Some (input_loss sh s' gp)) /\
    (forall K,
       count_kind K (trace (logged EvPlotIoff w')) =
       (per_run (Options.n_iter opts)
          (negb (ResponseModel.checkResponseTarget (Options.response_model opts)
                   (TargetGeometry.array target_geo_))) K +
        count_kind K (trace w))%nat) /\
    ticks w' = (Options.n_iter opts + 2 + ticks w)%nat /\
    minimizeBCLP target_geo_ proj_geo_ opts w =
      Ok (mk_Returned g' (dose s') (logs s')) s' (logged EvPlotIoff w').
Proof.
  intros Hv Hn Hc Hb.
  destruct (BCLPNorm_init_eq _ _ _ w sh Hv Hn Hc Hb)
    as (s1 & w1 & Hinit & Hpl & Hgf & Hgs & Hdose & Hl0 & Hcnt & Htk & _).
  destruct (flattened_of_flat sh s1 (g0 s1) Hgf) as (gr & Hgr & Hgd & Hgrf).
  pose proof (flattened_shape _ _ _ Hgr) as Hgrs. rewrite Hgs in Hgrs.
  assert (H1 : (1 <= 1)%nat) by lia.
  assert (H2 : (1 + Options.n_iter opts = Options.n_iter opts + 1)%nat) by lia.
  destruct (descend_eq (Options.n_iter opts) sh (Options.n_iter opts) 1
              s1 w1 gr Hpl H1 H2 Hgrf)
    as (g' & s' & w' & Hrun & Hpl' & Hf' & Hsh' & Hset & Hfr & Hcnt' & Htk'
        & Hlog & Hlast).
  assert (Hg0 : g0 s' = g0 s1) by apply Hset.
  assert (HL0 : input_loss sh s' (g0 s') = input_loss sh s1 (g0 s1)).
  { rewrite Hg0. now apply input_loss_setup. }
  destruct (Hlog (input_loss sh s1 (g0 s1)) Hl0) as [Hlog1 Hit].
  exists s1, w1, gr, g', s', w'.
  split; [ exact Hinit | ]. split; [ exact Hpl | ]. split; [ exact Hgs | ].
  split; [ exact Hl0 | ]. split; [ exact Hdose | ]. split; [ exact Hgr | ].
  split; [ exact Hgrf | ].
  split; [ exact Hgd | ]. split; [ exact Hgrs | ]. split; [ exact Hrun | ].
  split; [ exact Hpl' | ]. split; [ exact Hf' | ]. split; [ congruence | ].
  split; [ exact Hset | ].
  split.
  { rewrite Hlog1, HL0. now rewrite (take_S_r _ 0 _ Hl0). }
  split; [ now rewrite HL0 | ].
  split; [ exact Hlast | ].
  split.
  { intros K. unfold logged. cbn [trace].
    rewrite count_kind_cons, Hcnt', Hcnt. destruct K; cbn;
      destruct (ResponseModel.checkResponseTarget _ _); cbn; lia. }
  split; [ lia | ].
  unfold minimizeBCLP. rewrite Hinit.
  unfold bind at 1, gradientDescent. unfold bind at 1, get at 1.
  unfold bind at 1. rewrite Hgr. cbn [lift ret].
  pose proof Hpl as (_ & _ & _ & _ & _ & Hni & _).
  rewrite Hni, Hrun.
  cbv [bind get].
  rewrite (flattened_id s' g') by (rewrite Hsh', Hgrs; apply length_flat_shape).
  cbn [lift ret].
  destruct Hpl' as (_ & _ & _ & _ & _ & _ & Hv' & [h Hdp] & _).
  rewrite Hv', Hdp. reflexivity.
Qed.

(** [__init__] in the modes 'off' and 'time'. *)
Lemma BCLPNorm_init_unplotted (target_geo_ : TargetGeometry.t F)
    (proj_geo_ : ProjectionGeometry.t) (opts : Options.t F) (w : World F)
    (sh : list nat) :
  Options.verbose opts <> Plot ->
  ProjectionGeometry.n_angles proj_geo_ <> 0%nat ->
  shape_contract target_geo_ proj_geo_ sh ->
  (Options.bit_depth opts <> None -> np_product sh <> 0%nat) ->
  exists l t,
    BCLPNorm_init target_geo_ proj_geo_ opts w =
    Raise AttributeError
      (mk_World (2 + ticks w)
         ((if verbose_eqb (Options.verbose opts) Time then [EvPrint 0 t] else [])
          ++ EvLossWrite 0 l
          :: (if ResponseModel.checkResponseTarget (Options.response_model opts)
                   (TargetGeometry.array target_geo_)
              then [] else [EvWarn])
          ++ trace w)).
Proof.
  intros Hv Hn [HP Hf] Hb. unfold BCLPNorm_init.
  destruct (ProjectionGeometry.n_angles proj_geo_) as [ | a] eqn:Ha;
    [ congruence | ].
  cbv zeta.
  assert (Hvb : verbose_eqb (Options.verbose opts) Plot = false).
  { destruct (Options.verbose opts); [ reflexivity | reflexivity | ].
    now contradiction Hv. }
  rewrite Hvb.
  set (w3 := if ResponseModel.checkResponseTarget _ _ then _ else _).
  assert (Hw3 : w3 = mk_World (S (ticks w))
                       ((if ResponseModel.checkResponseTarget
                               (Options.response_model opts)
                               (TargetGeometry.array target_geo_)
                         then [] else [EvWarn]) ++ trace w)).
  { subst w3. now destruct (ResponseModel.checkResponseTarget _ _). }
  clearbody w3.
  set (s0 := BCLPNorm_attributes _ _ _ _).
  unfold BCLPNorm_evaluate_initialization.
  unfold bind at 1, get at 1. unfold bind at 1, modify at 1.
  unfold bind at 1, get at 1. unfold bind at 1.
  set (sf := set_g0 _ s0).
  destruct (Hf (Projector.forward (projectorconstructor target_geo_ proj_geo_)
                  (ResponseModel.map_inv (Options.response_model opts)
                     (TargetGeometry.array target_geo_)))
               (Options.filter opts)) as [Hfs Hfl].
  destruct (HP (ResponseModel.map_inv (Options.response_model opts)
                  (TargetGeometry.array target_geo_))) as [Hps Hpw].
  destruct (impose_of_flat sh sf (g0 sf)) as (g & Hg & Hgf).
  { subst sf. cbn [g0 set_g0 s0 BCLPNorm_attributes].
    split; [ | left; congruence ].
    rewrite Hfl. unfold wf_ndarray in Hpw. congruence. }
  { exact Hb. }
  rewrite Hg. cbn [lift ret].
  unfold bind at 1, modify at 1. unfold bind at 1, get at 1.
  set (s1 := set_g0 g sf).
  assert (Hstamps : stamps_agree s1) by (repeat split).
  set (d := dose_of s1 (mk_ndarray sh (data g))).
  assert (Hsh : g0_shape s1 = sh) by apply HP.
  assert (Hr : refreshed s1 (g0 s1) = Success (refresh s1 d)).
  { unfold refreshed. change (dose_iter s1 =? curr_iter (logs s1)) with false.
    now rewrite (cylindrical_of_flat sh s1 (g0 s1) Hsh Hgf). }
  assert (Hdp : dp (refresh s1 d) = None).
  { cbn. now rewrite Hvb. }
  assert (Hll : length (loss (logs s1)) = (Options.n_iter opts + 1)%nat).
  { cbn. apply length_nan_array. }
  assert (Hlt : length (iter_times (logs s1)) = (Options.n_iter opts + 1)%nat).
  { cbn. apply repeat_length. }
  assert (Hi1 : 0 <= curr_iter (logs (refresh s1 d))
                  < Z.of_nat (length (loss (logs (refresh s1 d))))).
  { change (logs (refresh s1 d)) with (logs s1). rewrite Hll. cbn. lia. }
  assert (Hi2 : 0 <= curr_iter (logs (refresh s1 d))
                  < Z.of_nat (length (iter_times (logs (refresh s1 d))))).
  { change (logs (refresh s1 d)) with (logs s1). rewrite Hlt. cbn. lia. }
  pose proof (evaluate_unplotted s1 (refresh s1 d) d w3 (g0 s1) Hstamps Hr
                (cached_refresh s1 d) Hi1 Hi2 Hv Hdp) as Hev.
  do 2 eexists. etransitivity; [ exact Hev | ].
  unfold unplotted_world. rewrite Hw3. reflexivity.
Qed.

(** X1. In mode 'plot', with a projector and a filter that keep to one
    shape, a run of [minimizeBCLP] with [n_iter] iterations returns, and by
    then it has written the loss, printed a progress line and updated the
    plot [n_iter + 1] times each, read the previous loss [n_iter] times,
    created the plot once and switched it off once, warned at most once
    (when the response model rejects the target), and read the clock
    [n_iter + 2] times; the iteration index ends at [n_iter + 1]. *)
Theorem minimizeBCLP_plot_events (target_geo_ : TargetGeometry.t F)
    (proj_geo_ : ProjectionGeometry.t) (opts : Options.t F) (w : World F)
    (sh : list nat) :
  Options.verbose opts = Plot ->
  ProjectionGeometry.n_angles proj_geo_ <> 0%nat ->
  shape_contract target_geo_ proj_geo_ sh ->
  (Options.bit_depth opts <> None -> np_product sh <> 0%nat) ->
  exists r s w',
    minimizeBCLP target_geo_ proj_geo_ opts w = Ok r s w' /\
    (forall K,
       count_kind K (trace w') =
       (per_run (Options.n_iter opts)
          (negb (ResponseModel.checkResponseTarget (Options.response_model opts)
                   (TargetGeometry.array target_geo_))) K +
        count_kind K (trace w))%nat) /\
    ticks w' = (Options.n_iter opts + 2 + ticks w)%nat /\
    curr_iter (performance r) = Z.of_nat (Options.n_iter opts) + 1.
Proof.
  intros Hv Hn Hc Hb.
  destruct (minimizeBCLP_eq _ _ _ w sh Hv Hn Hc Hb)
    as (s1 & w1 & gr & g' & s' & w' & _ & _ & _ & _ & _ & _ & _ & _ & _ & _
        & Hpl & _ & _ & _ & _ & _ & _ & Hcnt & Htk & Hrun).
  do 3 eexists. split; [ exact Hrun | ].
  split; [ exact Hcnt | ]. split; [ exact Htk | ].
  cbn [performance]. destruct Hpl as (_ & _ & Hci & _). lia.
Qed.

Lemma loss_of_sinogram_input (sh : list nat) (s : BCLPNorm) (g : ndarray F) :
  g0_shape s = sh -> flat_or_native sh g ->
  loss_of_sinogram s g = Success (input_loss sh s g).
Proof.
  intros Hs Hg. unfold loss_of_sinogram.
  now rewrite (cylindrical_of_flat sh s g Hs Hg).
Qed.

(** X2. In mode 'plot' the loss log lags one step behind the sinogram:
    slot 0 holds the loss of the initial sinogram, and slot [k + 1] holds
    the loss of the sinogram that iteration [k + 1] started from, not of the
    one it produced: the log is the losses of the inputs of the iterations.
    The returned sinogram is the result of [n_iter] steps; with one
    iteration or more, slots 0 and 1 hold the same value. *)
Theorem loss_log_lags_one_step (target_geo_ : TargetGeometry.t F)
    (proj_geo_ : ProjectionGeometry.t) (opts : Options.t F) (w : World F)
    (sh : list nat) :
  Options.verbose opts = Plot ->
  ProjectionGeometry.n_angles proj_geo_ <> 0%nat ->
  shape_contract target_geo_ proj_geo_ sh ->
  (Options.bit_depth opts <> None -> np_product sh <> 0%nat) ->
  exists r s w' gr,
    minimizeBCLP target_geo_ proj_geo_ opts w = Ok r s w' /\
    checkSinogramShape s (g0 s) Flattened = Success gr /\
    loss_of_sinogram s (g0 s) = Success (input_loss sh s (g0 s)) /\
    loss (performance r) =
      input_loss sh s (g0 s) ::
      List.map (input_loss sh s)
        (inputs sh s (Options.n_iter opts) (input_loss sh s (g0 s)) gr) /\
    iterate sh s (Options.n_iter opts) (input_loss sh s (g0 s)) gr =
      Success (sinogram r) /\
    (Options.n_iter opts <> 0%nat ->
     loss (performance r) !! 1%nat = loss (performance r) !! 0%nat).
Proof.
  intros Hv Hn Hc Hb.
  destruct (minimizeBCLP_eq _ _ _ w sh Hv Hn Hc Hb)
    as (s1 & w1 & gr & g' & s' & w' & _ & Hpl1 & Hgs & _ & _ & Hgr & Hgrf & Hgd
        & _ & _ & Hpl & _ & _ & Hset & Hlog & Hit & _ & _ & _ & Hrun).
  assert (Hg0 : g0 s' = g0 s1) by apply Hset.
  exists (mk_Returned g' (dose s') (logs s')), s', (logged EvPlotIoff w'), gr.
  split; [ exact Hrun | ]. cbn [performance sinogram].
  split; [ rewrite Hg0; exact Hgr | ].
  split.
  { apply loss_of_sinogram_input.
    - destruct Hpl as (_ & _ & _ & _ & _ & _ & _ & _ & Hp & _). apply Hp.
    - rewrite Hg0. unfold checkSinogramShape in Hgr.
      destruct Hgrf as [Hl _]. split; [ congruence | left; exact Hgs ]. }
  split; [ exact Hlog | ]. split; [ exact Hit | ].
  intros Hn0. rewrite Hlog.
  destruct (Options.n_iter opts) as [ | m]; [ congruence | ].
  cbn. f_equal. apply input_loss_data. congruence.
Qed.

(** X3. In mode 'plot', after one iteration or more, the dose that
    [minimizeBCLP] returns is the dose of the sinogram [gp] the last
    iteration started from, and the last slot of the loss holds the loss of
    [gp]; the returned sinogram is one step further than [gp]. *)
Theorem returned_dose_lags_one_step (target_geo_ : TargetGeometry.t F)
    (proj_geo_ : ProjectionGeometry.t) (opts : Options.t F) (w : World F)
    (sh : list nat) :
  Options.verbose opts = Plot ->
  ProjectionGeometry.n_angles proj_geo_ <> 0%nat ->
  shape_contract target_geo_ proj_geo_ sh ->
  (Options.bit_depth opts <> None -> np_product sh <> 0%nat) ->
  Options.n_iter opts <> 0%nat ->
  exists r s w' gp x,
    minimizeBCLP target_geo_ proj_geo_ opts w = Ok r s w' /\
    flat_or_native sh gp /\
    loss (performance r) !! (Options.n_iter opts - 1)%nat = Some x /\
    step sh s x gp = Success (sinogram r) /\
    reconstruction r = Some (input_dose sh s gp) /\
    loss (performance r) !! Options.n_iter opts = Some (input_loss sh s gp).
Proof.
  intros Hv Hn Hc Hb Hn0.
  destruct (minimizeBCLP_eq _ _ _ w sh Hv Hn Hc Hb)
    as (s1 & w1 & gr & g' & s' & w' & _ & _ & _ & _ & _ & _ & _ & _
        & _ & _ & _ & _ & _ & _ & _ & _ & Hlast & _ & _ & Hrun).
  destruct (Hlast Hn0) as (gp & x & Hgp & Hx & Hstep & Hdose & Hl).
  exists (mk_Returned g' (dose s') (logs s')), s', (logged EvPlotIoff w'), gp, x.
  split; [ exact Hrun | ]. cbn [performance sinogram reconstruction].
  auto.
Qed.

(** X4. In mode 'plot' the returned sinogram is never brought back to the
    shape recorded at construction: it has the elements of that shape under
    the flattened shape, so that with two axes or more its shape differs
    from [g0_shape]. *)
Theorem returned_sinogram_shape (target_geo_ : TargetGeometry.t F)
    (proj_geo_ : ProjectionGeometry.t) (opts : Options.t F) (w : World F)
    (sh : list nat) :
  Options.verbose opts = Plot ->
  ProjectionGeometry.n_angles proj_geo_ <> 0%nat ->
  shape_contract target_geo_ proj_geo_ sh ->
  (Options.bit_depth opts <> None -> np_product sh <> 0%nat) ->
  exists r s w',
    minimizeBCLP target_geo_ proj_geo_ opts w = Ok r s w' /\
    g0_shape s = sh /\
    shape (sinogram r) = flat_shape sh /\
    length (data (sinogram r)) = np_product sh /\
    ((1 < length sh)%nat ->
     shape (sinogram r) = [np_product sh] /\ shape (sinogram r) <> g0_shape s).
Proof.
  intros Hv Hn Hc Hb.
  destruct (minimizeBCLP_eq _ _ _ w sh Hv Hn Hc Hb)
    as (s1 & w1 & gr & g' & s' & w' & _ & _ & _ & _ & _ & _ & _ & _
        & _ & _ & Hpl & Hf & Hsh & _ & _ & _ & _ & _ & _ & Hrun).
  exists (mk_Returned g' (dose s') (logs s')), s', (logged EvPlotIoff w').
  split; [ exact Hrun | ]. cbn [sinogram].
  destruct Hpl as (_ & _ & _ & _ & _ & _ & _ & _ & [Hp _] & _).
  split; [ exact Hp | ]. split; [ exact Hsh | ]. split; [ apply Hf | ].
  intros Hl. rewrite Hsh, Hp. unfold flat_shape.
  destruct (Nat.ltb_spec 1 (length sh)); [ | lia ].
  split; [ reflexivity | ]. intros E. rewrite <- E in Hl. cbn in Hl. lia.
Qed.

(** The times that the loop records: one reading of the clock per
    iteration, each minus the start time. *)
Lemma descend_times (n : nat) (sh : list nat) (m : nat) :
  forall (k : nat) (s : BCLPNorm) (w : World F) (g g' : ndarray F)
         (s' : BCLPNorm) (w' : World F),
  plotting n sh k s -> (1 <= k)%nat -> (k + m = n + 1)%nat ->
  flat_or_native sh g ->
  descend m g s w = Ok g' s' w' ->
  t0 (logs s') = t0 (logs s) /\
  iter_times (logs s') =
    take k (iter_times (logs s)) ++
    List.map (fun j => fsub (perf_counter (ticks w + j)) (t0 (logs s)))
      (seq 0 m).
Proof.
  induction m as [ | m IH]; intros k s w g g' s' w' Hpl Hk Hkm Hflat Hrun.
  - cbn in Hrun. injection Hrun as _ <- _. split; [ reflexivity | ].
    cbn. rewrite app_nil_r. symmetry. apply take_ge.
    destruct Hpl as (_ & _ & _ & _ & Hlt & _). lia.
  - destruct (iteration_eq n sh k s w g Hpl ltac:(lia) Hflat)
      as (x & g2 & _ & _ & Hf2 & _ & Hstep).
    rewrite Hstep in Hrun.
    set (s2 := evaluated _ _ _) in Hrun.
    set (w2 := evaluated_world _ _ _) in Hrun.
    assert (Hpl2 : plotting n sh (S k) s2) by (now apply plotting_evaluated).
    destruct (IH (S k) s2 w2 g2 g' s' w' Hpl2 ltac:(lia) ltac:(lia) Hf2 Hrun)
      as [Ht Hts].
    split; [ exact Ht | ].
    rewrite Hts.
    assert (Hit : iter_times (logs s2) =
                  <[k := fsub (perf_counter (ticks w)) (t0 (logs s))]>
                    (iter_times (logs s))).
    { subst s2.
      cbn [evaluated logs set_logs loss iter_times set_curr_iter set_iter_times
           set_loss logged ticks].
      change (logs (refresh s (input_dose sh s g))) with (logs s).
      destruct Hpl as (_ & _ & Hci & _). now rewrite Hci, Nat2Z.id. }
    assert (Hlen : (k < length (iter_times (logs s)))%nat).
    { destruct Hpl as (_ & _ & _ & _ & Hlt & _). rewrite Hlt. lia. }
    rewrite Hit.
    rewrite (take_S_r _ k (fsub (perf_counter (ticks w)) (t0 (logs s))))
      by (now apply list_lookup_insert_eq).
    rewrite take_insert_ge by lia. rewrite <- app_assoc. f_equal.
    cbn [seq List.map app]. rewrite Nat.add_0_r. f_equal.
    rewrite <- seq_shift, List.map_map. apply List.map_ext. intros j.
    change (t0 (logs s2)) with (t0 (logs s)).
    replace (ticks w2 + j)%nat with (ticks w + S j)%nat
      by (subst w2; cbn; lia).
    reflexivity.
Qed.

(** X20. The iteration times of a run in mode 'plot' are cumulative: the
    start time is the first reading of the clock, and slot [k] of
    [iter_times] is the reading number [k + 2] minus the start time, that
    is the time since the start of [__init__], not the duration of
    iteration [k]. *)
Theorem iter_times_are_cumulative (target_geo_ : TargetGeometry.t F)
    (proj_geo_ : ProjectionGeometry.t) (opts : Options.t F) (w : World F)
    (sh : list nat) :
  Options.verbose opts = Plot ->
  ProjectionGeometry.n_angles proj_geo_ <> 0%nat ->
  shape_contract target_geo_ proj_geo_ sh ->
  (Options.bit_depth opts <> None -> np_product sh <> 0%nat) ->
  exists r s w',
    minimizeBCLP target_geo_ proj_geo_ opts w = Ok r s w' /\
    t0 (performance r) = perf_counter (ticks w) /\
    iter_times (performance r) =
      List.map
        (fun k => fsub (perf_counter (ticks w + 1 + k)) (perf_counter (ticks w)))
        (seq 0 (Options.n_iter opts + 1)).
Proof.
  intros Hv Hn Hc Hb.
  destruct (minimizeBCLP_eq _ _ _ w sh Hv Hn Hc Hb)
    as (s1 & w1 & gr & g' & s' & w' & Hinit & Hpl1 & _ & _ & _ & _ & Hgrf & _
        & _ & Hdesc & _ & _ & _ & _ & _ & _ & _ & _ & _ & Hrun).
  destruct (BCLPNorm_init_eq _ _ _ w sh Hv Hn Hc Hb)
    as (s1' & w1' & Hinit' & _ & _ & _ & _ & _ & _ & Htk & Ht0 & Hit0 & _).
  rewrite Hinit in Hinit'. injection Hinit' as <- <-.
  assert (H1 : (1 <= 1)%nat) by lia.
  assert (H2 : (1 + Options.n_iter opts = Options.n_iter opts + 1)%nat) by lia.
  destruct (descend_times (Options.n_iter opts) sh (Options.n_iter opts) 1
              s1 w1 gr g' s' w' Hpl1 H1 H2 Hgrf Hdesc) as [Ht Hts].
  exists (mk_Returned g' (dose s') (logs s')), s', (logged EvPlotIoff w').
  split; [ exact Hrun | ]. cbn [performance].
  split; [ congruence | ].
  rewrite Hts, (take_S_r _ 0 _ Hit0), Ht0, Htk, take_0.
  replace (Options.n_iter opts + 1)%nat with (S (Options.n_iter opts)) by lia.
  cbn [seq List.map app].
  f_equal; [ do 2 f_equal; lia | ].
  rewrite <- seq_shift, List.map_map. apply List.map_ext. intros j.
  do 2 f_equal. lia.
Qed.

(** The loop writes neither the options nor the arrays of the norms. *)
Lemma descend_norm_arrays (n : nat) (sh : list nat) (m : nat) :
  forall (k : nat) (s : BCLPNorm) (w : World F) (g g' : ndarray F)
         (s' : BCLPNorm) (w' : World F),
  plotting n sh k s -> (1 <= k)%nat -> (k + m = n + 1)%nat ->
  flat_or_native sh g ->
  descend m g s w = Ok g' s' w' ->
  options (logs s') = options (logs s) /\
  norm_arrays (logs s') = norm_arrays (logs s).
Proof.
  induction m as [ | m IH]; intros k s w g g' s' w' Hpl Hk Hkm Hflat Hrun.
  - cbn in Hrun. injection Hrun as _ <- _. split; reflexivity.
  - destruct (iteration_eq n sh k s w g Hpl ltac:(lia) Hflat)
      as (x & g2 & _ & _ & Hf2 & _ & Hstep).
    rewrite Hstep in Hrun.
    set (s2 := evaluated _ _ _) in Hrun.
    set (w2 := evaluated_world _ _ _) in Hrun.
    assert (Hpl2 : plotting n sh (S k) s2) by (now apply plotting_evaluated).
    exact (IH (S k) s2 w2 g2 g' s' w' Hpl2 ltac:(lia) ltac:(lia) Hf2 Hrun).
Qed.

(** X21. A run in mode 'plot' records the loss and the iteration times
    only: in the log that [minimizeBCLP] returns, the eight arrays of the
    norms of the error and the array of the convergence error are as
    [LogPerf.__init__] made them, [n_iter + 1] values that are all NaN, and
    the options are those passed. *)
Theorem norms_are_never_recorded `{!NaNLaws F}
    (target_geo_ : TargetGeometry.t F)
    (proj_geo_ : ProjectionGeometry.t) (opts : Options.t F) (w : World F)
    (sh : list nat) :
  Options.verbose opts = Plot ->
  ProjectionGeometry.n_angles proj_geo_ <> 0%nat ->
  shape_contract target_geo_ proj_geo_ sh ->
  (Options.bit_depth opts <> None -> np_product sh <> 0%nat) ->
  exists r s w',
    minimizeBCLP target_geo_ proj_geo_ opts w = Ok r s w' /\
    options (performance r) = opts /\
    Forall (fun a => length a = (Options.n_iter opts + 1)%nat /\
                     Forall (fun x => is_nan x = true) a)
           (norm_arrays (performance r)).
Proof.
  intros Hv Hn Hc Hb.
  destruct (minimizeBCLP_eq _ _ _ w sh Hv Hn Hc Hb)
    as (s1 & w1 & gr & g' & s' & w' & Hinit & Hpl1 & _ & _ & _ & _ & Hgrf & _
        & _ & Hdesc & _ & _ & _ & _ & _ & _ & _ & _ & _ & Hrun).
  destruct (BCLPNorm_init_eq _ _ _ w sh Hv Hn Hc Hb)
    as (s1' & w1' & Hinit' & _ & _ & _ & _ & _ & _ & _ & _ & _ & Hopt & Hnorm).
  rewrite Hinit in Hinit'. injection Hinit' as <- <-.
  assert (H1 : (1 <= 1)%nat) by lia.
  assert (H2 : (1 + Options.n_iter opts = Options.n_iter opts + 1)%nat) by lia.
  destruct (descend_norm_arrays (Options.n_iter opts) sh (Options.n_iter opts) 1
              s1 w1 gr g' s' w' Hpl1 H1 H2 Hgrf Hdesc) as [Ho Hn'].
  exists (mk_Returned g' (dose s') (logs s')), s', (logged EvPlotIoff w').
  split; [ exact Hrun | ]. cbn [performance].
  split; [ congruence | ].
  rewrite Hn', Hnorm. cbn [repeat].
  repeat constructor; first [ apply length_nan_array | apply nan_array_all_nan ].
Qed.

(** X5. In the modes 'off' and 'time', with a projector and a filter that
    keep to one shape, [minimizeBCLP] raises AttributeError, and nothing
    else, from the first [callback] inside [__init__]: by then slot 0 of the
    loss is written and the clock is read twice; no previous loss is read,
    so no gradient step is made, and in mode 'time' one progress line is
    printed. *)
Theorem minimizeBCLP_attribute_error (target_geo_ : TargetGeometry.t F)
    (proj_geo_ : ProjectionGeometry.t) (opts : Options.t F) (w : World F)
    (sh : list nat) :
  Options.verbose opts <> Plot ->
  ProjectionGeometry.n_angles proj_geo_ <> 0%nat ->
  shape_contract target_geo_ proj_geo_ sh ->
  (Options.bit_depth opts <> None -> np_product sh <> 0%nat) ->
  exists l t,
    minimizeBCLP target_geo_ proj_geo_ opts w =
    Raise AttributeError
      (mk_World (2 + ticks w)
         ((if verbose_eqb (Options.verbose opts) Time then [EvPrint 0 t] else [])
          ++ EvLossWrite 0 l
          :: (if ResponseModel.checkResponseTarget (Options.response_model opts)
                   (TargetGeometry.array target_geo_)
              then [] else [EvWarn])
          ++ trace w)).
Proof.
  intros Hv Hn Hc Hb.
  destruct (BCLPNorm_init_unplotted _ _ _ w sh Hv Hn Hc Hb) as (l & t & Hinit).
  exists l, t. unfold minimizeBCLP. now rewrite Hinit.
Qed.

(** X6. The object of a finished run cannot descend again: after
    [minimizeBCLP] returned in mode 'plot' with one iteration or more, a
    further call of [gradientDescent] on the same object computes a gradient
    and then raises IndexError in [computeLoss], whose slot [n_iter + 1] does
    not exist; nothing further is written to the loss. *)
Theorem gradientDescent_after_run_raises (target_geo_ : TargetGeometry.t F)
    (proj_geo_ : ProjectionGeometry.t) (opts : Options.t F) (w : World F)
    (sh : list nat) :
  Options.verbose opts = Plot ->
  ProjectionGeometry.n_angles proj_geo_ <> 0%nat ->
  shape_contract target_geo_ proj_geo_ sh ->
  (Options.bit_depth opts <> None -> np_product sh <> 0%nat) ->
  Options.n_iter opts <> 0%nat ->
  exists r s w' x,
    minimizeBCLP target_geo_ proj_geo_ opts w = Ok r s w' /\
    curr_iter (logs s) = Z.of_nat (length (loss (logs s))) /\
    loss (logs s) !! Options.n_iter opts = Some x /\
    gradientDescent s w' =
      Raise IndexError (logged (EvLossRead (Z.of_nat (Options.n_iter opts)) x) w').
Proof.
  intros Hv Hn Hc Hb Hn0.
  destruct (minimizeBCLP_eq _ _ _ w sh Hv Hn Hc Hb)
    as (s1 & w1 & gr & g' & s' & w' & _ & _ & _ & _ & _ & Hgr & Hgrf & _
        & _ & _ & Hpl & _ & _ & Hset & _ & _ & _ & _ & _ & Hrun).
  assert (Hg0 : g0 s' = g0 s1) by apply Hset.
  destruct (Options.n_iter opts) as [ | m] eqn:Hm; [ congruence | ].
  destruct (iteration_exhausted (S m) sh s' (logged EvPlotIoff w') gr m Hpl Hgrf)
    as (x & Hx & Hraise).
  exists (mk_Returned g' (dose s') (logs s')), s', (logged EvPlotIoff w'), x.
  split; [ exact Hrun | ].
  pose proof Hpl as (_ & _ & Hci & Hll & _ & Hni & _).
  split; [ rewrite Hci, Hll; reflexivity | ].
  split; [ exact Hx | ].
  unfold gradientDescent. unfold bind at 1, get at 1. unfold bind at 1.
  rewrite Hg0.
  change (checkSinogramShape s' (g0 s1) Flattened)
    with (checkSinogramShape s1 (g0 s1) Flattened).
  rewrite Hgr. cbn [lift ret]. rewrite Hni. exact Hraise.
Qed.

End Iterations.

(** ** The methods on their own *)

Section Methods.
Context {F : Type} `{NF : NaNScalar F} {CF : Collaborators F}.

Lemma updateVariables_post (g : ndarray F) (s s1 : BCLPNorm) (w w1 : World F) :
  updateVariables g s w = Ok tt s1 w1 ->
  w1 = w /\ logs s1 = logs s /\ stamps_agree s1 /\
  dose_iter s1 = curr_iter (logs s1).
Proof.
  intros Hrun. destruct s.
  unfold updateVariables in Hrun.
  cbv [bind get when modify need lift ret raise negb] in Hrun.
  cbn [dose_iter logs] in Hrun.
  destruct (Z.eqb_spec dose_iter0 (curr_iter logs0));
    [ | destruct (checkSinogramShape _ g Cylindrical); [ | discriminate ] ];
    cbn in Hrun;
    repeat (match type of Hrun with
            | context [Z.eqb ?a ?b] => destruct (Z.eqb_spec a b)
            | context [match ?o with _ => _ end] => is_var o; destruct o
            end; cbn in Hrun);
    try discriminate; inversion Hrun; subst; cbn; repeat split; congruence.
Qed.

(** X7. Whatever the object holds, once [updateVariables] returns, all five
    stamps carry the current iteration and the log and the world are as
    before; a second call then returns the same object and recomputes
    nothing, whatever sinogram it is passed. *)
Theorem updateVariables_idempotent (g : ndarray F) (s s1 : BCLPNorm)
    (w w1 : World F) :
  updateVariables g s w = Ok tt s1 w1 ->
  w1 = w /\ logs s1 = logs s /\
  dose_iter s1 = curr_iter (logs s1) /\
  mapped_dose_iter s1 = curr_iter (logs s1) /\
  mapped_dose_error_from_f_T_iter s1 = curr_iter (logs s1) /\
  mapped_dose_error_from_band_iter s1 = curr_iter (logs s1) /\
  v_iter s1 = curr_iter (logs s1) /\
  forall g' w', updateVariables g' s1 w' = Ok tt s1 w'.
Proof.
  intros Hrun.
  destruct (updateVariables_post _ _ _ _ _ Hrun)
    as (Hw & Hl & (H1 & H2 & H3 & H4) & Hd).
  repeat split; try congruence.
  intros g' w'. apply updateVariables_fresh; [ now repeat split | exact Hd ].
Qed.

(** X8. An array of the shape recorded at construction, flattened by
    [checkSinogramShape] and then brought back with 'cylindrical', is the
    array itself: the flattened form has one axis at most and the same
    elements. *)
Theorem checkSinogramShape_round_trip (s : BCLPNorm) (g : ndarray F) :
  wf_ndarray g -> shape g = g0_shape s ->
  exists gf,
    checkSinogramShape s g Flattened = Success gf /\
    (length (shape gf) <= 1)%nat /\
    data gf = data g /\
    checkSinogramShape s gf Cylindrical = Success g.
Proof.
  intros Hwf Hsh. destruct g as [sg dg]. unfold wf_ndarray in Hwf.
  cbn [shape data] in *. subst sg.
  unfold checkSinogramShape. cbn [shape data].
  destruct (Nat.ltb_spec 1 (length (g0_shape s))) as [Hl | Hl].
  - unfold np_reshape. cbn [data shape np_product fold_right].
    fold (np_product (g0_shape s)). rewrite Nat.mul_1_r, Hwf, Nat.eqb_refl.
    eexists. split; [ reflexivity | ]. cbn [shape data length].
    split; [ lia | ]. split; [ reflexivity | ].
    cbn [Nat.eqb]. now rewrite Hwf, Nat.eqb_refl.
  - eexists. split; [ reflexivity | ]. cbn [shape data].
    split; [ exact Hl | ]. split; [ reflexivity | ].
    destruct (Nat.eqb_spec (length (g0_shape s)) 1); [ | reflexivity ].
    unfold np_reshape. cbn [data]. now rewrite Hwf, Nat.eqb_refl.
Qed.

(** X9. The other way round: a flat array with the number of elements of
    the shape recorded at construction, brought to that shape with
    'cylindrical' and flattened again, is the array itself, provided the
    recorded shape has one axis at least. *)
Theorem checkSinogramShape_round_trip_flat (s : BCLPNorm) (g : ndarray F) :
  shape g = [length (data g)] ->
  length (data g) = np_product (g0_shape s) ->
  g0_shape s <> [] ->
  exists gc,
    checkSinogramShape s g Cylindrical = Success gc /\
    shape gc = g0_shape s /\
    data gc = data g /\
    checkSinogramShape s gc Flattened = Success g.
Proof.
  intros Hsh Hl Hne. destruct g as [sg dg]. cbn [shape data] in *. subst sg.
  unfold checkSinogramShape, np_reshape. cbn [shape data length Nat.eqb].
  rewrite Hl, Nat.eqb_refl.
  eexists. split; [ reflexivity | ]. cbn [shape data].
  split; [ reflexivity | ]. split; [ reflexivity | ].
  destruct (Nat.ltb_spec 1 (length (g0_shape s))) as [Hlen | Hlen].
  - rewrite Hl. cbn [np_product fold_right]. fold (np_product (g0_shape s)).
    now rewrite Nat.mul_1_r, Nat.eqb_refl.
  - destruct (g0_shape s) as [ | a [ | b sh]] eqn:E; [ congruence | | cbn in Hlen; lia ].
    cbn [np_product fold_right]. now rewrite Nat.mul_1_r.
Qed.

Lemma fltb_not_nan `{!OrderLaws F} (x y : F) :
  fltb x y = true -> fisnan x = false /\ fisnan y = false.
Proof.
  intros E. apply fltb_true_fleb, fleb_self in E as [Hx Hy].
  split; now apply fisnan_false.
Qed.

Ltac by_cases :=
  repeat match goal with
  | H : ?b = true |- context [if ?b then _ else _] => rewrite H
  | H : ?b = false |- context [if ?b then _ else _] => rewrite H
  end; try reflexivity.

Lemma clip1_idempotent `{!OrderLaws F} (lo hi x : F) :
  clip1 lo hi (clip1 lo hi x) = clip1 lo hi x.
Proof.
  unfold clip1, npy_min, npy_max.
  destruct (fisnan x) eqn:Ex; by_cases.
  destruct (fltb lo x) eqn:E1; by_cases.
  - destruct (fltb x hi) eqn:E2; by_cases.
    destruct (fisnan hi) eqn:Eh; by_cases.
    destruct (fltb_not_nan _ _ E1) as [El _].
    destruct (fltb lo hi) eqn:E3; by_cases.
    now destruct (fltb hi hi).
  - destruct (fisnan lo) eqn:El; by_cases.
    destruct (fltb lo hi) eqn:E3; by_cases.
    + now destruct (fltb lo lo); by_cases.
    + destruct (fisnan hi) eqn:Eh; by_cases.
Qed.

(** A NaN and a value strictly between the bounds are left as they are. *)
Lemma clip1_fixed `{!OrderLaws F} (lo hi x : F) :
  fisnan x = true \/ (fltb lo x = true /\ fltb x hi = true) ->
  clip1 lo hi x = x.
Proof.
  unfold clip1, npy_min, npy_max. intros [Ex | [E1 E2]]; by_cases.
  destruct (fltb_not_nan _ _ E2) as [Ex _]. by_cases.
Qed.

(** X10. Without a bit depth [imposeSinogramConstraints] is idempotent,
    whatever the bounds and the elements: it returns, and on what it
    returned it returns the same array. An array whose every element is NaN
    or lies strictly between the bounds is returned as it is (an element
    equal to a bound is replaced by the bound). *)
Theorem imposeSinogramConstraints_idempotent `{!OrderLaws F}
    (s : BCLPNorm) (g : ndarray F) :
  bit_depth s = None ->
  exists g1,
    imposeSinogramConstraints s g = Success g1 /\
    imposeSinogramConstraints s g1 = Success g1 /\
    (Forall (fun x => fisnan x = true \/
                      (fltb (glb s) x = true /\ fltb x (gub s) = true))
            (data g) ->
     g1 = g).
Proof.
  intros Hb. unfold imposeSinogramConstraints. rewrite Hb.
  eexists. split; [ reflexivity | ].
  unfold np_clip, nd_map. cbn [shape data]. split.
  - do 2 f_equal. rewrite List.map_map. apply List.map_ext.
    intros x. apply clip1_idempotent.
  - intros Hin. destruct g as [sg dg]. cbn [shape data] in *. f_equal.
    induction Hin as [ | x xs Hx _ IH]; [ reflexivity | ].
    cbn [List.map]. rewrite IH. f_equal. now apply clip1_fixed.
Qed.

End Methods.

(** ** The run on binary64 *)

Section RayRun.
Import Ray.
Local Open Scope float_scope.

Example run_plot_1 :
  option_map sinogram (returned (run Plot 1)) = Some (mk_ndarray [1%nat] [0.5]) /\
  option_map reconstruction (returned (run Plot 1)) = Some (Some [1; 1]) /\
  option_map (fun r => loss (performance r)) (returned (run Plot 1)) = Some [1; 1].
Proof. vm_compute. auto. Qed.

Example run_plot_3 :
  option_map (fun r => loss (performance r)) (returned (run Plot 3)) =
    Some [1; 1; 0.5; 0.5] /\
  option_map (fun r => curr_iter (performance r)) (returned (run Plot 3)) = Some 4%Z /\
  option_map sinogram (returned (run Plot 3)) = Some (mk_ndarray [1%nat] [0.5]).
Proof. vm_compute. auto. Qed.

(** C1, at n_iter = 1 in mode 'plot'. The step takes the sinogram from [1]
    to [0.5]; the loss of [0.5] is 0.5, yet [computeLoss] leaves the cache
    at the chain of the sinogram before the step (violation [false; true]
    where the new sinogram violates at both voxels) and stores at index 1
    the loss 1 of that previous sinogram. *)
Theorem computeLoss_after_step_records_previous_loss :
  exists r s w,
    run Plot 1 = Ok r s w /\
    g0 s = mk_ndarray [1%nat; 1%nat] [1] /\
    sinogram r = mk_ndarray [1%nat] [0.5] /\
    loss_of_sinogram s (g0 s) = Success 1 /\
    loss_of_sinogram s (sinogram r) = Success 0.5 /\
    py_getitem (loss (logs s)) 1%Z = Success 1 /\
    dose s = Some (dose_of s (g0 s)) /\
    v s = Some [false; true] /\
    violation_of s (dose_of s (mk_ndarray [1%nat; 1%nat] [0.5])) = [true; true].
Proof.
  do 3 eexists. split; [ vm_compute; reflexivity | ].
  vm_compute. repeat split.
Qed.

(** C2, at n_iter = 1 in mode 'plot'. The returned sinogram is [0.5], whose
    scaled back-projection is [0.5; 0.5]; the returned dose is [1; 1], the
    scaled back-projection of the sinogram before the last step. *)
Theorem returned_dose_is_of_previous_sinogram :
  exists r s w g',
    run Plot 1 = Ok r s w /\
    checkSinogramShape s (sinogram r) Cylindrical = Success g' /\
    dose_of s g' = [0.5; 0.5] /\
    reconstruction r = Some [1; 1] /\
    dose_of s (g0 s) = [1; 1].
Proof.
  do 4 eexists. split; [ vm_compute; reflexivity | ].
  split; [ vm_compute; reflexivity | ].
  vm_compute. repeat split.
Qed.

(** C3, at n_iter = 1 in mode 'plot'. The shape recorded at construction is
    1 x 1; the returned sinogram has the one axis of the flattened form. *)
Theorem returned_sinogram_is_flattened :
  exists r s w,
    run Plot 1 = Ok r s w /\
    g0_shape s = [1%nat; 1%nat] /\
    shape (sinogram r) = [1%nat].
Proof.
  do 3 eexists. split; [ vm_compute; reflexivity | ].
  vm_compute. repeat split.
Qed.

(** The run of C4's theorem: mode 'off' raises AttributeError in the first
    [callback], inside [__init__]. *)
Lemma run_off_raises :
  Off <> Plot /\
  (exists e w', run Off 1 = Raise e w') /\
  raised (run Off 1) = Some AttributeError.
Proof.
  split; [ discriminate | ]. split.
  - apply (minimizeBCLP_raises_without_plot (CF := toolbox)
             target geometry (opts Off 1) start).
    discriminate.
  - vm_compute. reflexivity.
Defined.

(** C8, at n_iter = 3 in the modes 'off' and 'time'. Slot 0 of the loss is
    written, then the first [callback] raises AttributeError inside
    [__init__]: the iteration index is not advanced and no gradient step is
    made (the trace holds no read of the loss). *)
Theorem loop_never_starts_without_plot :
  raised (run Off 3) = Some AttributeError /\
  trace (final_world (run Off 3)) = [EvLossWrite 0%Z 1] /\
  raised (run Time 3) = Some AttributeError /\
  trace (final_world (run Time 3)) = [EvPrint 0%Z 1; EvLossWrite 0%Z 1].
Proof. vm_compute. repeat split. Qed.

(** In mode 'plot' the same options give three gradient steps, each
    reading the slot written just before. *)
Example run_plot_3_trace :
  List.filter (fun ev => match ev with
                         | EvLossWrite _ _ | EvLossRead _ _ => true
                         | _ => false
                         end)
              (rev (trace (final_world (run Plot 3)))) =
  [EvLossWrite 0%Z 1; EvLossRead 0%Z 1; EvLossWrite 1%Z 1;
   EvLossRead 1%Z 1; EvLossWrite 2%Z 0.5; EvLossRead 2%Z 0.5;
   EvLossWrite 3%Z 0.5].
Proof. vm_compute. reflexivity. Qed.

(** C5, as stated, fails at n_iter = 1: the iteration times are two zeros,
    none of them NaN, and no start time is recorded (it is NaN). *)
Lemma iter_times_not_nan :
  iter_times (LogPerf_init (opts Off 1)) = [0; 0] /\
  Forall (fun x => is_nan x = false) (iter_times (LogPerf_init (opts Off 1))) /\
  is_nan (t0 (LogPerf_init (opts Off 1))) = true.
Proof. vm_compute. repeat split; repeat constructor. Qed.

Lemma LogPerf_init_arrays_float :
  let l := LogPerf_init (opts Off 1) in
  Forall (fun a => length a = 2%nat) (per_iteration_arrays l) /\
  Forall (Forall (fun x => is_nan x = true)) (nan_filled_arrays l) /\
  Forall (fun x => x = fzero /\ is_nan x = false) (iter_times l) /\
  is_nan (t0 l) = true /\
  (forall now, t0 (startTiming now l) = now) /\
  curr_iter l = 0%Z.
Proof. exact (LogPerf_init_arrays (opts Off 1)). Defined.

(** The first gradient of the run in mode 'plot'. *)
Lemma first_gradient :
  exists gr s1 d,
    computeLossGradient (mk_ndarray [1%nat] [1]) (constructed Plot 1) (mk_World 2 []) =
      Ok gr s1 (logged (EvLossRead 0%Z 1) (mk_World 2 [])) /\
    cached s1 d /\ d = [1; 1] /\
    (length (shape gr) <= 1)%nat /\ data gr = [2].
Proof.
  destruct (computeLossGradient_spec (mk_ndarray [1%nat] [1]) (constructed Plot 1)
              (mk_World 2 []) 1)
    as (gr & s1 & d & Hrun & Hc & Hd & Hshape & Hdata).
  - split; [ repeat split | ]. vm_compute. discriminate.
  - intros _. eexists. vm_compute. reflexivity.
  - vm_compute. reflexivity.
  - intros operand. reflexivity.
  - exists gr, s1, d. split; [ exact Hrun | ]. split; [ exact Hc | ].
    destruct Hd as (g' & Hg' & ->); [ vm_compute; discriminate | ].
    vm_compute in Hg'. injection Hg' as <-.
    split; [ vm_compute; reflexivity | ].
    split; [ exact Hshape | ].
    rewrite Hdata. vm_compute. reflexivity.
Defined.



(** C9, as stated, fails on two inputs: with weight -1 and p = q = 1 the
    loss of the initial sinogram is -1; with weight 1, p = q = 0.5 and
    eps = 0.25 it is NaN, which is not [>= 0]. *)
Lemma loss_negative_or_nan :
  (let s := BCLPNorm_attributes (CF := toolbox) target geometry
              opts_negative_weight 0 in
   fltb fzero (p s) = true /\ fltb fzero (q s) = true /\
   returned (computeLoss (g0 s) s start) = Some (-1) /\
   fleb fzero (-1) = false) /\
  (let s := BCLPNorm_attributes (CF := toolbox) target geometry
              opts_fractional 0 in
   fltb fzero (p s) = true /\ fltb fzero (q s) = true /\
   weight s = WScalar 1 /\
   returned (computeLoss (g0 s) s start) = Some nan /\
   fleb fzero nan = false).
Proof. vm_compute. repeat split. Qed.

(** C9 on binary64, on the object of the run (p = q = 2, loss 1) and on the
    one with p = q = 0.5 and eps = 0.25 (loss NaN): in both the loss is not
    negative. *)
Lemma loss_not_negative_on_two_objects :
  (let s := BCLPNorm_attributes (CF := toolbox) target geometry
              (opts Plot 1) 0 in
   exists l s' w',
     computeLoss (g0 s) s start = Ok l s' w' /\
     l = 1 /\ fltb l fzero = false) /\
  (let s := BCLPNorm_attributes (CF := toolbox) target geometry
              opts_fractional 0 in
   exists l s' w',
     computeLoss (g0 s) s start = Ok l s' w' /\
     is_nan l = true /\ fltb l fzero = false).
Proof.
  split; cbv zeta.
  - destruct (computeLoss_not_negative
                (g0 (BCLPNorm_attributes (CF := toolbox) target geometry
                       (opts Plot 1) 0))
                (BCLPNorm_attributes (CF := toolbox) target geometry
                   (opts Plot 1) 0) start)
      as (l & s' & w' & Hrun & Hl & _).
    + split; [ repeat split | ]. vm_compute. discriminate.
    + intros _. eexists. vm_compute. reflexivity.
    + vm_compute. split; [ discriminate | reflexivity ].
    + reflexivity.
    + reflexivity.
    + reflexivity.
    + reflexivity.
    + exists l, s', w'. split; [ exact Hrun | ]. split; [ | exact Hl ].
      vm_compute in Hrun. now injection Hrun as <-.
  - destruct (computeLoss_not_negative
                (g0 (BCLPNorm_attributes (CF := toolbox) target geometry
                       opts_fractional 0))
                (BCLPNorm_attributes (CF := toolbox) target geometry
                   opts_fractional 0) start)
      as (l & s' & w' & Hrun & Hl & _).
    + split; [ repeat split | ]. vm_compute. discriminate.
    + intros _. eexists. vm_compute. reflexivity.
    + vm_compute. split; [ discriminate | reflexivity ].
    + reflexivity.
    + reflexivity.
    + reflexivity.
    + reflexivity.
    + exists l, s', w'. split; [ exact Hrun | ]. split; [ | exact Hl ].
      vm_compute in Hrun. now injection Hrun as <-.
Defined.

(** Over binary64 a band error below 0 raised to p = 0.5 is NaN, and the
    product with the indicator [False] keeps it: the loss is NaN as soon as
    one voxel lies strictly inside the band. *)
Example loss_nan_inside_band :
  let s := BCLPNorm_attributes (CF := toolbox) target geometry
             opts_fractional 0 in
  returned (computeLoss (g0 s) s start) = Some nan /\
  match computeLoss (g0 s) s start with
  | Ok _ s' _ =>
      mapped_dose_error_from_band s' = Some [-0.25; 0.75] /\
      v s' = Some [false; true]
  | Raise _ _ => False
  end.
Proof. vm_compute. repeat split. Qed.

(** The collaborators of the run keep to the shape 1 x 1, so that every run
    in mode 'plot' returns after [n] gradient steps. *)
Example run_plot_returns (n : nat) :
  exists r s w',
    run Plot n = Ok r s w' /\
    length (loss (performance r)) = (n + 1)%nat /\
    curr_iter (performance r) = (Z.of_nat n + 1)%Z /\
    gradient_steps (trace w') = n.
Proof.
  destruct (minimizeBCLP_in_plot (CF := toolbox) target geometry (opts Plot n)
              start [1%nat; 1%nat])
    as (r & s & w' & Hrun & Hl & Hc & Hg & _).
  - reflexivity.
  - discriminate.
  - split; intros; split; reflexivity.
  - discriminate.
  - exists r, s, w'. repeat split; try assumption.
    rewrite Hg. cbn. lia.
Qed.

End RayRun.

(** ** The further statements on the two runs *)

Section RayIterations.
Import Ray.

Ltac ray_contract :=
  first [ reflexivity
        | discriminate
        | (split; intros; split; reflexivity) ].

(** The run of X1: two iterations in mode 'plot'. *)
Lemma minimizeBCLP_plot_events_ray :
  exists r s w',
    run Plot 2 = Ok r s w' /\
    count_kind KLossWrite (trace w') = 3%nat /\
    count_kind KLossRead (trace w') = 2%nat /\
    count_kind KPlotUpdate (trace w') = 3%nat /\
    count_kind KPlotIoff (trace w') = 1%nat /\
    ticks w' = 4%nat /\
    curr_iter (performance r) = 3.
Proof.
  destruct (minimizeBCLP_plot_events (CF := toolbox) target geometry
              (opts Plot 2) start [1%nat; 1%nat])
    as (r & s & w' & Hrun & Hcnt & Htk & Hci); [ ray_contract .. | ].
  exists r, s, w'. split; [ exact Hrun | ].
  split; [ exact (Hcnt KLossWrite) | ]. split; [ exact (Hcnt KLossRead) | ].
  split; [ exact (Hcnt KPlotUpdate) | ]. split; [ exact (Hcnt KPlotIoff) | ].
  split; [ exact Htk | exact Hci ].
Defined.

(** The run of X2: the first two slots of the loss are equal. *)
Lemma loss_log_lags_one_step_ray :
  exists r s w',
    run Plot 2 = Ok r s w' /\
    loss (performance r) !! 1%nat = loss (performance r) !! 0%nat.
Proof.
  destruct (loss_log_lags_one_step (CF := toolbox) target geometry
              (opts Plot 2) start [1%nat; 1%nat])
    as (r & s & w' & gr & Hrun & _ & _ & _ & _ & Heq); [ ray_contract .. | ].
  exists r, s, w'. split; [ exact Hrun | ]. apply Heq. discriminate.
Defined.

(** The run of X3. *)
Lemma returned_dose_lags_one_step_ray :
  exists r s w' gp x,
    run Plot 2 = Ok r s w' /\
    step [1%nat; 1%nat] s x gp = Success (sinogram r) /\
    reconstruction r = Some (input_dose [1%nat; 1%nat] s gp).
Proof.
  destruct (returned_dose_lags_one_step (CF := toolbox) target geometry
              (opts Plot 2) start [1%nat; 1%nat])
    as (r & s & w' & gp & x & Hrun & _ & _ & Hstep & Hdose & _);
    [ ray_contract .. | ].
  exists r, s, w', gp, x. auto.
Defined.

(** The run of X4: the shape recorded is 1 x 1, the shape returned is 1. *)
Lemma returned_sinogram_shape_ray :
  exists r s w',
    run Plot 2 = Ok r s w' /\
    g0_shape s = [1%nat; 1%nat] /\
    shape (sinogram r) = [1%nat] /\
    shape (sinogram r) <> g0_shape s.
Proof.
  destruct (returned_sinogram_shape (CF := toolbox) target geometry
              (opts Plot 2) start [1%nat; 1%nat])
    as (r & s & w' & Hrun & Hg0 & _ & _ & Hsh); [ ray_contract .. | ].
  exists r, s, w'. split; [ exact Hrun | ]. split; [ exact Hg0 | ].
  apply Hsh. cbn. lia.
Defined.

(** The run of X5: mode 'time'. *)
Lemma minimizeBCLP_attribute_error_ray :
  raised (run Time 3) = Some AttributeError /\
  ticks (final_world (run Time 3)) = 2%nat.
Proof.
  destruct (minimizeBCLP_attribute_error (CF := toolbox) target geometry
              (opts Time 3) start [1%nat; 1%nat])
    as (l & t & Hrun); [ ray_contract .. | ].
  unfold run. rewrite Hrun. split; reflexivity.
Defined.

(** The run of X6: a second descent on the object of a finished run. *)
Lemma gradientDescent_after_run_raises_ray :
  exists r s w',
    run Plot 1 = Ok r s w' /\
    raised (gradientDescent (CF := toolbox) s w') = Some IndexError.
Proof.
  destruct (gradientDescent_after_run_raises (CF := toolbox) target geometry
              (opts Plot 1) start [1%nat; 1%nat])
    as (r & s & w' & x & Hrun & _ & _ & Hraise); [ ray_contract .. | ].
  exists r, s, w'. split; [ exact Hrun | ]. now rewrite Hraise.
Defined.

(** The run of X20: the clock advances by one second per reading. *)
Lemma iter_times_are_cumulative_ray :
  exists r s w',
    run Plot 2 = Ok r s w' /\
    iter_times (performance r) = [1; 2; 3]%float.
Proof.
  destruct (iter_times_are_cumulative (CF := toolbox) target geometry
              (opts Plot 2) start [1%nat; 1%nat])
    as (r & s & w' & Hrun & _ & Hit); [ ray_contract .. | ].
  exists r, s, w'. split; [ exact Hrun | ].
  rewrite Hit. vm_compute. reflexivity.
Defined.

(** The run of X21. *)
Lemma norms_are_never_recorded_ray :
  exists r s w',
    run Plot 2 = Ok r s w' /\
    Forall (fun a => length a = 3%nat /\ Forall (fun x => is_nan x = true) a)
           (norm_arrays (performance r)).
Proof.
  destruct (norms_are_never_recorded (CF := toolbox) target geometry
              (opts Plot 2) start [1%nat; 1%nat])
    as (r & s & w' & Hrun & _ & Hnan); [ ray_contract .. | ].
  exists r, s, w'. split; [ exact Hrun | exact Hnan ].
Defined.

(** X10 on the object of the run, which has no bit depth: the sinogram
    [-1; 1; nan; 3] is clamped into [[0, 2]] once and for all, and the
    sinogram [1; nan] is returned as it is. *)
Lemma imposeSinogramConstraints_idempotent_ray :
  (exists g1,
     imposeSinogramConstraints (constructed Plot 1)
       (mk_ndarray [4%nat] [-1; 1; nan; 3]%float) = Success g1 /\
     g1 = mk_ndarray [4%nat] [0; 1; nan; 2]%float /\
     imposeSinogramConstraints (constructed Plot 1) g1 = Success g1) /\
  imposeSinogramConstraints (constructed Plot 1)
    (mk_ndarray [2%nat] [1; nan]%float) =
    Success (mk_ndarray [2%nat] [1; nan]%float).
Proof.
  split.
  - destruct (imposeSinogramConstraints_idempotent (constructed Plot 1)
                (mk_ndarray [4%nat] [-1; 1; nan; 3]%float))
      as (g1 & H1 & H2 & _); [ vm_compute; reflexivity | ].
    exists g1. split; [ exact H1 | ]. split; [ | exact H2 ].
    vm_compute in H1. now injection H1 as <-.
  - destruct (imposeSinogramConstraints_idempotent (constructed Plot 1)
                (mk_ndarray [2%nat] [1; nan]%float))
      as (g1 & H1 & _ & Hfix); [ vm_compute; reflexivity | ].
    rewrite H1. f_equal. apply Hfix.
    constructor; [ right; split; reflexivity | ].
    constructor; [ left; reflexivity | constructor ].
Defined.

(** The gradient of the first iteration of the run, and the [computeLoss]
    that follows it. *)
Lemma computeLoss_after_gradient_ray :
  cache_inv (constructed Plot 1) /\
  forall g2 g3,
    computeLoss g2
      (final_object
         (computeLossGradient (mk_ndarray [1%nat] [1%float]) (constructed Plot 1)
            (mk_World 2 []))
         (constructed Plot 1))
      (final_world
         (computeLossGradient (mk_ndarray [1%nat] [1%float]) (constructed Plot 1)
            (mk_World 2 []))) =
    computeLoss g3
      (final_object
         (computeLossGradient (mk_ndarray [1%nat] [1%float]) (constructed Plot 1)
            (mk_World 2 []))
         (constructed Plot 1))
      (final_world
         (computeLossGradient (mk_ndarray [1%nat] [1%float]) (constructed Plot 1)
            (mk_World 2 []))).
Proof.
  assert (Hinv : cache_inv (constructed Plot 1)).
  { split; [ repeat split | ]. vm_compute. discriminate. }
  split; [ exact Hinv | ].
  apply (computeLoss_after_gradient (mk_ndarray [1%nat] [1%float])
           (constructed Plot 1) _ (mk_World 2 []) _
           (mk_ndarray [1%nat] [2%float]) Hinv).
  vm_compute. reflexivity.
Defined.

End RayIterations.

Section ExactMethods.
Import Exact.

(** X7 on the object with nothing cached: the first call fills the cache
    from the sinogram [3], the second one changes nothing. *)
Lemma updateVariables_idempotent_exact :
  dose (final_object
          (updateVariables (mk_ndarray [1%nat; 1%nat] [3]) object (mk_World 0 []))
          object) = Some [3; 3] /\
  forall g' w',
    updateVariables g'
      (final_object
         (updateVariables (mk_ndarray [1%nat; 1%nat] [3]) object (mk_World 0 []))
         object) w' =
    Ok tt
      (final_object
         (updateVariables (mk_ndarray [1%nat; 1%nat] [3]) object (mk_World 0 []))
         object) w'.
Proof.
  split; [ vm_compute; reflexivity | ].
  apply (updateVariables_idempotent (mk_ndarray [1%nat; 1%nat] [3]) object _
           (mk_World 0 []) (mk_World 0 [])).
  vm_compute. reflexivity.
Defined.

(** X8 on the 1 x 1 sinogram [3]. *)
Lemma checkSinogramShape_round_trip_exact :
  exists gf,
    checkSinogramShape object (mk_ndarray [1%nat; 1%nat] [3]) Flattened = Success gf /\
    (length (shape gf) <= 1)%nat /\
    data gf = [3] /\
    checkSinogramShape object gf Cylindrical = Success (mk_ndarray [1%nat; 1%nat] [3]).
Proof.
  apply (checkSinogramShape_round_trip object (mk_ndarray [1%nat; 1%nat] [3]));
    reflexivity.
Defined.

(** X9 on the flat sinogram [3]. *)
Lemma checkSinogramShape_round_trip_flat_exact :
  exists gc,
    checkSinogramShape object (mk_ndarray [1%nat] [3]) Cylindrical = Success gc /\
    shape gc = [1%nat; 1%nat] /\
    data gc = [3] /\
    checkSinogramShape object gc Flattened = Success (mk_ndarray [1%nat] [3]).
Proof.
  apply (checkSinogramShape_round_trip_flat object (mk_ndarray [1%nat] [3]));
    [ reflexivity | reflexivity | discriminate ].
Defined.

End ExactMethods.

(** ** The plots of vamtoolbox.display *)

Section DisplayProperties.
Import Stdlib.Strings.String.
Import Display.
Local Open Scope string_scope.
Local Open Scope Z_scope.

Lemma num_slices_index (t : IndexTracker) (n : nat) :
  num_slices t = Some n ->
  (slice_index t = 0 /\ n = n0 t) \/
  (slice_index t = 1 /\ n = n1 t) \/
  (slice_index t = 2 /\ n = n2 t).
Proof.
  unfold num_slices.
  destruct (Z.eqb_spec (slice_index t) 0); [ intros [= <-]; auto | ].
  destruct (Z.eqb_spec (slice_index t) 1); [ intros [= <-]; auto | ].
  destruct (Z.eqb_spec (slice_index t) 2); [ intros [= <-]; auto | ].
  discriminate.
Qed.

(** [update] on an index that is one of the slices. *)
Lemma update_shows (t : IndexTracker) (n : nat) :
  num_slices t = Some n -> 0 <= ind t < Z.of_nat n ->
  exists t',
    update t = Returns t' /\ same_view t t' /\ ind t' = ind t /\ shows t'.
Proof.
  intros Hn Hi. unfold update, take_slice.
  destruct (num_slices_index t n Hn) as [[E En] | [[E En] | [E En]]];
    rewrite E, <- En; cbn [Z.eqb Pos.eqb];
    rewrite (py_index_nonneg _ _ Hi);
    cbn [set_im slice_index vol_type ind andb];
    repeat match goal with
           | |- context [if ?b then _ else _] => destruct b
           end;
    (eexists; split; [ reflexivity | ];
     split; [ repeat split | ]; split; [ reflexivity | ];
     exists n; cbn; unfold num_slices; cbn; rewrite E, En; cbn;
     repeat split; lia).
Qed.

Lemma same_view_num_slices (t t' : IndexTracker) :
  same_view t t' -> num_slices t' = num_slices t.
Proof.
  intros (_ & Hs & _ & _ & H0 & H1 & H2). unfold num_slices.
  now rewrite Hs, H0, H1, H2.
Qed.

Lemma same_view_trans (t1 t2 t3 : IndexTracker) :
  same_view t1 t2 -> same_view t2 t3 -> same_view t1 t3.
Proof.
  unfold same_view. intros (? & ? & ? & ? & ? & ? & ?) (? & ? & ? & ? & ? & ? & ?).
  repeat split; congruence.
Qed.

(** One scroll event on a tracker whose axis has a slice. *)
Lemma onscroll_shows (t : IndexTracker) (n : nat) (event : ScrollEvent) :
  num_slices t = Some n -> (0 < n)%nat ->
  exists t',
    onscroll t event = Returns t' /\ same_view t t' /\
    (inaxes event <> Some (ax t) -> t' = t) /\
    (inaxes event = Some (ax t) ->
     shows t' /\
     ind t' =
       if String.eqb (button event) "up"
       then (ind t + slice_step t) mod Z.of_nat n
       else (ind t - slice_step t) mod Z.of_nat n).
Proof.
  intros Hn Hpos. unfold onscroll.
  destruct (inaxes event) as [a | ].
  - destruct (Nat.eqb_spec a (ax t)) as [-> | Ha].
    + rewrite Hn. destruct n as [ | n']; [ lia | ].
      set (i := if String.eqb (button event) "up"
                then (ind t + slice_step t) mod Z.of_nat (S n')
                else (ind t - slice_step t) mod Z.of_nat (S n')).
      assert (Hi : 0 <= i < Z.of_nat (S n')).
      { subst i. destruct (String.eqb _ _); apply Z.mod_pos_bound; lia. }
      destruct (update_shows (set_ind i t) (S n')) as (t' & Hu & Hv & Hind & Hs).
      { exact Hn. }
      { exact Hi. }
      exists t'. split.
      { subst i. destruct (String.eqb _ _); exact Hu. }
      split; [ exact Hv | ]. split; [ congruence | ].
      intros _. split; [ exact Hs | exact Hind ].
    + exists t. split; [ reflexivity | ]. split; [ repeat split | ].
      split; [ reflexivity | ]. intros [= E]. contradiction.
  - exists t. split; [ reflexivity | ]. split; [ repeat split | ].
    split; [ reflexivity | ]. discriminate.
Qed.

(** Any number of scroll events. *)
Lemma scroll_shows (events : list ScrollEvent) :
  forall t, sliceable t -> shows t ->
  exists t', scroll t events = Returns t' /\ same_view t t' /\ shows t'.
Proof.
  induction events as [ | event events IH]; intros t Hs Hsh.
  - exists t. split; [ reflexivity | ]. split; [ repeat split | exact Hsh ].
  - destruct Hs as (n & Hn & Hpos).
    destruct (onscroll_shows t n event Hn Hpos) as (t1 & Hr & Hv & Hout & Hin).
    assert (Hsh1 : shows t1).
    { destruct (inaxes event) as [a | ] eqn:Ea.
      - destruct (Nat.eq_dec a (ax t)) as [-> | Ha].
        + now apply Hin.
        + rewrite Hout; [ exact Hsh | ]. intros [= E]. contradiction.
      - rewrite Hout; [ exact Hsh | discriminate ]. }
    destruct (IH t1) as (t' & Hr' & Hv' & Hsh').
    { exists n. split; [ | exact Hpos ].
      now rewrite (same_view_num_slices t t1 Hv). }
    { exact Hsh1. }
    exists t'. cbn [scroll]. rewrite Hr.
    split; [ exact Hr' | ]. split; [ | exact Hsh' ].
    exact (same_view_trans _ _ _ Hv Hv').
Qed.

(** The tracker that [__init__] returns. *)
Lemma IndexTracker_init_shows (shape : nat * nat * nat) (vol_type_ : string)
    (slice_index_ slice_step_ : Z) (ax_ : nat) (t : IndexTracker) :
  IndexTracker_init shape vol_type_ slice_index_ slice_step_ ax_ = Returns t ->
  sliceable t /\ shows t /\
  vol_type t = vol_type_ /\ slice_index t = slice_index_ /\
  slice_step t = slice_step_ /\ ax t = ax_ /\
  (n0 t, n1 t, n2 t) =
    (let '(s0, s1, s2) := shape in
     if slice_index_ =? 1 then (s2, s1, s0) else (s0, s1, s2)) /\
  exists n, num_slices t = Some n /\ ind t = Z.of_nat n / 2.
Proof.
  destruct shape as [[s0 s1] s2]. unfold IndexTracker_init.
  destruct (Nat.eqb_spec (s0 * s1 * s2) 0) as [ | Hne]; [ discriminate | ].
  assert (H0 : (0 < s0)%nat) by (destruct s0; [ cbn in Hne | ]; lia).
  assert (H1 : (0 < s1)%nat) by (destruct s1; [ | lia ]; rewrite Nat.mul_0_r in Hne; lia).
  assert (H2 : (0 < s2)%nat) by (destruct s2; [ | lia ]; rewrite Nat.mul_0_r in Hne; lia).
  assert (Hhalf : forall n, (0 < n)%nat -> 0 <= Z.of_nat n / 2 < Z.of_nat n).
  { intros n Hn. split; [ apply Z.div_pos; lia | apply Z.div_lt_upper_bound; lia ]. }
  destruct (Z.eqb_spec slice_index_ 0) as [-> | N0]; cbn [Z.eqb].
  - unfold take_slice. rewrite (py_index_nonneg _ _ (Hhalf s0 H0)).
    set (t0 := mk_IndexTracker _ _ _ _ _ _ _ _ _ _).
    destruct (update_shows t0 s0) as (t' & Hu & Hv & Hi & Hs);
      [ reflexivity | exact (Hhalf s0 H0) | ].
    rewrite Hu. intros [= <-].
    pose proof (same_view_num_slices _ _ Hv) as Hn.
    destruct Hv as (V1 & V2 & V3 & V4 & V5 & V6 & V7).
    split; [ exists s0; split; [ rewrite Hn; reflexivity | exact H0 ] | ].
    split; [ exact Hs | ].
    repeat split; try assumption.
    + now rewrite V5, V6, V7.
    + exists s0. split; [ rewrite Hn; reflexivity | exact Hi ].
  - destruct (Z.eqb_spec slice_index_ 1) as [-> | N1]; cbn [Z.eqb Pos.eqb].
    + unfold take_slice. rewrite (py_index_nonneg _ _ (Hhalf s1 H1)).
      set (t0 := mk_IndexTracker _ _ _ _ _ _ _ _ _ _).
      destruct (update_shows t0 s1) as (t' & Hu & Hv & Hi & Hs);
        [ reflexivity | exact (Hhalf s1 H1) | ].
      rewrite Hu. intros [= <-].
      pose proof (same_view_num_slices _ _ Hv) as Hn.
      destruct Hv as (V1 & V2 & V3 & V4 & V5 & V6 & V7).
      split; [ exists s1; split; [ rewrite Hn; reflexivity | exact H1 ] | ].
      split; [ exact Hs | ].
      repeat split; try assumption.
      * now rewrite V5, V6, V7.
      * exists s1. split; [ rewrite Hn; reflexivity | exact Hi ].
    + destruct (Z.eqb_spec slice_index_ 2) as [-> | N2]; [ | discriminate ].
      unfold take_slice. rewrite (py_index_nonneg _ _ (Hhalf s2 H2)).
      set (t0 := mk_IndexTracker _ _ _ _ _ _ _ _ _ _).
      destruct (update_shows t0 s2) as (t' & Hu & Hv & Hi & Hs);
        [ reflexivity | exact (Hhalf s2 H2) | ].
      rewrite Hu. intros [= <-].
      pose proof (same_view_num_slices _ _ Hv) as Hn.
      destruct Hv as (V1 & V2 & V3 & V4 & V5 & V6 & V7).
      split; [ exists s2; split; [ rewrite Hn; reflexivity | exact H2 ] | ].
      split; [ exact Hs | ].
      repeat split; try assumption.
      * now rewrite V5, V6, V7.
      * exists s2. split; [ rewrite Hn; reflexivity | exact Hi ].
Qed.

Lemma shows_im (t t' : IndexTracker) :
  shows t -> shows t' -> slice_index t' = slice_index t -> ind t' = ind t ->
  im t' = im t.
Proof.
  intros (n & _ & _ & H1) (n' & _ & _ & H2) Hs Hi. congruence.
Qed.

(** X11. A tracker that [__init__] returned can be scrolled for ever: no
    sequence of scroll events makes [onscroll] raise, and after each of them
    the index is one of the slices of the axis and the image holds that
    slice; the axis, the step and the lengths stay as constructed. *)
Theorem scroll_never_raises (shape : nat * nat * nat) (vol_type_ : string)
    (slice_index_ slice_step_ : Z) (ax_ : nat) (t : IndexTracker)
    (events : list ScrollEvent) :
  IndexTracker_init shape vol_type_ slice_index_ slice_step_ ax_ = Returns t ->
  exists t' n,
    scroll t events = Returns t' /\
    same_view t t' /\
    num_slices t' = Some n /\
    0 <= ind t' < Z.of_nat n /\
    im t' = Slice (Z.to_nat slice_index_) (Z.to_nat (ind t')).
Proof.
  intros Hinit.
  destruct (IndexTracker_init_shows _ _ _ _ _ _ Hinit)
    as (Hs & Hsh & _ & Hsi & _).
  destruct (scroll_shows events t Hs Hsh) as (t' & Hr & Hv & (n & Hn & Hi & Him)).
  exists t', n. split; [ exact Hr | ]. split; [ exact Hv | ].
  split; [ exact Hn | ]. split; [ exact Hi | ].
  rewrite Him. destruct Hv as (_ & -> & _). now rewrite Hsi.
Qed.

(** X12. Scrolling up and then down, or down and then up, inside the axes
    of a tracker that shows one of its slices brings the index and the image
    back, whatever the step. *)
Theorem scroll_up_down_round_trip (t : IndexTracker) (up down : ScrollEvent) :
  sliceable t -> shows t ->
  inaxes up = Some (ax t) -> button up = "up" ->
  inaxes down = Some (ax t) -> button down <> "up" ->
  (exists t1 t2,
     onscroll t up = Returns t1 /\ onscroll t1 down = Returns t2 /\
     ind t2 = ind t /\ im t2 = im t) /\
  (exists t1 t2,
     onscroll t down = Returns t1 /\ onscroll t1 up = Returns t2 /\
     ind t2 = ind t /\ im t2 = im t).
Proof.
  intros (n & Hn & Hpos) Hsh Hu Hub Hd Hdb.
  assert (Hdb' : String.eqb (button down) "up" = false)
    by (now apply String.eqb_neq).
  assert (Hub' : String.eqb (button up) "up" = true)
    by (now apply String.eqb_eq).
  pose proof Hsh as (n' & Hn' & Hi & _).
  rewrite Hn in Hn'. injection Hn' as <-.
  assert (Hround : forall (e1 e2 : ScrollEvent) (d : Z),
             inaxes e1 = Some (ax t) -> inaxes e2 = Some (ax t) ->
             (if String.eqb (button e1) "up"
              then (ind t + slice_step t) mod Z.of_nat n
              else (ind t - slice_step t) mod Z.of_nat n) =
               (ind t + d) mod Z.of_nat n ->
             (forall i, (if String.eqb (button e2) "up"
                         then (i + slice_step t) mod Z.of_nat n
                         else (i - slice_step t) mod Z.of_nat n) =
                          (i - d) mod Z.of_nat n) ->
             exists t1 t2,
               onscroll t e1 = Returns t1 /\ onscroll t1 e2 = Returns t2 /\
               ind t2 = ind t /\ im t2 = im t).
  { intros e1 e2 d H1 H2 Hd1 Hd2.
    destruct (onscroll_shows t n e1 Hn Hpos) as (t1 & Hr1 & Hv1 & _ & Hin1).
    destruct (Hin1 H1) as [Hsh1 Hind1].
    pose proof (same_view_num_slices _ _ Hv1) as Hn1. rewrite Hn in Hn1.
    destruct (onscroll_shows t1 n e2 Hn1 Hpos) as (t2 & Hr2 & Hv2 & _ & Hin2).
    destruct Hin2 as [Hsh2 Hind2].
    { destruct Hv1 as (_ & _ & -> & _). exact H2. }
    exists t1, t2. split; [ exact Hr1 | ]. split; [ exact Hr2 | ].
    assert (Hind : ind t2 = ind t).
    { rewrite Hind2.
      replace (slice_step t1) with (slice_step t) by (symmetry; apply Hv1).
      rewrite Hd2, Hind1, Hd1, Zminus_mod_idemp_l.
      replace (ind t + d - d) with (ind t) by lia.
      apply Z.mod_small. exact Hi. }
    split; [ exact Hind | ].
    apply shows_im; [ exact Hsh | exact Hsh2 | | exact Hind ].
    destruct Hv1 as (_ & E1 & _), Hv2 as (_ & E2 & _). congruence. }
  split.
  - apply (Hround up down (slice_step t)); [ exact Hu | exact Hd | | ].
    + now rewrite Hub'.
    + intros i. now rewrite Hdb'.
  - apply (Hround down up (- slice_step t)); [ exact Hd | exact Hu | | ].
    + rewrite Hdb'. f_equal; lia.
    + intros i. rewrite Hub'. f_equal; lia.
Qed.

Lemma scroll_repeat (event : ScrollEvent) (n : nat) (k : nat) :
  forall t,
  num_slices t = Some n -> (0 < n)%nat -> shows t ->
  inaxes event = Some (ax t) ->
  exists t',
    scroll t (repeat event k) = Returns t' /\ same_view t t' /\ shows t' /\
    ind t' =
      (ind t + Z.of_nat k * (if String.eqb (button event) "up"
                             then slice_step t
                             else - slice_step t)) mod Z.of_nat n.
Proof.
  induction k as [ | k IH]; intros t Hn Hpos Hsh Hin.
  - exists t. split; [ reflexivity | ]. split; [ repeat split | ].
    split; [ exact Hsh | ].
    destruct Hsh as (n' & Hn' & Hi & _). rewrite Hn in Hn'. injection Hn' as <-.
    rewrite Z.mul_0_l, Z.add_0_r. symmetry. now apply Z.mod_small.
  - destruct (onscroll_shows t n event Hn Hpos) as (t1 & Hr1 & Hv1 & _ & Hin1).
    destruct (Hin1 Hin) as [Hsh1 Hind1].
    pose proof (same_view_num_slices _ _ Hv1) as Hn1. rewrite Hn in Hn1.
    destruct (IH t1 Hn1 Hpos Hsh1) as (t' & Hr' & Hv' & Hsh' & Hind').
    { destruct Hv1 as (_ & _ & -> & _). exact Hin. }
    exists t'. cbn [repeat scroll]. rewrite Hr1.
    split; [ exact Hr' | ].
    split; [ exact (same_view_trans _ _ _ Hv1 Hv') | ].
    split; [ exact Hsh' | ].
    rewrite Hind', Hind1.
    replace (slice_step t1) with (slice_step t) by (symmetry; apply Hv1).
    destruct (String.eqb (button event) "up");
      rewrite Zplus_mod_idemp_l; f_equal; lia.
Qed.

(** X13. Scrolling wraps around: as many scroll events of one direction
    as the axis has slices, inside the axes of the tracker, bring the index
    and the image back to where they were, whatever the step. *)
Theorem scroll_wraps_around (t : IndexTracker) (event : ScrollEvent) (n : nat) :
  num_slices t = Some n -> (0 < n)%nat -> shows t ->
  inaxes event = Some (ax t) ->
  exists t',
    scroll t (repeat event n) = Returns t' /\
    ind t' = ind t /\ im t' = im t.
Proof.
  intros Hn Hpos Hsh Hin.
  destruct (scroll_repeat event n n t Hn Hpos Hsh Hin)
    as (t' & Hr & Hv & Hsh' & Hind).
  exists t'. split; [ exact Hr | ].
  assert (E : ind t' = ind t).
  { rewrite Hind, Z.mul_comm, Z_mod_plus_full.
    destruct Hsh as (n' & Hn' & Hi & _). rewrite Hn in Hn'. injection Hn' as <-.
    now apply Z.mod_small. }
  split; [ exact E | ].
  apply shows_im; [ exact Hsh | exact Hsh' | apply Hv | exact E ].
Qed.

(** What [__init__] does in each case. *)
Lemma IndexTracker_init_cases (s0 s1 s2 : nat) (vol_type_ : string)
    (slice_index_ slice_step_ : Z) (ax_ : nat) :
  ((s0 * s1 * s2 = 0)%nat /\
   IndexTracker_init (s0, s1, s2) vol_type_ slice_index_ slice_step_ ax_ =
     Raises (Builtin ValueError)) \/
  ((s0 * s1 * s2 <> 0)%nat /\
   slice_index_ <> 0 /\ slice_index_ <> 1 /\ slice_index_ <> 2 /\
   IndexTracker_init (s0, s1, s2) vol_type_ slice_index_ slice_step_ ax_ =
     Raises (Builtin AttributeError)) \/
  ((s0 * s1 * s2 <> 0)%nat /\
   (slice_index_ = 0 \/ slice_index_ = 1 \/ slice_index_ = 2) /\
   exists t,
     IndexTracker_init (s0, s1, s2) vol_type_ slice_index_ slice_step_ ax_ =
       Returns t).
Proof.
  unfold IndexTracker_init.
  destruct (Nat.eqb_spec (s0 * s1 * s2) 0) as [ | Hne]; [ now left | right ].
  assert (H0 : (0 < s0)%nat) by (destruct s0; [ cbn in Hne | ]; lia).
  assert (H1 : (0 < s1)%nat)
    by (destruct s1; [ | lia ]; rewrite Nat.mul_0_r in Hne; lia).
  assert (H2 : (0 < s2)%nat)
    by (destruct s2; [ | lia ]; rewrite Nat.mul_0_r in Hne; lia).
  assert (Hhalf : forall n, (0 < n)%nat -> 0 <= Z.of_nat n / 2 < Z.of_nat n).
  { intros n Hn. split; [ apply Z.div_pos; lia | apply Z.div_lt_upper_bound; lia ]. }
  destruct (Z.eqb_spec slice_index_ 0) as [-> | N0]; cbn [Z.eqb].
  - right. split; [ exact Hne | ]. split; [ auto | ].
    unfold take_slice. rewrite (py_index_nonneg _ _ (Hhalf s0 H0)).
    set (t0 := mk_IndexTracker _ _ _ _ _ _ _ _ _ _).
    destruct (update_shows t0 s0) as (t' & Hu & _);
      [ reflexivity | exact (Hhalf s0 H0) | ].
    now exists t'.
  - destruct (Z.eqb_spec slice_index_ 1) as [-> | N1]; cbn [Z.eqb Pos.eqb].
    + right. split; [ exact Hne | ]. split; [ auto | ].
      unfold take_slice. rewrite (py_index_nonneg _ _ (Hhalf s1 H1)).
      set (t0 := mk_IndexTracker _ _ _ _ _ _ _ _ _ _).
      destruct (update_shows t0 s1) as (t' & Hu & _);
        [ reflexivity | exact (Hhalf s1 H1) | ].
      now exists t'.
    + destruct (Z.eqb_spec slice_index_ 2) as [-> | N2].
      * right. split; [ exact Hne | ]. split; [ auto | ].
        unfold take_slice. rewrite (py_index_nonneg _ _ (Hhalf s2 H2)).
        set (t0 := mk_IndexTracker _ _ _ _ _ _ _ _ _ _).
        destruct (update_shows t0 s2) as (t' & Hu & _);
          [ reflexivity | exact (Hhalf s2 H2) | ].
        now exists t'.
      * left. auto.
Qed.

(** X14. [VolumeSlicer] constructs exactly when neither [ax] nor [fig] is
    passed, the volume type is 'recon', 'target' or 'sino' and the array has
    an element: it then holds two trackers, the first slicing axis 2 in the
    axes 0 of the figure, the second slicing axis 1 (of the array with its
    axes 0 and 2 swapped) in the axes 1, each showing the middle slice.
    Otherwise it raises UnboundLocalError, for [axs] or [labels], or
    ValueError, for the empty array. *)
Theorem VolumeSlicer_init_cases (s0 s1 s2 : nat) (vol_type_ : string)
    (slice_step_ : Z) (ax_ fig : option nat) :
  match VolumeSlicer_init (s0, s1, s2) vol_type_ slice_step_ ax_ fig with
  | Returns trackers =>
      ax_ = None /\ fig = None /\
      (vol_type_ = "recon" \/ vol_type_ = "target" \/ vol_type_ = "sino") /\
      (s0 * s1 * s2 <> 0)%nat /\
      exists t2 t1,
        trackers = [t2; t1] /\
        slice_index t2 = 2 /\ ax t2 = 0%nat /\ ind t2 = Z.of_nat s2 / 2 /\
        (n0 t2, n1 t2, n2 t2) = (s0, s1, s2) /\ shows t2 /\
        slice_index t1 = 1 /\ ax t1 = 1%nat /\ ind t1 = Z.of_nat s1 / 2 /\
        (n0 t1, n1 t1, n2 t1) = (s2, s1, s0) /\ shows t1
  | Raises e =>
      (e = UnboundLocalError /\
       (ax_ <> None \/ fig <> None \/
        (vol_type_ <> "recon" /\ vol_type_ <> "target" /\ vol_type_ <> "sino"))) \/
      (e = Builtin ValueError /\ (s0 * s1 * s2 = 0)%nat)
  end.
Proof.
  unfold VolumeSlicer_init.
  destruct ax_ as [a | ]; [ left; split; [ reflexivity | left; discriminate ] | ].
  destruct fig as [f | ];
    [ left; split; [ reflexivity | right; left; discriminate ] | ].
  destruct (String.eqb_spec vol_type_ "recon") as [E1 | E1];
    [ | destruct (String.eqb_spec vol_type_ "target") as [E2 | E2];
        [ | destruct (String.eqb_spec vol_type_ "sino") as [E3 | E3] ] ];
    cbn [orb];
    try (left; split; [ reflexivity | right; right; auto ]).
  all: destruct (IndexTracker_init_cases s0 s1 s2 vol_type_ 2 slice_step_ 0)
         as [[Hz ->] | [(_ & _ & _ & N & _) | (Hne & _ & t2 & Ht2)]];
         [ right; auto | congruence | ].
  all: rewrite Ht2.
  all: destruct (IndexTracker_init_cases s0 s1 s2 vol_type_ 1 slice_step_ 1)
         as [[Hz _] | [(_ & _ & N & _) | (_ & _ & t1 & Ht1)]];
         [ congruence | congruence | ].
  all: rewrite Ht1.
  all: destruct (IndexTracker_init_shows _ _ _ _ _ _ Ht2)
         as (_ & Hsh2 & _ & Hsi2 & _ & Hax2 & Hd2 & n2' & Hn2 & Hi2).
  all: destruct (IndexTracker_init_shows _ _ _ _ _ _ Ht1)
         as (_ & Hsh1 & _ & Hsi1 & _ & Hax1 & Hd1 & n1' & Hn1 & Hi1).
  all: cbn in Hd1, Hd2.
  all: assert (En2 : n2' = s2)
         by (unfold num_slices in Hn2; rewrite Hsi2 in Hn2; cbn in Hn2;
             injection Hd2 as _ _ E; congruence).
  all: assert (En1 : n1' = s1)
         by (unfold num_slices in Hn1; rewrite Hsi1 in Hn1; cbn in Hn1;
             injection Hd1 as _ E _; congruence).
  all: subst n2' n1'.
  all: split; [ reflexivity | ]; split; [ reflexivity | ]; split; [ auto | ].
  all: split; [ exact Hne | ].
  all: exists t2, t1; repeat split; assumption.
Qed.

(** The two trackers of a [VolumeSlicer] that was constructed. *)
Lemma VolumeSlicer_init_returns (shape : nat * nat * nat) (vol_type_ : string)
    (slice_step_ : Z) (ax_ fig : option nat) (trackers : list IndexTracker) :
  VolumeSlicer_init shape vol_type_ slice_step_ ax_ fig = Returns trackers ->
  exists t2 t1,
    trackers = [t2; t1] /\
    IndexTracker_init shape vol_type_ 2 slice_step_ 0 = Returns t2 /\
    IndexTracker_init shape vol_type_ 1 slice_step_ 1 = Returns t1.
Proof.
  unfold VolumeSlicer_init.
  destruct ax_; [ discriminate | ]. destruct fig; [ discriminate | ].
  destruct (_ || _); [ | discriminate ].
  destruct (IndexTracker_init shape vol_type_ 2 slice_step_ 0) as [t2 | ];
    [ | discriminate ].
  destruct (IndexTracker_init shape vol_type_ 1 slice_step_ 1) as [t1 | ];
    [ | discriminate ].
  intros [= <-]. now exists t2, t1.
Qed.

(** X15. The two trackers of a [VolumeSlicer] react each to the events of
    its own axes only: an event inside the axes of one tracker leaves the
    other tracker as it is, and an event outside both leaves both. *)
Theorem scroll_is_per_axes (shape : nat * nat * nat) (vol_type_ : string)
    (slice_step_ : Z) (t2 t1 : IndexTracker) (event : ScrollEvent) :
  VolumeSlicer_init shape vol_type_ slice_step_ None None = Returns [t2; t1] ->
  (inaxes event = Some 0%nat ->
   onscroll t1 event = Returns t1 /\
   exists t2', onscroll t2 event = Returns t2' /\ shows t2') /\
  (inaxes event = Some 1%nat ->
   onscroll t2 event = Returns t2 /\
   exists t1', onscroll t1 event = Returns t1' /\ shows t1') /\
  (inaxes event <> Some 0%nat -> inaxes event <> Some 1%nat ->
   onscroll t2 event = Returns t2 /\ onscroll t1 event = Returns t1).
Proof.
  intros Hinit.
  destruct (VolumeSlicer_init_returns _ _ _ _ _ _ Hinit)
    as (t2' & t1' & [= <- <-] & Ht2 & Ht1).
  destruct (IndexTracker_init_shows _ _ _ _ _ _ Ht2)
    as ((k2 & Hn2 & Hp2) & _ & _ & _ & _ & Hax2 & _).
  destruct (IndexTracker_init_shows _ _ _ _ _ _ Ht1)
    as ((k1 & Hn1 & Hp1) & _ & _ & _ & _ & Hax1 & _).
  destruct (onscroll_shows t2 k2 event Hn2 Hp2) as (u2 & Hr2 & _ & Hout2 & Hin2).
  destruct (onscroll_shows t1 k1 event Hn1 Hp1) as (u1 & Hr1 & _ & Hout1 & Hin1).
  rewrite Hax2 in Hout2, Hin2. rewrite Hax1 in Hout1, Hin1.
  split; [ | split ].
  - intros E. split.
    + rewrite Hr1. f_equal. apply Hout1. rewrite E. discriminate.
    + exists u2. split; [ exact Hr2 | now apply Hin2 ].
  - intros E. split.
    + rewrite Hr2. f_equal. apply Hout2. rewrite E. discriminate.
    + exists u1. split; [ exact Hr1 | now apply Hin1 ].
  - intros E0 E1. split.
    + rewrite Hr2. f_equal. now apply Hout2.
    + rewrite Hr1. f_equal. now apply Hout1.
Qed.

Lemma paint_where_lookup (mask : list bool) (color : rgba)
    (array painted : list rgba) :
  paint_where mask color array = Returns painted ->
  List.length painted = List.length array /\
  forall i px, array !! i = Some px ->
    painted !! i = Some (if default false (mask !! i) then color else px).
Proof.
  unfold paint_where.
  destruct (Nat.eqb_spec (List.length mask) (List.length array)) as [El | ];
    [ | discriminate ].
  intros [= <-]. split.
  - rewrite length_zip_with. lia.
  - intros i px Hpx. rewrite lookup_zip_with, Hpx.
    destruct (lookup_lt_is_Some_2 mask i) as [b Hb].
    { rewrite El. now apply lookup_lt_Some in Hpx. }
    rewrite Hb. reflexivity.
Qed.

Lemma lookup_map_Some {A B : Type} (f : A -> B) (l : list A) (i : nat) (x : A) :
  l !! i = Some x -> List.map f l !! i = Some (f x).
Proof.
  revert i. induction l as [ | y l IH]; intros [ | i]; cbn; try discriminate.
  - now intros [= ->].
  - apply IH.
Qed.

(** X16. The cursor reads back the bodies that [BodiesIndexTracker]
    painted: on the RGBA array built from a target geometry, whatever the
    rounding to float32, the pixel of a voxel under the zero-dose mask reads
    'zero dose' (also when the insert mask holds it too), the pixel of a
    voxel under the insert mask alone reads 'insert', and the pixel of any
    other voxel whose value lies in [0, 1], the range that an image keeps as
    it is, reads 'void' when the value is 0 and 'target' otherwise. *)
Theorem bodies_read_back (float32 : float -> float) (a : list float)
    (insert zero_dose : option (list bool)) (painted : list rgba) :
  bodies_array float32 (Geometry a insert zero_dose) = Returns painted ->
  List.length painted = List.length a /\
  forall i v, a !! i = Some v ->
    exists px,
      painted !! i = Some px /\
      (masked zero_dose i = true -> body_of px = Returns "zero dose") /\
      (masked zero_dose i = false -> masked insert i = true ->
       body_of px = Returns "insert") /\
      (masked zero_dose i = false -> masked insert i = false ->
       PrimFloat.eqb (float32 v) (float32 v) = true ->
       PrimFloat.leb 0 (float32 v) = true ->
       PrimFloat.leb (float32 v) 1 = true ->
       body_of px =
         Returns (if PrimFloat.eqb (float32 v) 0 then "void" else "target")).
Proof.
  unfold bodies_array. destruct a as [ | v0 a0] eqn:Ea; [ discriminate | ].
  rewrite <- Ea. clear Ea v0 a0.
  set (stack := fun v => mk_rgba (float32 v) (float32 v) (float32 v) 1).
  assert (Hstack : forall v, PrimFloat.eqb (float32 v) (float32 v) = true ->
            body_of (stack v) =
            Returns (if PrimFloat.eqb (float32 v) 0 then "void" else "target")).
  { intros v Hv. unfold body_of, stack. cbn [c0 c1]. rewrite Hv. cbn [andb].
    now destruct (PrimFloat.eqb (float32 v) 0). }
  assert (Hfirst : forall first,
            match insert with
            | Some m => paint_where m color_insert (List.map stack a)
            | None => Returns (List.map stack a)
            end = Returns first ->
            List.length first = List.length a /\
            forall i v, a !! i = Some v ->
              first !! i = Some (if masked insert i then color_insert else stack v)).
  { intros first. destruct insert as [m | ].
    - intros Hp. apply paint_where_lookup in Hp as [Hl Hp].
      rewrite length_map in Hl. split; [ exact Hl | ].
      intros i v Hv. exact (Hp i _ (lookup_map_Some stack a i v Hv)).
    - intros [= <-]. split; [ apply length_map | ].
      intros i v Hv. exact (lookup_map_Some stack a i v Hv). }
  destruct (match insert with
            | Some m => paint_where m color_insert (List.map stack a)
            | None => Returns (List.map stack a)
            end) as [first | e]; [ | discriminate ].
  destruct (Hfirst first eq_refl) as [Hl1 Hp1]. clear Hfirst.
  intros Hsecond.
  assert (Hall : List.length painted = List.length a /\
            forall i v, a !! i = Some v ->
              painted !! i =
                Some (if masked zero_dose i then color_zero_dose
                      else if masked insert i then color_insert else stack v)).
  { destruct zero_dose as [m | ].
    - apply paint_where_lookup in Hsecond as [Hl Hp].
      split; [ congruence | ].
      intros i v Hv. exact (Hp i _ (Hp1 i v Hv)).
    - injection Hsecond as <-. split; [ exact Hl1 | ].
      intros i v Hv. exact (Hp1 i v Hv). }
  destruct Hall as [Hl Hp]. split; [ exact Hl | ].
  intros i v Hv. eexists. split; [ exact (Hp i v Hv) | ].
  split; [ | split ].
  - intros ->. reflexivity.
  - intros -> ->. reflexivity.
  - intros -> -> Hv' _ _. now apply Hstack.
Qed.

(** X17. With a slice index other than 1 and 2, which is the case of a
    [BodiesIndexTracker] that slices axis 0, the cursor formatter never
    returns a text: at finite coordinates it raises IndexError outside the
    image and UnboundLocalError on every pixel of it. *)
Theorem cursor_raises_on_first_axis (int : float -> Z) (image : list (list rgba))
    (i : Z) (x y : float) :
  i <> 1 -> i <> 2 ->
  PrimFloat.is_finite (x + 0.5)%float = true ->
  PrimFloat.is_finite (y + 0.5)%float = true ->
  CursorFormatter_call int image (Some i) x y =
  match pixel image (int (y + 0.5)%float) (int (x + 0.5)%float) with
  | Some _ => Raises UnboundLocalError
  | None => Raises (Builtin IndexError)
  end.
Proof.
  intros H1 H2 _ _. unfold CursorFormatter_call. cbv zeta.
  destruct (pixel image _ _) as [val | ]; [ | reflexivity ].
  unfold body_of, cursorString.
  apply Z.eqb_neq in H1, H2. rewrite H1, H2.
  repeat match goal with
         | |- context [if ?b then _ else _] => destruct b
         end; reflexivity.
Qed.

(** X18. The ticks of an [ErrorPlot] are the multiples of a step of 1 at
    least, start at 0, stay below the number of values, leave less than a
    step after the last of them, and are never more than 19. *)
Theorem xticks_bounds (n_iter : nat) :
  let step := Nat.max (n_iter / 10) 1 in
  (1 <= step)%nat /\
  (List.length (xticks n_iter) <= 19)%nat /\
  (forall k tick, xticks n_iter !! k = Some tick ->
     tick = (k * step)%nat /\ (tick < n_iter)%nat) /\
  (n_iter <= List.length (xticks n_iter) * step)%nat.
Proof.
  cbv zeta. unfold xticks, arange.
  set (step := Nat.max (n_iter / 10) 1).
  assert (Hstep : (1 <= step)%nat) by (subst step; lia).
  assert (Hq : (step * ((n_iter + step - 1) / step) <= n_iter + step - 1)%nat)
    by (apply Nat.Div0.mul_div_le).
  assert (Hr : (n_iter + step - 1 <
                step * S ((n_iter + step - 1) / step))%nat)
    by (apply Nat.mul_succ_div_gt; lia).
  rewrite length_map, length_seq.
  split; [ exact Hstep | ]. split; [ | split ].
  - assert (H19 : ((n_iter + step - 1) / step < 20)%nat); [ | lia ].
    apply Nat.Div0.div_lt_upper_bound.
    pose proof (Nat.div_mod_eq n_iter 10) as Hd.
    pose proof (Nat.mod_upper_bound n_iter 10 ltac:(lia)) as Hm.
    subst step. destruct (Nat.max_spec (n_iter / 10) 1) as [[? ->] | [? ->]]; lia.
  - intros k tick Hk.
    assert (Hk' : (k < (n_iter + step - 1) / step)%nat).
    { apply lookup_lt_Some in Hk. now rewrite length_map, length_seq in Hk. }
    rewrite (lookup_map_Some (fun k => (k * step)%nat) _ k k) in Hk.
    + injection Hk as <-. split; [ reflexivity | nia ].
    + rewrite lookup_seq. cbn. split; [ reflexivity | exact Hk' ].
  - nia.
Qed.

(** *** The viewer on 2 x 3 x 4 voxels *)

Lemma tracker_sliceable : sliceable Viewer.tracker.
Proof. exists 4%nat. split; [ reflexivity | lia ]. Qed.

Lemma tracker_shows : shows Viewer.tracker.
Proof. exists 4%nat. repeat split; cbn; lia. Qed.

(** X11 on the tracker of axis 2 and three events. *)
Lemma scroll_never_raises_viewer :
  exists t' n,
    scroll Viewer.tracker [Viewer.up; Viewer.up; Viewer.down] = Returns t' /\
    same_view Viewer.tracker t' /\
    num_slices t' = Some n /\
    0 <= ind t' < Z.of_nat n /\
    im t' = Slice 2 (Z.to_nat (ind t')).
Proof.
  apply (scroll_never_raises (2%nat, 3%nat, 4%nat) "target" 2 1 0 Viewer.tracker
           [Viewer.up; Viewer.up; Viewer.down]).
  reflexivity.
Defined.

(** X12 on the same tracker. *)
Lemma scroll_up_down_round_trip_viewer :
  (exists t1 t2,
     onscroll Viewer.tracker Viewer.up = Returns t1 /\
     onscroll t1 Viewer.down = Returns t2 /\
     ind t2 = 2 /\ im t2 = Slice 2 2) /\
  (exists t1 t2,
     onscroll Viewer.tracker Viewer.down = Returns t1 /\
     onscroll t1 Viewer.up = Returns t2 /\
     ind t2 = 2 /\ im t2 = Slice 2 2).
Proof.
  apply (scroll_up_down_round_trip Viewer.tracker Viewer.up Viewer.down).
  - exact tracker_sliceable.
  - exact tracker_shows.
  - reflexivity.
  - reflexivity.
  - reflexivity.
  - discriminate.
Defined.

(** X13 on the same tracker: four slices, four events. *)
Lemma scroll_wraps_around_viewer :
  exists t',
    scroll Viewer.tracker (repeat Viewer.up 4) = Returns t' /\
    ind t' = 2 /\ im t' = Slice 2 2.
Proof.
  apply (scroll_wraps_around Viewer.tracker Viewer.up 4).
  - reflexivity.
  - lia.
  - exact tracker_shows.
  - reflexivity.
Defined.

(** X15 on the two trackers of the viewer. *)
Lemma scroll_is_per_axes_viewer :
  onscroll Viewer.side_tracker Viewer.up = Returns Viewer.side_tracker /\
  exists t2', onscroll Viewer.tracker Viewer.up = Returns t2' /\ shows t2'.
Proof.
  apply (scroll_is_per_axes (2%nat, 3%nat, 4%nat) "target" 1
           Viewer.tracker Viewer.side_tracker Viewer.up).
  - reflexivity.
  - reflexivity.
Defined.

(** X16 on four voxels: void, target, insert, and both masks. *)
Lemma bodies_read_back_viewer :
  exists painted,
    bodies_array (fun v => v) Viewer.geometry = Returns painted /\
    List.map body_of painted =
      [Returns "void"; Returns "target"; Returns "insert"; Returns "zero dose"] /\
    List.length painted = 4%nat.
Proof.
  eexists. split; [ vm_compute; reflexivity | ].
  split; [ vm_compute; reflexivity | ].
  refine (proj1 (bodies_read_back (fun v => v) [0; 1; 1; 0.5]%float
                   (Some [false; false; true; true])
                   (Some [false; false; false; true]) _ _)).
  vm_compute. reflexivity.
Defined.

(** X17 on slice index 0 and a red pixel. *)
Lemma cursor_raises_on_first_axis_viewer :
  CursorFormatter_call (fun _ => 0) [[color_insert]] (Some 0) 0%float 0%float =
  Raises UnboundLocalError.
Proof.
  apply (cursor_raises_on_first_axis (fun _ => 0) [[color_insert]] 0
           0%float 0%float); first [ discriminate | reflexivity ].
Defined.

End DisplayProperties.
